(** * A shallow embedding of the DTLS 1.2 connection core

    The development follows the Go sources of the package: the AES-GCM record
    protection ([GCM.Encrypt], [GCM.Decrypt]), the ServerHello codec
    ([MessageServerHello.Marshal], [MessageServerHello.Unmarshal]), and the
    connection object of [conn.go] ([Conn.Read], [Conn.Write],
    [Conn.writePackets], [Conn.compactRawPackets], [Conn.processPacket],
    [Conn.processHandshakePacket], [Conn.fragmentHandshake],
    [Conn.enqueueEncryptedPackets], [Conn.handleIncomingPacket],
    [Conn.readAndBuffer], [Conn.handleQueuedPackets], [Conn.notify],
    [Conn.sessionKey], [Conn.close], [Conn.Close]).

    Conventions.
    - A Go [[]byte] is a [list byte]; a slice's capacity is taken equal to its
      length.
    - Go's unsigned integers are [Z] with the wrap-around written out
      ([uint16], [uint64]); [int] lengths are unbounded [Z].
    - A Go function returning [(T, error)] returns [result T]; a function that
      also mutates its receiver returns the new receiver next to the result.
    - A run-time panic (slice bounds, nil dereference) is the error
      [runtimePanic].
    - Collaborators that are not part of the package (the AEAD of
      [crypto/cipher], the replay detector of [pion/transport], the datagram
      socket) are records of operations; code of the package whose source is
      not available is either taken as a section variable or modelled from
      the specification, and marked so. *)

From Stdlib Require Import ZArith NArith List Lia Bool.
From Stdlib Require Import Strings.Byte Strings.String.
From stdpp Require Import base list.
Import ListNotations.

(* ------------------------------------------------------------------ *)
(** ** Bytes and big-endian integers *)

#[global] Instance byte_eq_decision : EqDecision byte.
Proof. intros a b. unfold Decision. apply Byte.byte_eq_dec. Defined.

Module Bytes.
Local Open Scope Z_scope.

Definition bytes := list byte.

Definition byte_to_Z (b : byte) : Z := Z.of_N (Byte.to_N b).

(** [byte(x)]: conversion of an integer to [uint8] keeps the low 8 bits. *)
Definition byte_of_Z (z : Z) : byte :=
  match Byte.of_N (Z.to_N (z mod 256)) with
  | Some b => b
  | None => x00
  end.

Definition uint16 (z : Z) : Z := z mod 65536.
Definition uint32 (z : Z) : Z := z mod 4294967296.
Definition uint64 (z : Z) : Z := z mod 18446744073709551616.

(** [len(b)] as a Go [int]. *)
Definition len {A} (l : list A) : Z := Z.of_nat (length l).

(** [b[i:]] and [b[:i]] for an index known to be in range. *)
Definition slice_from {A} (i : Z) (l : list A) : list A := drop (Z.to_nat i) l.
Definition slice_to {A} (i : Z) (l : list A) : list A := take (Z.to_nat i) l.

(** Big-endian reading of a byte string as a number. *)
Definition be_to_Z (bs : bytes) : Z :=
  fold_left (fun acc b => acc * 256 + byte_to_Z b) bs 0.

(** The [n] low-order bytes of [z], most significant first. *)
Fixpoint be_of_Z (n : nat) (z : Z) : bytes :=
  match n with
  | O => []
  | S k => be_of_Z k (z / 256) ++ [byte_of_Z z]
  end.

(** [binary.BigEndian.PutUint16], [PutUint32] on a fresh buffer, and the
    48-bit variant used for record sequence numbers. *)
Definition PutUint16 (v : Z) : bytes := be_of_Z 2 v.
Definition PutUint32 (v : Z) : bytes := be_of_Z 4 v.
Definition PutUint48 (v : Z) : bytes := be_of_Z 6 v.
Definition PutUint64 (v : Z) : bytes := be_of_Z 8 v.

(** [binary.BigEndian.Uint16(b)], [Uint32(b)]: the first bytes of [b]. *)
Definition Uint16 (b : bytes) : Z := be_to_Z (take 2 b).
Definition Uint32 (b : bytes) : Z := be_to_Z (take 4 b).
Definition Uint48 (b : bytes) : Z := be_to_Z (take 6 b).

(** [copy(dst[at:], src)] when [src] fits: overwrite in place. *)
Definition overwrite (at_ : Z) (src dst : bytes) : bytes :=
  take (Z.to_nat at_) dst ++ src ++ drop (Z.to_nat at_ + length src) dst.

(** [copy(dst, src)]: copies [min(len(dst), len(src))] bytes. *)
Definition copy (dst src : bytes) : bytes :=
  take (length dst) src ++ drop (length src) dst.

Definition bytes_eqb (a b : bytes) : bool := bool_decide (a = b).

End Bytes.
Export Bytes.

(* ------------------------------------------------------------------ *)
(** ** Errors and results *)

(** The alert record of package [alert]. *)
Record Alert := mkAlert { alertLevel : Z; alertDescription : Z }.

(** The error values the modelled code returns.  Values of the same name in
    different packages are different Go values and different constructors. *)
Inductive error : Type :=
| errBufferTooSmall                 (* package dtls *)
| errHandshakeInProgress
| errDeadlineExceeded
| ErrConnClosed
| errSequenceNumberOverflow
| errApplicationDataEpochZero
| errUnhandledContextType (contentType : Z)
| alertError (a : Alert)
| netError (code : Z)               (* an error of the datagram socket *)
| io_EOF
| handshake_errBufferTooSmall       (* package handshake *)
| errCipherSuiteUnset
| errCompressionMethodUnset
| errInvalidCompressionMethod
| extension_error (code : Z)        (* package extension *)
| recordlayer_errBufferTooSmall     (* package recordlayer *)
| recordlayer_error (code : Z)
| errNotEnoughRoomForNonce          (* package ciphersuite *)
| errDecryptPacket (cause : error)
| rand_error                        (* crypto/rand *)
| aead_error                        (* crypto/cipher: message authentication failed *)
| otherError (code : Z)
| runtimePanic.

Inductive result (A : Type) : Type :=
| Ok (a : A)
| Err (e : error).
Arguments Ok {A} a.
Arguments Err {A} e.

#[global] Instance result_ret : MRet result := fun _ a => Ok a.
#[global] Instance result_bind : MBind result := fun _ _ k r =>
  match r with
  | Ok a => k a
  | Err e => Err e
  end.

(* ------------------------------------------------------------------ *)
(** ** SHA-256 and HMAC

    [crypto/sha256] and [crypto/hmac] of the Go standard library, written
    after FIPS 180-4 and RFC 2104.  Words are numbers below [2^32]. *)

Module SHA256.
Local Open Scope N_scope.

Definition wrap32 (x : N) : N := x mod 4294967296.
Definition add32 (x y : N) : N := wrap32 (x + y).
Definition rotr (n x : N) : N :=
  N.lor (N.shiftr x n) (wrap32 (N.shiftl x (32 - n))).
Definition not32 (x : N) : N := N.lxor x 4294967295.

Definition Ch (x y z : N) : N := N.lxor (N.land x y) (N.land (not32 x) z).
Definition Maj (x y z : N) : N :=
  N.lxor (N.lxor (N.land x y) (N.land x z)) (N.land y z).
Definition Sigma0 (x : N) : N := N.lxor (N.lxor (rotr 2 x) (rotr 13 x)) (rotr 22 x).
Definition Sigma1 (x : N) : N := N.lxor (N.lxor (rotr 6 x) (rotr 11 x)) (rotr 25 x).
Definition sigma0 (x : N) : N := N.lxor (N.lxor (rotr 7 x) (rotr 18 x)) (N.shiftr x 3).
Definition sigma1 (x : N) : N := N.lxor (N.lxor (rotr 17 x) (rotr 19 x)) (N.shiftr x 10).

(** Round constants and initial hash value, in decimal. *)
Definition K : list N :=
  [ 1116352408; 1899447441; 3049323471; 3921009573; 961987163; 1508970993;
    2453635748; 2870763221; 3624381080; 310598401; 607225278; 1426881987;
    1925078388; 2162078206; 2614888103; 3248222580; 3835390401; 4022224774;
    264347078; 604807628; 770255983; 1249150122; 1555081692; 1996064986;
    2554220882; 2821834349; 2952996808; 3210313671; 3336571891; 3584528711;
    113926993; 338241895; 666307205; 773529912; 1294757372; 1396182291;
    1695183700; 1986661051; 2177026350; 2456956037; 2730485921; 2820302411;
    3259730800; 3345764771; 3516065817; 3600352804; 4094571909; 275423344;
    430227734; 506948616; 659060556; 883997877; 958139571; 1322822218;
    1537002063; 1747873779; 1955562222; 2024104815; 2227730452; 2361852424;
    2428436474; 2756734187; 3204031479; 3329325298 ].

Record state := mkState { sa : N; sb : N; sc : N; sd : N; se : N; sf : N; sg : N; sh : N }.

Definition initial : state :=
  mkState 1779033703 3144134277 1013904242 2773480762
          1359893119 2600822924 528734635 1541459225.

(** The message schedule, newest word first: [W_t] from [W_(t-2)], [W_(t-7)],
    [W_(t-15)] and [W_(t-16)]. *)
Fixpoint extend (n : nat) (ws : list N) : list N :=
  match n with
  | O => ws
  | S k =>
      let w := add32 (add32 (sigma1 (nth 1 ws 0)) (nth 6 ws 0))
                     (add32 (sigma0 (nth 14 ws 0)) (nth 15 ws 0)) in
      extend k (w :: ws)
  end.

Definition schedule (block : list N) : list N := rev (extend 48 (rev block)).

Definition round (s : state) (kw : N * N) : state :=
  let t1 := add32 (add32 (add32 (sh s) (Sigma1 (se s))) (Ch (se s) (sf s) (sg s)))
                  (add32 (fst kw) (snd kw)) in
  let t2 := add32 (Sigma0 (sa s)) (Maj (sa s) (sb s) (sc s)) in
  mkState (add32 t1 t2) (sa s) (sb s) (sc s) (add32 (sd s) t1) (se s) (sf s) (sg s).

Definition compress (s : state) (block : list N) : state :=
  let r := fold_left round (combine K (schedule block)) s in
  mkState (add32 (sa s) (sa r)) (add32 (sb s) (sb r)) (add32 (sc s) (sc r))
          (add32 (sd s) (sd r)) (add32 (se s) (se r)) (add32 (sf s) (sf r))
          (add32 (sg s) (sg r)) (add32 (sh s) (sh r)).

(** Big-endian 32-bit words of a byte string whose length is a multiple of 4. *)
Fixpoint words (bs : list N) : list N :=
  match bs with
  | b0 :: b1 :: b2 :: b3 :: rest =>
      (((b0 * 256 + b1) * 256 + b2) * 256 + b3) :: words rest
  | _ => []
  end.

Definition word_bytes (w : N) : list N :=
  [ N.shiftr w 24; N.shiftr w 16 mod 256; N.shiftr w 8 mod 256; w mod 256 ].

(** Padding: a one bit, zeros up to 56 modulo 64, and the bit length on 8 bytes. *)
Definition pad (msg : list N) : list N :=
  let l := N.of_nat (length msg) in
  let zeros := N.to_nat ((119 - l mod 64) mod 64) in
  let bits := l * 8 in
  msg ++ [128] ++ repeat 0 zeros
      ++ word_bytes (N.shiftr bits 32 mod 4294967296) ++ word_bytes (bits mod 4294967296).

Fixpoint blocks (fuel : nat) (ws : list N) (s : state) : state :=
  match fuel, ws with
  | S k, _ :: _ => blocks k (skipn 16 ws) (compress s (firstn 16 ws))
  | _, _ => s
  end.

Definition digest (msg : list N) : list N :=
  let ws := words (pad msg) in
  let s := blocks (length ws) ws initial in
  concat (map word_bytes [sa s; sb s; sc s; sd s; se s; sf s; sg s; sh s]).

Definition byte_of_N (n : N) : byte :=
  match Byte.of_N n with Some b => b | None => x00 end.

(** [sha256.Sum256]. *)
Definition Sum256 (msg : bytes) : bytes :=
  map byte_of_N (digest (map Byte.to_N msg)).

End SHA256.

(** A [hash.Hash] constructor as the package passes it around ([HashFunc]). *)
Record HashFunc := mkHashFunc {
  hash_Sum : bytes -> bytes;       (* Write the bytes, then Sum(nil) *)
  hash_Size : nat;
  hash_BlockSize : nat
}.

Definition sha256_New : HashFunc := mkHashFunc SHA256.Sum256 32 64.

Module HMAC.

Definition xor_byte (a b : byte) : byte :=
  SHA256.byte_of_N (N.lxor (Byte.to_N a) (Byte.to_N b)).

(** [hmac.New(h, key)]; [Write(data)]; [Sum(nil)]. *)
Definition hmac (h : HashFunc) (key data : bytes) : bytes :=
  let k0 := if Nat.ltb (hash_BlockSize h) (length key) then hash_Sum h key else key in
  let k := k0 ++ repeat x00 (hash_BlockSize h - length k0) in
  let ipad := map (xor_byte x36) k in
  let opad := map (xor_byte x5c) k in
  hash_Sum h (opad ++ hash_Sum h (ipad ++ data)).

End HMAC.

(* ------------------------------------------------------------------ *)
(** ** The TLS 1.2 pseudo-random function and Finished verify data *)

Module PRF.

(** Modelled from the spec: [prf.go] of package [prf] is not among the
    sources (only its test is).  Section 4.3: "P_hash(secret, seed) =
    concatenation of HMAC chains A(i) || seed until enough bytes are
    produced, where A(0)=seed, A(i)=HMAC(secret, A(i-1))". *)
Fixpoint p_hash_chain (h : HashFunc) (secret seed : bytes) (iterations : nat)
    (lastRound : bytes) : bytes :=
  match iterations with
  | O => []
  | S k =>
      let a := HMAC.hmac h secret lastRound in
      HMAC.hmac h secret (a ++ seed) ++ p_hash_chain h secret seed k a
  end.

(** Modelled from the spec: the number of rounds is the least one that
    yields [requestedLength] bytes; the output is cut to that length. *)
Definition PHash (secret seed : bytes) (requestedLength : nat) (h : HashFunc) : bytes :=
  let iterations := Nat.div (requestedLength + hash_Size h - 1) (hash_Size h) in
  take requestedLength (p_hash_chain h secret seed iterations seed).

(** Modelled from the spec: "PRF = P_hash with SHA-256 (or the suite's
    hash)", applied to the label followed by the seed. *)
Definition PRF (h : HashFunc) (secret label seed : bytes) (n : nat) : bytes :=
  PHash secret (label ++ seed) n h.

Definition clientFinishedLabel : bytes :=
  Eval cbv in String.list_byte_of_string "client finished"%string.
Definition serverFinishedLabel : bytes :=
  Eval cbv in String.list_byte_of_string "server finished"%string.

Definition verifyDataLength : nat := 12.

(** Modelled from the spec: "verify_data_client = PRF(master, "client
    finished", hash(transcript))[:12]; verify_data_server uses "server
    finished"". *)
Definition verifyData (masterSecret handshakeBodies label : bytes) (hf : HashFunc)
    : result bytes :=
  Ok (take verifyDataLength
        (PRF hf masterSecret label (hash_Sum hf handshakeBodies) verifyDataLength)).

Definition VerifyDataClient (masterSecret handshakeBodies : bytes) (h : HashFunc)
    : result bytes :=
  verifyData masterSecret handshakeBodies clientFinishedLabel h.

Definition VerifyDataServer (masterSecret handshakeBodies : bytes) (h : HashFunc)
    : result bytes :=
  verifyData masterSecret handshakeBodies serverFinishedLabel h.

(** The inputs of [TestVerifyData]. *)
Module TestVerifyData.
Definition clientHello : bytes :=
  [
   x01; x00; x00; xa1; x03; x03; x00; x01; x02; x03; x04; x05; x06; x07; x08; x09;
   x0a; x0b; x0c; x0d; x0e; x0f; x10; x11; x12; x13; x14; x15; x16; x17; x18; x19;
   x1a; x1b; x1c; x1d; x1e; x1f; x00; x00; x20; xcc; xa8; xcc; xa9; xc0; x2f; xc0;
   x30; xc0; x2b; xc0; x2c; xc0; x13; xc0; x09; xc0; x14; xc0; x0a; x00; x9c; x00;
   x9d; x00; x2f; x00; x35; xc0; x12; x00; x0a; x01; x00; x00; x58; x00; x00; x00;
   x18; x00; x16; x00; x00; x13; x65; x78; x61; x6d; x70; x6c; x65; x2e; x75; x6c;
   x66; x68; x65; x69; x6d; x2e; x6e; x65; x74; x00; x05; x00; x05; x01; x00; x00;
   x00; x00; x00; x0a; x00; x0a; x00; x08; x00; x1d; x00; x17; x00; x18; x00; x19;
   x00; x0b; x00; x02; x01; x00; x00; x0d; x00; x12; x00; x10; x04; x01; x04; x03;
   x05; x01; x05; x03; x06; x01; x06; x03; x02; x01; x02; x03; xff; x01; x00; x01;
   x00; x00; x12; x00; x00 ].

Definition serverHello : bytes :=
  [
   x02; x00; x00; x2d; x03; x03; x70; x71; x72; x73; x74; x75; x76; x77; x78; x79;
   x7a; x7b; x7c; x7d; x7e; x7f; x80; x81; x82; x83; x84; x85; x86; x87; x88; x89;
   x8a; x8b; x8c; x8d; x8e; x8f; x00; xc0; x13; x00; x00; x05; xff; x01; x00; x01;
   x00 ].

Definition serverCertificate : bytes :=
  [
   x0b; x00; x03; x2b; x00; x03; x28; x00; x03; x25; x30; x82; x03; x21; x30; x82;
   x02; x09; xa0; x03; x02; x01; x02; x02; x08; x15; x5a; x92; xad; xc2; x04; x8f;
   x90; x30; x0d; x06; x09; x2a; x86; x48; x86; xf7; x0d; x01; x01; x0b; x05; x00;
   x30; x22; x31; x0b; x30; x09; x06; x03; x55; x04; x06; x13; x02; x55; x53; x31;
   x13; x30; x11; x06; x03; x55; x04; x0a; x13; x0a; x45; x78; x61; x6d; x70; x6c;
   x65; x20; x43; x41; x30; x1e; x17; x0d; x31; x38; x31; x30; x30; x35; x30; x31;
   x33; x38; x31; x37; x5a; x17; x0d; x31; x39; x31; x30; x30; x35; x30; x31; x33;
   x38; x31; x37; x5a; x30; x2b; x31; x0b; x30; x09; x06; x03; x55; x04; x06; x13;
   x02; x55; x53; x31; x1c; x30; x1a; x06; x03; x55; x04; x03; x13; x13; x65; x78;
   x61; x6d; x70; x6c; x65; x2e; x75; x6c; x66; x68; x65; x69; x6d; x2e; x6e; x65;
   x74; x30; x82; x01; x22; x30; x0d; x06; x09; x2a; x86; x48; x86; xf7; x0d; x01;
   x01; x01; x05; x00; x03; x82; x01; x0f; x00; x30; x82; x01; x0a; x02; x82; x01;
   x01; x00; xc4; x80; x36; x06; xba; xe7; x47; x6b; x08; x94; x04; xec; xa7; xb6;
   x91; x04; x3f; xf7; x92; xbc; x19; xee; xfb; x7d; x74; xd7; xa8; x0d; x00; x1e;
   x7b; x4b; x3a; x4a; xe6; x0f; xe8; xc0; x71; xfc; x73; xe7; x02; x4c; x0d; xbc;
   xf4; xbd; xd1; x1d; x39; x6b; xba; x70; x46; x4a; x13; xe9; x4a; xf8; x3d; xf3;
   xe1; x09; x59; x54; x7b; xc9; x55; xfb; x41; x2d; xa3; x76; x52; x11; xe1; xf3;
   xdc; x77; x6c; xaa; x53; x37; x6e; xca; x3a; xec; xbe; xc3; xaa; xb7; x3b; x31;
   xd5; x6c; xb6; x52; x9c; x80; x98; xbc; xc9; xe0; x28; x18; xe2; x0b; xf7; xf8;
   xa0; x3a; xfd; x17; x04; x50; x9e; xce; x79; xbd; x9f; x39; xf1; xea; x69; xec;
   x47; x97; x2e; x83; x0f; xb5; xca; x95; xde; x95; xa1; xe6; x04; x22; xd5; xee;
   xbe; x52; x79; x54; xa1; xe7; xbf; x8a; x86; xf6; x46; x6d; x0d; x9f; x16; x95;
   x1a; x4c; xf7; xa0; x46; x92; x59; x5c; x13; x52; xf2; x54; x9e; x5a; xfb; x4e;
   xbf; xd7; x7a; x37; x95; x01; x44; xe4; xc0; x26; x87; x4c; x65; x3e; x40; x7d;
   x7d; x23; x07; x44; x01; xf4; x84; xff; xd0; x8f; x7a; x1f; xa0; x52; x10; xd1;
   xf4; xf0; xd5; xce; x79; x70; x29; x32; xe2; xca; xbe; x70; x1f; xdf; xad; x6b;
   x4b; xb7; x11; x01; xf4; x4b; xad; x66; x6a; x11; x13; x0f; xe2; xee; x82; x9e;
   x4d; x02; x9d; xc9; x1c; xdd; x67; x16; xdb; xb9; x06; x18; x86; xed; xc1; xba;
   x94; x21; x02; x03; x01; x00; x01; xa3; x52; x30; x50; x30; x0e; x06; x03; x55;
   x1d; x0f; x01; x01; xff; x04; x04; x03; x02; x05; xa0; x30; x1d; x06; x03; x55;
   x1d; x25; x04; x16; x30; x14; x06; x08; x2b; x06; x01; x05; x05; x07; x03; x02;
   x06; x08; x2b; x06; x01; x05; x05; x07; x03; x01; x30; x1f; x06; x03; x55; x1d;
   x23; x04; x18; x30; x16; x80; x14; x89; x4f; xde; x5b; xcc; x69; xe2; x52; xcf;
   x3e; xa3; x00; xdf; xb1; x97; xb8; x1d; xe1; xc1; x46; x30; x0d; x06; x09; x2a;
   x86; x48; x86; xf7; x0d; x01; x01; x0b; x05; x00; x03; x82; x01; x01; x00; x59;
   x16; x45; xa6; x9a; x2e; x37; x79; xe4; xf6; xdd; x27; x1a; xba; x1c; x0b; xfd;
   x6c; xd7; x55; x99; xb5; xe7; xc3; x6e; x53; x3e; xff; x36; x59; x08; x43; x24;
   xc9; xe7; xa5; x04; x07; x9d; x39; xe0; xd4; x29; x87; xff; xe3; xeb; xdd; x09;
   xc1; xcf; x1d; x91; x44; x55; x87; x0b; x57; x1d; xd1; x9b; xdf; x1d; x24; xf8;
   xbb; x9a; x11; xfe; x80; xfd; x59; x2b; xa0; x39; x8c; xde; x11; xe2; x65; x1e;
   x61; x8c; xe5; x98; xfa; x96; xe5; x37; x2e; xef; x3d; x24; x8a; xfd; xe1; x74;
   x63; xeb; xbf; xab; xb8; xe4; xd1; xab; x50; x2a; x54; xec; x00; x64; xe9; x2f;
   x78; x19; x66; x0d; x3f; x27; xcf; x20; x9e; x66; x7f; xce; x5a; xe2; xe4; xac;
   x99; xc7; xc9; x38; x18; xf8; xb2; x51; x07; x22; xdf; xed; x97; xf3; x2e; x3e;
   x93; x49; xd4; xc6; x6c; x9e; xa6; x39; x6d; x74; x44; x62; xa0; x6b; x42; xc6;
   xd5; xba; x68; x8e; xac; x3a; x01; x7b; xdd; xfc; x8e; x2c; xfc; xad; x27; xcb;
   x69; xd3; xcc; xdc; xa2; x80; x41; x44; x65; xd3; xae; x34; x8c; xe0; xf3; x4a;
   xb2; xfb; x9c; x61; x83; x71; x31; x2b; x19; x10; x41; x64; x1c; x23; x7f; x11;
   xa5; xd6; x5c; x84; x4f; x04; x04; x84; x99; x38; x71; x2b; x95; x9e; xd6; x85;
   xbc; x5c; x5d; xd6; x45; xed; x19; x90; x94; x73; x40; x29; x26; xdc; xb4; x0e;
   x34; x69; xa1; x59; x41; xe8; xe2; xcc; xa8; x4b; xb6; x08; x46; x36; xa0 ].

Definition serverKeyExchange : bytes :=
  [
   x0c; x00; x01; x28; x03; x00; x1d; x20; x9f; xd7; xad; x6d; xcf; xf4; x29; x8d;
   xd3; xf9; x6d; x5b; x1b; x2a; xf9; x10; xa0; x53; x5b; x14; x88; xd7; xf8; xfa;
   xbb; x34; x9a; x98; x28; x80; xb6; x15; x04; x01; x01; x00; x04; x02; xb6; x61;
   xf7; xc1; x91; xee; x59; xbe; x45; x37; x66; x39; xbd; xc3; xd4; xbb; x81; xe1;
   x15; xca; x73; xc8; x34; x8b; x52; x5b; x0d; x23; x38; xaa; x14; x46; x67; xed;
   x94; x31; x02; x14; x12; xcd; x9b; x84; x4c; xba; x29; x93; x4a; xaa; xcc; xe8;
   x73; x41; x4e; xc1; x1c; xb0; x2e; x27; x2d; x0a; xd8; x1f; x76; x7d; x33; x07;
   x67; x21; xf1; x3b; xf3; x60; x20; xcf; x0b; x1f; xd0; xec; xb0; x78; xde; x11;
   x28; xbe; xba; x09; x49; xeb; xec; xe1; xa1; xf9; x6e; x20; x9d; xc3; x6e; x4f;
   xff; xd3; x6b; x67; x3a; x7d; xdc; x15; x97; xad; x44; x08; xe4; x85; xc4; xad;
   xb2; xc8; x73; x84; x12; x49; x37; x25; x23; x80; x9e; x43; x12; xd0; xc7; xb3;
   x52; x2e; xf9; x83; xca; xc1; xe0; x39; x35; xff; x13; xa8; xe9; x6b; xa6; x81;
   xa6; x2e; x40; xd3; xe7; x0a; x7f; xf3; x58; x66; xd3; xd9; x99; x3f; x9e; x26;
   xa6; x34; xc8; x1b; x4e; x71; x38; x0f; xcd; xd6; xf4; xe8; x35; xf7; x5a; x64;
   x09; xc7; xdc; x2c; x07; x41; x0e; x6f; x87; x85; x8c; x7b; x94; xc0; x1c; x2e;
   x32; xf2; x91; x76; x9e; xac; xca; x71; x64; x3b; x8b; x98; xa9; x63; xdf; x0a;
   x32; x9b; xea; x4e; xd6; x39; x7e; x8c; xd0; x1a; x11; x0a; xb3; x61; xac; x5b;
   xad; x1c; xcd; x84; x0a; x6c; x8a; x6e; xaa; x00; x1a; x9d; x7d; x87; xdc; x33;
   x18; x64; x35; x71; x22; x6c; x4d; xd2; xc2; xac; x41; xfb ].

Definition serverHelloDone : bytes :=
  [
   x0e; x00; x00; x00 ].

Definition clientKeyExchange : bytes :=
  [
   x10; x00; x00; x21; x20; x35; x80; x72; xd6; x36; x58; x80; xd1; xae; xea; x32;
   x9a; xdf; x91; x21; x38; x38; x51; xed; x21; xa2; x8e; x3b; x75; xe9; x65; xd0;
   xd2; xcd; x16; x62; x54 ].

Definition masterSecret : bytes :=
  [
   x91; x6a; xbf; x9d; xa5; x59; x73; xe1; x36; x14; xae; x0a; x3f; x5d; x3f; x37;
   xb0; x23; xba; x12; x9a; xee; x02; xcc; x91; x34; x33; x81; x27; xcd; x70; x49;
   x78; x1c; x8e; x19; xfc; x1e; xb2; xa7; x38; x7a; xc0; x6a; xe2; x37; x34; x4c ].

Definition expectedVerifyData : bytes :=
  [
   xcf; x91; x96; x26; xf1; x36; x0c; x53; x6a; xaa; xd7; x3a ].

Definition finalMsg : bytes :=
  clientHello ++ serverHello ++ serverCertificate ++ serverKeyExchange
    ++ serverHelloDone ++ clientKeyExchange.
End TestVerifyData.

End PRF.

(* ------------------------------------------------------------------ *)
(** ** Package [protocol] *)

Module protocol.

Record Version := mkVersion { Major : byte; Minor : byte }.

Definition Version1_2 : Version := mkVersion xfe xfd.

(** Modelled from the spec: the content type codes.  The spec gives
    [tls12_cid (25)]; the other codes are those of the record layer of
    RFC 5246, which the spec follows for the wire format. *)
Definition ContentTypeChangeCipherSpec : byte := x14.
Definition ContentTypeAlert : byte := x15.
Definition ContentTypeHandshake : byte := x16.
Definition ContentTypeApplicationData : byte := x17.
Definition ContentTypeConnectionID : byte := x19.

Record CompressionMethod := mkCompressionMethod { ID : byte }.

(** Modelled from the spec: the table of known compression methods holds
    the null method only ([defaultCompressionMethods] in
    [compression_method.go] is the one-element list of the zero value). *)
Definition CompressionMethods (id : byte) : option CompressionMethod :=
  if bool_decide (id = x00) then Some (mkCompressionMethod x00) else None.

End protocol.

(* ------------------------------------------------------------------ *)
(** ** Package [recordlayer]: the record header *)

Module recordlayer.
Import protocol.
Local Open Scope Z_scope.

Record Header := mkHeader {
  ContentType : byte;
  ContentLen : Z;          (* uint16 *)
  Version : protocol.Version;
  Epoch : Z;               (* uint16 *)
  SequenceNumber : Z;      (* uint64, 48 bits on the wire *)
  ConnectionID : bytes
}.

Definition zeroHeader : Header :=
  mkHeader x00 0 (mkVersion x00 x00) 0 0 [].

(** Modelled from the spec: [header.go], which declares the constants and
    the codec of the header, is not among the sources.  Section 4.1:
    "content_type (1) | version (2) | epoch (2) | sequence_number (6) |
    length (2)", 13 bytes in all. *)
Definition FixedHeaderSize : Z := 13.

(** Modelled from the spec: the largest sequence number, that is the
    largest number the 6 bytes of the header hold (section 4.1); the
    connection also hands it to the replay detector as its maximum. *)
Definition MaxSequenceNumber : Z := 0x0000FFFFFFFFFFFF.

Definition isCID (h : Header) : bool :=
  bool_decide (ContentType h = ContentTypeConnectionID).

(** Modelled from the spec: the size of the header on the wire.  Section
    4.1: "When content_type == tls12_cid (25) a variable-length CID is
    spliced between sequence_number and length". *)
Definition Header_Size (h : Header) : Z :=
  FixedHeaderSize + (if isCID h then len (ConnectionID h) else 0).

(** Modelled from the spec: the encoder of the header, in the order of the
    fields of section 4.1. *)
Definition Header_Marshal (h : Header) : result bytes :=
  Ok ([ContentType h] ++ [Major (Version h); Minor (Version h)]
        ++ PutUint16 (Epoch h) ++ PutUint48 (SequenceNumber h)
        ++ (if isCID h then ConnectionID h else [])
        ++ PutUint16 (ContentLen h)).

(** Modelled from the spec: the decoder of the header; "decoders are
    therefore parameterized by the local CID length", which the caller sets
    by sizing [ConnectionID] before the call. *)
Definition Header_Unmarshal (h : Header) (data : bytes) : result Header :=
  if len data <? FixedHeaderSize then Err recordlayer_errBufferTooSmall else
  match data with
  | ct :: major :: minor :: rest =>
      let cidLen := if bool_decide (ct = ContentTypeConnectionID)
                    then length (ConnectionID h) else O in
      if len data <? FixedHeaderSize + Z.of_nat cidLen
      then Err recordlayer_errBufferTooSmall
      else
        Ok (mkHeader ct
              (Uint16 (drop (8 + cidLen) rest))
              (mkVersion major minor)
              (Uint16 rest)
              (Uint48 (drop 2 rest))
              (if bool_decide (ct = ContentTypeConnectionID)
               then take cidLen (drop 8 rest) else ConnectionID h))
  | _ => Err recordlayer_errBufferTooSmall
  end.

(** Modelled from the spec: the inner plaintext of a CID record, "content ||
    real_type || zero-padding". *)
Record InnerPlaintext := mkInnerPlaintext {
  Content : bytes;
  RealType : byte;
  Zeros : Z
}.

Definition InnerPlaintext_Marshal (p : InnerPlaintext) : result bytes :=
  Ok (Content p ++ [RealType p] ++ repeat x00 (Z.to_nat (Zeros p))).

Fixpoint strip_zeros (rev_data : bytes) : bytes :=
  match rev_data with
  | b :: rest => if bool_decide (b = x00) then strip_zeros rest else rev_data
  | [] => []
  end.

Definition InnerPlaintext_Unmarshal (data : bytes) : result InnerPlaintext :=
  match strip_zeros (rev data) with
  | t :: rev_content =>
      Ok (mkInnerPlaintext (rev rev_content) t
            (len data - len rev_content - 1))
  | [] => Err recordlayer_errBufferTooSmall
  end.

End recordlayer.

(* ------------------------------------------------------------------ *)
(** ** Package [ciphersuite]: AES-GCM record protection *)

Module ciphersuite.
Import protocol recordlayer.
Local Open Scope Z_scope.

(** [cipher.AEAD] of the Go standard library: [Seal(nil, nonce, plaintext,
    additionalData)] and [Open(dst, nonce, ciphertext, additionalData)]. *)
Record AEAD := mkAEAD {
  Seal : bytes -> bytes -> bytes -> bytes;
  Open : bytes -> bytes -> bytes -> result bytes
}.

Definition gcmTagLength : Z := 16.
Definition gcmNonceLength : Z := 12.

Record GCM := mkGCM {
  localGCM : AEAD;
  remoteGCM : AEAD;
  localWriteIV : bytes;
  remoteWriteIV : bytes
}.

(** Modelled from the spec: the additional data of a classical record,
    "seq_num_64 || content_type || version || length", the 64-bit number being
    the epoch followed by the 48-bit sequence number. *)
Definition generateAEADAdditionalData (h : Header) (payloadLen : Z) : bytes :=
  PutUint16 (Epoch h) ++ PutUint48 (SequenceNumber h)
    ++ [ContentType h] ++ [Major (Version h); Minor (Version h)]
    ++ PutUint16 (uint16 payloadLen).

(** Modelled from the spec: the additional data of a CID record,
    "seq_placeholder || content_type_cid || cid_len || cid || version ||
    epoch_seq || real_length". *)
Definition generateAEADAdditionalDataCID (h : Header) (payloadLen : Z) : bytes :=
  repeat xff 8 ++ [ContentTypeConnectionID]
    ++ [byte_of_Z (len (ConnectionID h))] ++ ConnectionID h
    ++ [Major (Version h); Minor (Version h)]
    ++ PutUint16 (Epoch h) ++ PutUint48 (SequenceNumber h)
    ++ PutUint16 (uint16 payloadLen).

Definition additionalData (h : Header) (payloadLen : Z) : bytes :=
  if isCID h then generateAEADAdditionalDataCID h payloadLen
  else generateAEADAdditionalData h payloadLen.

(** [GCM.Encrypt].  [rnd] is the outcome of [rand.Read(nonce[4:])]: the
    eight bytes of the explicit nonce, or an error.  Only the header of
    [pkt] is read, so the model takes the header. *)
Definition Encrypt (g : GCM) (pktHeader : Header) (raw : bytes)
    (rnd : result bytes) : result bytes :=
  let size := Header_Size pktHeader in
  if len raw <? size then Err runtimePanic else
  let payload := slice_from size raw in
  let raw := slice_to size raw in
  if len (localWriteIV g) <? 4 then Err runtimePanic else
  match rnd with
  | Err e => Err e
  | Ok explicitNonce =>
      let nonce := take 4 (localWriteIV g) ++ explicitNonce in
      let additionalData := additionalData pktHeader (len payload) in
      let encryptedPayload := Seal (localGCM g) nonce payload additionalData in
      let r := raw ++ drop 4 nonce ++ encryptedPayload in
      (* Update recordLayer size to include explicit nonce *)
      Ok (overwrite (size - 2) (PutUint16 (uint16 (len r - size))) r)
  end.

(** [GCM.Decrypt]. *)
Definition Decrypt (g : GCM) (h : Header) (in_ : bytes) : result bytes :=
  match Header_Unmarshal h in_ with
  | Err e => Err e
  | Ok h =>
      if bool_decide (ContentType h = ContentTypeChangeCipherSpec) then
        (* Nothing to encrypt with ChangeCipherSpec *)
        Ok in_
      else if len in_ <=? 8 + Header_Size h then Err errNotEnoughRoomForNonce
      else if len (remoteWriteIV g) <? 4 then Err runtimePanic
      else
        let size := Header_Size h in
        let nonce := take 4 (remoteWriteIV g)
                       ++ slice_to 8 (slice_from size in_) in
        let out := slice_from (size + 8) in_ in
        let additionalData := additionalData h (len out - gcmTagLength) in
        match Open (remoteGCM g) nonce out additionalData with
        | Err err => Err (errDecryptPacket err)
        | Ok out => Ok (slice_to size in_ ++ out)
        end
  end.

End ciphersuite.

(* ------------------------------------------------------------------ *)
(** ** Package [extension] *)

Module extension.

(** The hello extensions and their codec ([extension.Marshal],
    [extension.Unmarshal]).  The package is not among the sources and the
    specification does not give the wire format of extensions, so the codec
    is a parameter of the ServerHello model. *)
Class Codec := {
  Extension : Type;
  Marshal : list Extension -> result bytes;
  Unmarshal : bytes -> result (list Extension)
}.

End extension.

(* ------------------------------------------------------------------ *)
(** ** Package [handshake]: ServerHello and Finished *)

Module handshake.
Local Open Scope Z_scope.

Definition RandomBytesLength : Z := 28.
Definition RandomLength : Z := RandomBytesLength + 4.

(** [Random]: [GMTUnixTime] is a [time.Time], kept as its Unix seconds;
    [RandomBytes] is a [[28]byte]. *)
Record Random := mkRandom { GMTUnixTime : Z; RandomBytes : bytes }.

(** A byte string as an array of [n] bytes: cut or zero-filled. *)
Definition fixed (n : nat) (b : bytes) : bytes := take n (b ++ repeat x00 n).

(** Modelled from the spec: [random.go] is not among the sources.  Section
    3: "32 bytes (4-byte GMT seconds || 28 random)". *)
Definition Random_MarshalFixed (r : Random) : bytes :=
  PutUint32 (uint32 (GMTUnixTime r)) ++ fixed 28 (RandomBytes r).

Definition Random_UnmarshalFixed (b : bytes) : Random :=
  mkRandom (Uint32 b) (fixed 28 (drop 4 b)).

Section ServerHello.
Context {codec : extension.Codec}.

Record MessageServerHello := mkMessageServerHello {
  Version : protocol.Version;
  Random_ : Random;
  SessionID : bytes;
  CipherSuiteID : option Z;                                  (* *uint16 *)
  CompressionMethod : option protocol.CompressionMethod;
  Extensions : list extension.Extension
}.

(** [&MessageServerHello{}]. *)
Definition emptyMessageServerHello : MessageServerHello :=
  mkMessageServerHello (protocol.mkVersion x00 x00) (mkRandom 0 (repeat x00 28))
    [] None None [].

Definition messageServerHelloVariableWidthStart : Z := 2 + RandomLength.

(** [MessageServerHello.Marshal]. *)
Definition MessageServerHello_Marshal (m : MessageServerHello) : result bytes :=
  match CipherSuiteID m, CompressionMethod m with
  | None, _ => Err errCipherSuiteUnset
  | Some _, None => Err errCompressionMethodUnset
  | Some cipherSuiteID, Some compressionMethod =>
      let out := [protocol.Major (Version m); protocol.Minor (Version m)]
                   ++ Random_MarshalFixed (Random_ m) in
      let out := out ++ [byte_of_Z (len (SessionID m))] in
      let out := out ++ SessionID m in
      let out := out ++ PutUint16 cipherSuiteID in
      let out := out ++ [protocol.ID compressionMethod] in
      match extension.Marshal (Extensions m) with
      | Err err => Err err
      | Ok extensions => Ok (out ++ extensions)
      end
  end.

(** [data[i]] for an index in range. *)
Definition at_ (data : bytes) (i : Z) : byte := nth (Z.to_nat i) data x00.

(** [data[i:j]] for indices in range. *)
Definition slice (data : bytes) (i j : Z) : bytes :=
  take (Z.to_nat (j - i)) (drop (Z.to_nat i) data).

Definition setVersion (m : MessageServerHello) (v : protocol.Version) :=
  mkMessageServerHello v (Random_ m) (SessionID m) (CipherSuiteID m)
    (CompressionMethod m) (Extensions m).
Definition setRandom (m : MessageServerHello) (r : Random) :=
  mkMessageServerHello (Version m) r (SessionID m) (CipherSuiteID m)
    (CompressionMethod m) (Extensions m).
Definition setSessionID (m : MessageServerHello) (s : bytes) :=
  mkMessageServerHello (Version m) (Random_ m) s (CipherSuiteID m)
    (CompressionMethod m) (Extensions m).
Definition setCipherSuiteID (m : MessageServerHello) (c : Z) :=
  mkMessageServerHello (Version m) (Random_ m) (SessionID m) (Some c)
    (CompressionMethod m) (Extensions m).
Definition setCompressionMethod (m : MessageServerHello) (c : protocol.CompressionMethod) :=
  mkMessageServerHello (Version m) (Random_ m) (SessionID m) (CipherSuiteID m)
    (Some c) (Extensions m).
Definition setExtensions (m : MessageServerHello) (e : list extension.Extension) :=
  mkMessageServerHello (Version m) (Random_ m) (SessionID m) (CipherSuiteID m)
    (CompressionMethod m) e.

(** [MessageServerHello.Unmarshal]: the message as the call leaves it, and
    the error returned, if any. *)
Definition MessageServerHello_Unmarshal (m : MessageServerHello) (data : bytes)
    : MessageServerHello * option error :=
  if len data <? 2 + RandomLength then (m, Some handshake_errBufferTooSmall) else
  let m := setVersion m (protocol.mkVersion (at_ data 0) (at_ data 1)) in
  let random := fixed (Z.to_nat RandomLength) (slice_from 2 data) in
  let m := setRandom m (Random_UnmarshalFixed random) in
  let currOffset := messageServerHelloVariableWidthStart in
  let currOffset := currOffset + 1 in
  if len data <=? currOffset then (m, Some handshake_errBufferTooSmall) else
  let n := byte_to_Z (at_ data (currOffset - 1)) in
  if len data <=? currOffset + n then (m, Some handshake_errBufferTooSmall) else
  let m := setSessionID m (slice data currOffset (currOffset + n)) in
  let currOffset := currOffset + len (SessionID m) in
  if len data <? currOffset + 2 then (m, Some handshake_errBufferTooSmall) else
  let m := setCipherSuiteID m (Uint16 (slice_from currOffset data)) in
  let currOffset := currOffset + 2 in
  if len data <=? currOffset then (m, Some handshake_errBufferTooSmall) else
  match protocol.CompressionMethods (at_ data currOffset) with
  | None => (m, Some errInvalidCompressionMethod)
  | Some compressionMethod =>
      let m := setCompressionMethod m compressionMethod in
      let currOffset := currOffset + 1 in
      if len data <=? currOffset then (setExtensions m [], None) else
      match extension.Unmarshal (slice_from currOffset data) with
      | Err err => (m, Some err)
      | Ok extensions => (setExtensions m extensions, None)
      end
  end.

(** Where the extensions block of an encoding starts: after version,
    random, session ID, cipher suite and compression method. *)
Definition extensionsOffset (data : bytes) : Z :=
  messageServerHelloVariableWidthStart + 1
    + byte_to_Z (at_ data messageServerHelloVariableWidthStart) + 2 + 1.

(** The fields of a ServerHello encoding, in order. *)
Definition encoding (major minor : byte) (random : bytes) (sidLen : byte)
    (sid cipher : bytes) (compression : byte) (extensions : bytes) : bytes :=
  [major; minor] ++ random ++ [sidLen] ++ sid ++ cipher ++ [compression] ++ extensions.

(** The message [TestHandshakeMessageServerHello] expects. *)
Definition parsedServerHello : MessageServerHello :=
  mkMessageServerHello (protocol.mkVersion xfe xfd)
    (mkRandom 560149025
       [ x81; x0e; x98; x6c; x85; x3d; xa4; x39; xaf; x5f; xd6; x5c; xcc; x20;
         x7f; x7c; x78; xf1; x5f; x7e; x1c; xb7; xa1; x1e; xcf; x63; x84; x28 ])
    [] (Some 0xc02b) (Some (protocol.mkCompressionMethod x00)) [].

End ServerHello.

(** [MessageFinished] of [message_finished.go]. *)
Record MessageFinished := mkMessageFinished { VerifyData : bytes }.

Definition MessageFinished_Marshal (m : MessageFinished) : result bytes :=
  Ok ([] ++ VerifyData m).

Definition MessageFinished_Unmarshal (m : MessageFinished) (data : bytes)
    : MessageFinished * option error :=
  (mkMessageFinished ([] ++ data), None).

(** [handshake.Header] and [handshake.Handshake].  A [Message] is an
    interface value; the connection only marshals it. *)
Record Header := mkHeader {
  Type_ : byte;
  Length : Z;              (* uint24 *)
  MessageSequence : Z;     (* uint16 *)
  FragmentOffset : Z;      (* uint24 *)
  FragmentLength : Z       (* uint24 *)
}.

Record Message := mkMessage { Message_Marshal : result bytes }.

Record Handshake := mkHandshake { Header_ : Header; Message_ : Message }.

(** The raw bytes of [TestHandshakeMessageServerHello]. *)
Definition rawServerHello : bytes :=
  [ xfe; xfd; x21; x63; x32; x21; x81; x0e; x98; x6c;
    x85; x3d; xa4; x39; xaf; x5f; xd6; x5c; xcc; x20;
    x7f; x7c; x78; xf1; x5f; x7e; x1c; xb7; xa1; x1e;
    xcf; x63; x84; x28; x00; xc0; x2b; x00; x00; x00 ].

End handshake.

(* ------------------------------------------------------------------ *)
(** ** Package [alert] *)

Module alert.
Local Open Scope Z_scope.

(** Modelled from the spec: the alert levels and the descriptions the
    connection core names, with the codes of RFC 5246 section 7.2. *)
Definition Warning : Z := 1.
Definition Fatal : Z := 2.
Definition CloseNotify : Z := 0.
Definition UnexpectedMessage : Z := 10.
Definition DecodeError : Z := 50.

End alert.

(* ------------------------------------------------------------------ *)
(** ** Package [dtls]: the connection *)

Module dtls.
Import protocol recordlayer.
Local Open Scope Z_scope.

(** [protocol.Content]: the record contents the connection tells apart. *)
Inductive Content : Type :=
| ContentAlert (a : Alert)
| ContentChangeCipherSpec
| ContentApplicationData (Data : bytes)
| ContentHandshake (h : handshake.Handshake).

Definition Content_ContentType (content : Content) : byte :=
  match content with
  | ContentAlert _ => ContentTypeAlert
  | ContentChangeCipherSpec => ContentTypeChangeCipherSpec
  | ContentApplicationData _ => ContentTypeApplicationData
  | ContentHandshake _ => ContentTypeHandshake
  end.

(** [recordlayer.RecordLayer]. *)
Record RecordLayer := mkRecordLayer {
  Header_ : Header;
  Content_ : Content
}.

(** [packet] of [packet.go]. *)
Record packet := mkPacket {
  record : RecordLayer;
  shouldEncrypt : bool;
  shouldWrapCID : bool;
  resetLocalSequenceNumber : bool
}.

(** The [CipherSuite] interface, as far as the connection calls it. *)
Record CipherSuite := mkCipherSuite {
  IsInitialized : bool;
  Encrypt : RecordLayer -> bytes -> result bytes;
  Decrypt : Header -> bytes -> result bytes
}.

(** The AES-GCM suite once its keys are installed; [rnd] is what
    [rand.Read] yields when [Encrypt] draws the explicit nonce. *)
Definition gcmCipherSuite (g : ciphersuite.GCM) (rnd : result bytes) : CipherSuite :=
  mkCipherSuite true
    (fun pkt raw => ciphersuite.Encrypt g (Header_ pkt) raw rnd)
    (ciphersuite.Decrypt g).

(** What the connection uses and does not define: the datagram socket, the
    replay detector of [pion/transport], and the parts of the package whose
    sources are not available (fragment buffer, handshake cache, content and
    handshake header codecs, [splitBytes]). *)
Class Platform := {
  Addr : Type;
  Addr_eqb : Addr -> Addr -> bool;
  PacketConn : Type;
  WriteToContext : PacketConn -> bytes -> Addr -> PacketConn * option error;
  ReplayDetector : Type;
  replaydetector_New : Z -> Z -> ReplayDetector;
  (** [Check(seq)]: whether the number is acceptable. *)
  replaydetector_Check : ReplayDetector -> Z -> bool;
  (** The function [Check] returns, called: the detector marks the number
      and tells whether it is the latest seen. *)
  replaydetector_accept : ReplayDetector -> Z -> ReplayDetector * bool;
  fragmentBufferT : Type;
  fragmentBuffer_push : fragmentBufferT -> bytes -> fragmentBufferT * result bool;
  (** The messages the loop "pop until nil" yields, each with its epoch. *)
  fragmentBuffer_popAll : fragmentBufferT -> fragmentBufferT * list (bytes * Z);
  handshakeCacheT : Type;
  handshakeCache_push :
    handshakeCacheT -> bytes -> Z -> Z -> byte -> bool -> handshakeCacheT;
  Content_Marshal : Content -> result bytes;
  RecordLayer_Unmarshal : bytes -> result RecordLayer;
  handshakeHeader_Marshal : handshake.Header -> result bytes;
  handshakeHeader_Unmarshal : bytes -> result handshake.Header;
  splitBytes : bytes -> Z -> list bytes
}.

Section Connection.
Context {platform : Platform}.

Definition maxAppDataPacketQueueSize : Z := 100.

Record addrPkt := mkAddrPkt { pkt_rAddr : Addr; pkt_data : bytes }.

(** What travels on the [decrypted] channel: application data or an error. *)
Inductive chanItem : Type :=
| ItemBytes (val : bytes)
| ItemError (e : error).

(** The [decrypted] channel: the values sent and not yet received, oldest
    first (the one the buffer holds and those of blocked senders), and
    whether the channel has been closed. *)
Record chan := mkChan { chan_items : list chanItem; chan_closed : bool }.

(** The fields of [State] the connection code reads and writes. *)
Record State := mkState {
  localEpoch : Z;                     (* uint16 *)
  remoteEpoch : Z;                    (* uint16 *)
  localSequenceNumber : list Z;       (* uint64 per epoch *)
  cipherSuite : option CipherSuite;
  isClient : bool;
  localConnectionID : bytes;
  remoteConnectionID : bytes;
  replayDetector : list ReplayDetector;
  SessionID : bytes
}.

(** [Conn].  A deadline or the closer is the flag "its [Done()] channel is
    closed". *)
Record Conn := mkConn {
  nextConn : PacketConn;
  fragmentBuffer : fragmentBufferT;
  handshakeCache : handshakeCacheT;
  decrypted : chan;
  rAddr : Addr;
  state : State;
  maximumTransmissionUnit : Z;
  paddingLengthGenerator : Z -> Z;
  handshakeCompletedSuccessfully : bool;
  encryptedPackets : list addrPkt;
  closed : bool;
  readDeadline : bool;
  writeDeadline : bool;
  replayProtectionWindow : Z
}.

(** *** Field updates *)

Definition set_localSequenceNumber (s : State) (l : list Z) : State :=
  mkState (localEpoch s) (remoteEpoch s) l (cipherSuite s) (isClient s)
    (localConnectionID s) (remoteConnectionID s) (replayDetector s) (SessionID s).
Definition set_replayDetector (s : State) (l : list ReplayDetector) : State :=
  mkState (localEpoch s) (remoteEpoch s) (localSequenceNumber s) (cipherSuite s)
    (isClient s) (localConnectionID s) (remoteConnectionID s) l (SessionID s).
Definition set_remoteEpoch (s : State) (e : Z) : State :=
  mkState (localEpoch s) e (localSequenceNumber s) (cipherSuite s) (isClient s)
    (localConnectionID s) (remoteConnectionID s) (replayDetector s) (SessionID s).

Definition set_state (c : Conn) (s : State) : Conn :=
  mkConn (nextConn c) (fragmentBuffer c) (handshakeCache c) (decrypted c) (rAddr c)
    s (maximumTransmissionUnit c) (paddingLengthGenerator c)
    (handshakeCompletedSuccessfully c) (encryptedPackets c) (closed c)
    (readDeadline c) (writeDeadline c) (replayProtectionWindow c).
Definition set_nextConn (c : Conn) (n : PacketConn) : Conn :=
  mkConn n (fragmentBuffer c) (handshakeCache c) (decrypted c) (rAddr c)
    (state c) (maximumTransmissionUnit c) (paddingLengthGenerator c)
    (handshakeCompletedSuccessfully c) (encryptedPackets c) (closed c)
    (readDeadline c) (writeDeadline c) (replayProtectionWindow c).
Definition set_fragmentBuffer (c : Conn) (f : fragmentBufferT) : Conn :=
  mkConn (nextConn c) f (handshakeCache c) (decrypted c) (rAddr c)
    (state c) (maximumTransmissionUnit c) (paddingLengthGenerator c)
    (handshakeCompletedSuccessfully c) (encryptedPackets c) (closed c)
    (readDeadline c) (writeDeadline c) (replayProtectionWindow c).
Definition set_handshakeCache (c : Conn) (h : handshakeCacheT) : Conn :=
  mkConn (nextConn c) (fragmentBuffer c) h (decrypted c) (rAddr c)
    (state c) (maximumTransmissionUnit c) (paddingLengthGenerator c)
    (handshakeCompletedSuccessfully c) (encryptedPackets c) (closed c)
    (readDeadline c) (writeDeadline c) (replayProtectionWindow c).
Definition set_decrypted (c : Conn) (d : chan) : Conn :=
  mkConn (nextConn c) (fragmentBuffer c) (handshakeCache c) d (rAddr c)
    (state c) (maximumTransmissionUnit c) (paddingLengthGenerator c)
    (handshakeCompletedSuccessfully c) (encryptedPackets c) (closed c)
    (readDeadline c) (writeDeadline c) (replayProtectionWindow c).
Definition set_rAddr (c : Conn) (a : Addr) : Conn :=
  mkConn (nextConn c) (fragmentBuffer c) (handshakeCache c) (decrypted c) a
    (state c) (maximumTransmissionUnit c) (paddingLengthGenerator c)
    (handshakeCompletedSuccessfully c) (encryptedPackets c) (closed c)
    (readDeadline c) (writeDeadline c) (replayProtectionWindow c).
Definition set_encryptedPackets (c : Conn) (q : list addrPkt) : Conn :=
  mkConn (nextConn c) (fragmentBuffer c) (handshakeCache c) (decrypted c) (rAddr c)
    (state c) (maximumTransmissionUnit c) (paddingLengthGenerator c)
    (handshakeCompletedSuccessfully c) q (closed c)
    (readDeadline c) (writeDeadline c) (replayProtectionWindow c).
Definition set_handshakeCompletedSuccessfully (c : Conn) (b : bool) : Conn :=
  mkConn (nextConn c) (fragmentBuffer c) (handshakeCache c) (decrypted c) (rAddr c)
    (state c) (maximumTransmissionUnit c) (paddingLengthGenerator c)
    b (encryptedPackets c) (closed c)
    (readDeadline c) (writeDeadline c) (replayProtectionWindow c).

Definition set_Header (p : packet) (h : Header) : packet :=
  mkPacket (mkRecordLayer h (Content_ (record p)))
    (shouldEncrypt p) (shouldWrapCID p) (resetLocalSequenceNumber p).
Definition set_SequenceNumber (h : Header) (seq : Z) : Header :=
  mkHeader (ContentType h) (ContentLen h) (recordlayer.Version h) (Epoch h) seq
    (ConnectionID h).

(** [setHandshakeCompletedSuccessfully], [isHandshakeCompletedSuccessfully],
    [isConnectionClosed]. *)
Definition setHandshakeCompletedSuccessfully (c : Conn) : Conn :=
  set_handshakeCompletedSuccessfully c true.
Definition isHandshakeCompletedSuccessfully (c : Conn) : bool :=
  handshakeCompletedSuccessfully c.
Definition isConnectionClosed (c : Conn) : bool := closed c.

(** *** [Conn.Read] *)

(** What a call to [Read] comes to: it returns [(n, err)] having written
    the buffer, or it blocks on the empty channel. *)
Inductive ReadOutcome : Type :=
| Returned (p : bytes) (n : Z) (err : option error)
| Blocked.

(** The connection once a value has been received from the channel. *)
Definition received (c : Conn) (rest : list chanItem) : Conn :=
  set_decrypted c (mkChan rest (chan_closed (decrypted c))).

Definition Read (c : Conn) (p : bytes) : Conn * ReadOutcome :=
  if negb (isHandshakeCompletedSuccessfully c) then
    (c, Returned p 0 (Some errHandshakeInProgress))
  else if readDeadline c then
    (c, Returned p 0 (Some errDeadlineExceeded))
  else
    match chan_items (decrypted c) with
    | [] =>
        if chan_closed (decrypted c) then (c, Returned p 0 (Some io_EOF))
        else (c, Blocked)
    | out :: rest =>
        let c := received c rest in
        match out with
        | ItemBytes val =>
            if len p <? len val then (c, Returned p 0 (Some errBufferTooSmall))
            else (c, Returned (copy p val) (len val) None)
        | ItemError val => (c, Returned p 0 (Some val))
        end
    end.

(** *** Sending: sequence numbers, record assembly, coalescing *)

(** [for len(c.state.localSequenceNumber) <= int(epoch)] append a zero. *)
Definition growSequenceNumbers (l : list Z) (epoch : Z) : list Z :=
  l ++ repeat 0 (Z.to_nat (epoch + 1) - length l).

(** [atomic.AddUint64(&c.state.localSequenceNumber[epoch], 1) - 1] after
    the list has been grown: the new state and the number drawn. *)
Definition nextSequenceNumber (s : State) (epoch : Z) : State * Z :=
  let l := growSequenceNumbers (localSequenceNumber s) epoch in
  let i := Z.to_nat epoch in
  let new := uint64 (l !!! i + 1) in
  (set_localSequenceNumber s (<[i := new]> l), uint64 (new - 1)).

(** Modelled from the spec: [RecordLayer.Marshal] is not among the sources.
    Section 4.1: "marshal(header, payload) -> bytes: produces a contiguous
    datagram"; the call populates the content type and length of the header
    ("Record must be marshaled to populate fields used in inner plaintext",
    [processPacket]). *)
Definition RecordLayer_Marshal (r : RecordLayer) : RecordLayer * result bytes :=
  match Content_Marshal (Content_ r) with
  | Err e => (r, Err e)
  | Ok contentRaw =>
      let h := Header_ r in
      let h := mkHeader (Content_ContentType (Content_ r)) (uint16 (len contentRaw))
                 (recordlayer.Version h) (Epoch h) (SequenceNumber h)
                 (ConnectionID h) in
      let r := mkRecordLayer h (Content_ r) in
      match Header_Marshal h with
      | Err e => (r, Err e)
      | Ok headerRaw => (r, Ok (headerRaw ++ contentRaw))
      end
  end.

(** The protection step shared by both send paths. *)
Definition encryptIfNeeded (c : Conn) (p : packet) (rawPacket : bytes)
    : result bytes :=
  if shouldEncrypt p then
    match cipherSuite (state c) with
    | None => Err runtimePanic
    | Some cs => Encrypt cs (record p) rawPacket
    end
  else Ok rawPacket.

(** [Conn.processPacket]: the connection and the packet as the call leaves
    them, and the raw record or the error. *)
Definition processPacket (c : Conn) (p : packet) : Conn * packet * result bytes :=
  let epoch := Epoch (Header_ (record p)) in
  let '(st, seq) := nextSequenceNumber (state c) epoch in
  let c := set_state c st in
  if MaxSequenceNumber <? seq then
    (* RFC 6347 Section 4.1.0: abandon or rehandshake before the number wraps *)
    (c, p, Err errSequenceNumberOverflow)
  else
    let p := set_Header p (set_SequenceNumber (Header_ (record p)) seq) in
    let '(p, rawPacket) :=
      if shouldWrapCID p then
        let '(r, marshaled) := RecordLayer_Marshal (record p) in
        let p := mkPacket r (shouldEncrypt p) (shouldWrapCID p)
                   (resetLocalSequenceNumber p) in
        match marshaled with
        | Err e => (p, Err e)
        | Ok _ =>
            match Content_Marshal (Content_ (record p)) with
            | Err e => (p, Err e)
            | Ok content =>
                let inner := mkInnerPlaintext content
                               (ContentType (Header_ (record p))) 0 in
                match InnerPlaintext_Marshal inner with
                | Err e => (p, Err e)
                | Ok rawInner =>
                    let cidHeader :=
                      mkHeader ContentTypeConnectionID (uint16 (len rawInner))
                        (recordlayer.Version (Header_ (record p)))
                        (Epoch (Header_ (record p)))
                        (SequenceNumber (Header_ (record p)))
                        (remoteConnectionID (state c)) in
                    match Header_Marshal cidHeader with
                    | Err e => (p, Err e)
                    | Ok rawPacket =>
                        (set_Header p cidHeader, Ok (rawPacket ++ rawInner))
                    end
                end
            end
        end
      else
        let '(r, marshaled) := RecordLayer_Marshal (record p) in
        (mkPacket r (shouldEncrypt p) (shouldWrapCID p)
           (resetLocalSequenceNumber p), marshaled) in
    match rawPacket with
    | Err e => (c, p, Err e)
    | Ok rawPacket => (c, p, encryptIfNeeded c p rawPacket)
    end.

(** [Conn.fragmentHandshake]. *)
Fixpoint fragmentHeaders (h : handshake.Handshake) (contentFragments : list bytes)
    (offset : Z) : result (list bytes) :=
  match contentFragments with
  | [] => Ok []
  | contentFragment :: rest =>
      let contentFragmentLen := len contentFragment in
      let headerFragment :=
        handshake.mkHeader (handshake.Type_ (handshake.Header_ h))
          (handshake.Length (handshake.Header_ h))
          (handshake.MessageSequence (handshake.Header_ h))
          (uint32 offset) (uint32 contentFragmentLen) in
      let offset := offset + contentFragmentLen in
      fragmentedHandshake ← handshakeHeader_Marshal headerFragment;
      others ← fragmentHeaders h rest offset;
      Ok ((fragmentedHandshake ++ contentFragment) :: others)
  end.

Definition fragmentHandshake (c : Conn) (h : handshake.Handshake)
    : result (list bytes) :=
  content ← handshake.Message_Marshal (handshake.Message_ h);
  let contentFragments := splitBytes content (maximumTransmissionUnit c) in
  let contentFragments :=
    if len contentFragments =? 0 then [[]] else contentFragments in
  fragmentHeaders h contentFragments 0.

(** One turn of the loop of [Conn.processHandshakePacket] over the
    fragments; [epoch] is the epoch read before the loop. *)
Definition processHandshakeFragment (c : Conn) (p : packet) (epoch : Z)
    (handshakeFragment : bytes) : Conn * packet * result bytes :=
  let '(st, seq) := nextSequenceNumber (state c) epoch in
  let c := set_state c st in
  if MaxSequenceNumber <? seq then (c, p, Err errSequenceNumberOverflow)
  else
    let '(p, rawPacket) :=
      if shouldWrapCID p then
        let inner := mkInnerPlaintext handshakeFragment ContentTypeHandshake
                       (paddingLengthGenerator c (len handshakeFragment)) in
        match InnerPlaintext_Marshal inner with
        | Err e => (p, Err e)
        | Ok rawInner =>
            let cidHeader :=
              mkHeader ContentTypeConnectionID (uint16 (len rawInner))
                (recordlayer.Version (Header_ (record p)))
                (Epoch (Header_ (record p)))
                (SequenceNumber (Header_ (record p)))
                (remoteConnectionID (state c)) in
            match Header_Marshal cidHeader with
            | Err e => (p, Err e)
            | Ok rawPacket => (set_Header p cidHeader, Ok (rawPacket ++ rawInner))
            end
        end
      else
        let recordlayerHeader :=
          mkHeader (ContentType (Header_ (record p)))
            (uint16 (len handshakeFragment))
            (recordlayer.Version (Header_ (record p)))
            (Epoch (Header_ (record p))) seq [] in
        match Header_Marshal recordlayerHeader with
        | Err e => (p, Err e)
        | Ok rawPacket =>
            (set_Header p recordlayerHeader, Ok (rawPacket ++ handshakeFragment))
        end in
    match rawPacket with
    | Err e => (c, p, Err e)
    | Ok rawPacket => (c, p, encryptIfNeeded c p rawPacket)
    end.

Fixpoint processHandshakeFragments (c : Conn) (p : packet) (epoch : Z)
    (handshakeFragments : list bytes) (rawPackets : list bytes)
    : Conn * packet * result (list bytes) :=
  match handshakeFragments with
  | [] => (c, p, Ok rawPackets)
  | handshakeFragment :: rest =>
      match processHandshakeFragment c p epoch handshakeFragment with
      | (c, p, Err e) => (c, p, Err e)
      | (c, p, Ok rawPacket) =>
          processHandshakeFragments c p epoch rest (rawPackets ++ [rawPacket])
      end
  end.

(** [Conn.processHandshakePacket]. *)
Definition processHandshakePacket (c : Conn) (p : packet) (h : handshake.Handshake)
    : Conn * packet * result (list bytes) :=
  match fragmentHandshake c h with
  | Err e => (c, p, Err e)
  | Ok handshakeFragments =>
      let epoch := Epoch (Header_ (record p)) in
      let c := set_state c
                 (set_localSequenceNumber (state c)
                    (growSequenceNumbers (localSequenceNumber (state c)) epoch)) in
      processHandshakeFragments c p epoch handshakeFragments []
  end.

(** [Conn.compactRawPackets]: the loop over the raw packets, with the
    datagrams closed so far and the one being filled. *)
Fixpoint compactLoop (mtu : Z) (rawPackets : list bytes)
    (combinedRawPackets : list bytes) (currentCombinedRawPacket : bytes)
    : list bytes :=
  match rawPackets with
  | [] => combinedRawPackets ++ [currentCombinedRawPacket]
  | rawPacket :: rest =>
      if (0 <? len currentCombinedRawPacket)
         && (mtu <=? len currentCombinedRawPacket + len rawPacket)
      then compactLoop mtu rest (combinedRawPackets ++ [currentCombinedRawPacket])
             ([] ++ rawPacket)
      else compactLoop mtu rest combinedRawPackets
             (currentCombinedRawPacket ++ rawPacket)
  end.

Definition compactRawPackets (c : Conn) (rawPackets : list bytes) : list bytes :=
  (* avoid a useless copy in the common case *)
  if len rawPackets =? 1 then rawPackets
  else compactLoop (maximumTransmissionUnit c) rawPackets [] [].

(** The loop of [writePackets] over the packets. *)
Fixpoint processPackets (c : Conn) (pkts : list packet) (rawPackets : list bytes)
    : Conn * result (list bytes) :=
  match pkts with
  | [] => (c, Ok rawPackets)
  | p :: rest =>
      match Content_ (record p) with
      | ContentHandshake h =>
          let '(r, marshaled) := RecordLayer_Marshal (record p) in
          let p := mkPacket r (shouldEncrypt p) (shouldWrapCID p)
                     (resetLocalSequenceNumber p) in
          match marshaled with
          | Err err => (c, Err err)
          | Ok handshakeRaw =>
              let c := set_handshakeCache c
                         (handshakeCache_push (handshakeCache c)
                            (slice_from FixedHeaderSize handshakeRaw)
                            (Epoch (Header_ (record p)))
                            (handshake.MessageSequence (handshake.Header_ h))
                            (handshake.Type_ (handshake.Header_ h))
                            (isClient (state c))) in
              match processHandshakePacket c p h with
              | (c, _, Err err) => (c, Err err)
              | (c, _, Ok rawHandshakePackets) =>
                  processPackets c rest (rawPackets ++ rawHandshakePackets)
              end
          end
      | _ =>
          match processPacket c p with
          | (c, _, Err err) => (c, Err err)
          | (c, _, Ok rawPacket) => processPackets c rest (rawPackets ++ [rawPacket])
          end
      end
  end.

(** The loop of [writePackets] over the datagrams; the error is the one
    [netError] makes of the socket's. *)
Fixpoint writeDatagrams (c : Conn) (datagrams : list bytes) : Conn * option error :=
  match datagrams with
  | [] => (c, None)
  | d :: rest =>
      match WriteToContext (nextConn c) d (rAddr c) with
      | (sock, Some err) => (set_nextConn c sock, Some err)
      | (sock, None) => writeDatagrams (set_nextConn c sock) rest
      end
  end.

(** [Conn.writePackets]. *)
Definition writePackets (c : Conn) (pkts : list packet) : Conn * option error :=
  match processPackets c pkts [] with
  | (c, Err err) => (c, Some err)
  | (c, Ok rawPackets) =>
      if len rawPackets =? 0 then (c, None)
      else writeDatagrams c (compactRawPackets c rawPackets)
  end.

(** The packet [Write] builds for the bytes [p]. *)
Definition applicationPacket (c : Conn) (p : bytes) : packet :=
  mkPacket
    (mkRecordLayer
       (mkHeader x00 0 Version1_2 (localEpoch (state c)) 0 [])
       (ContentApplicationData p))
    true
    (0 <? len (remoteConnectionID (state c)))
    false.

(** [Conn.Write]. *)
Definition Write (c : Conn) (p : bytes) : Conn * (Z * option error) :=
  if isConnectionClosed c then (c, (0, Some ErrConnClosed))
  else if writeDeadline c then (c, (0, Some errDeadlineExceeded))
  else if negb (isHandshakeCompletedSuccessfully c) then
    (c, (0, Some errHandshakeInProgress))
  else
    let '(c, err) := writePackets c [applicationPacket c p] in
    (c, (len p, err)).

(** *** Receiving *)

(** [Conn.enqueueEncryptedPackets]. *)
Definition enqueueEncryptedPackets (c : Conn) (packet : addrPkt) : Conn * bool :=
  if len (encryptedPackets c) <? maxAppDataPacketQueueSize then
    (set_encryptedPackets c (encryptedPackets c ++ [packet]), true)
  else (c, false).

(** [for len(c.state.replayDetector) <= int(h.Epoch)] append a new detector. *)
Definition growReplayDetectors (c : Conn) (epoch : Z) : list ReplayDetector :=
  replayDetector (state c)
    ++ repeat (replaydetector_New (replayProtectionWindow c) MaxSequenceNumber)
         (Z.to_nat (epoch + 1) - length (replayDetector (state c))).

(** [markPacketAsValid()]: the detector of the epoch accepts the number. *)
Definition markPacketAsValid (c : Conn) (epoch seq : Z) : Conn * bool :=
  match replayDetector (state c) !! Z.to_nat epoch with
  | None => (c, false)
  | Some d =>
      let '(d, latest) := replaydetector_accept d seq in
      (set_state c
         (set_replayDetector (state c)
            (<[Z.to_nat epoch := d]> (replayDetector (state c)))), latest)
  end.

(** The loop that pops the complete handshake messages into the cache. *)
Fixpoint cachePopped (c : Conn) (popped : list (bytes * Z)) : Conn :=
  match popped with
  | [] => c
  | (out, epoch) :: rest =>
      match handshakeHeader_Unmarshal out with
      | Err _ => cachePopped c rest
      | Ok header =>
          cachePopped
            (set_handshakeCache c
               (handshakeCache_push (handshakeCache c) out epoch
                  (handshake.MessageSequence header) (handshake.Type_ header)
                  (negb (isClient (state c)))))
            rest
      end
  end.

Definition cipherSuiteReady (c : Conn) : bool :=
  match cipherSuite (state c) with
  | None => false
  | Some cs => IsInitialized cs
  end.

(** The three values [handleIncomingPacket] returns. *)
Definition Verdict : Type := bool * option Alert * option error.
Definition discarded : Verdict := (false, None, None).

(** [if enqueue { c.enqueueEncryptedPackets(...) }; return false, nil, nil]. *)
Definition enqueueAndDiscard (c : Conn) (enqueue : bool) (rAddr : Addr)
    (buf : bytes) : Conn * Verdict :=
  if enqueue then (fst (enqueueEncryptedPackets c (mkAddrPkt rAddr buf)), discarded)
  else (c, discarded).

(** The dispatch on the content of a record that is not a handshake
    fragment.  [stopped] tells that the connection is closed or the context
    done when the application data is handed over. *)
Definition dispatchContent (c : Conn) (h : Header) (buf : bytes) (rAddr_ : Addr)
    (enqueue stopped originalCID : bool) : Conn * Verdict :=
  match RecordLayer_Unmarshal buf with
  | Err err =>
      (c, (false, Some (mkAlert alert.Fatal alert.DecodeError), Some err))
  | Ok r =>
      let finish (c : Conn) (isLatestSeqNum : bool) : Conn * Verdict :=
        (* a valid connection ID record updates the remote address when it
           is the latest record received *)
        if originalCID && isLatestSeqNum then
          if negb (Addr_eqb rAddr_ (rAddr c)) then (set_rAddr c rAddr_, discarded)
          else (c, discarded)
        else (c, discarded) in
      match Content_ r with
      | ContentAlert content =>
          let a := if alertDescription content =? alert.CloseNotify
                   then Some (mkAlert alert.Warning alert.CloseNotify)
                   else None in
          let '(c, _) := markPacketAsValid c (Epoch h) (SequenceNumber h) in
          (c, (false, a, Some (alertError content)))
      | ContentChangeCipherSpec =>
          if negb (cipherSuiteReady c) then enqueueAndDiscard c enqueue rAddr_ buf
          else
            let newRemoteEpoch := uint16 (Epoch h + 1) in
            if uint16 (remoteEpoch (state c) + 1) =? newRemoteEpoch then
              let c := set_state c (set_remoteEpoch (state c) newRemoteEpoch) in
              let '(c, isLatestSeqNum) :=
                markPacketAsValid c (Epoch h) (SequenceNumber h) in
              finish c isLatestSeqNum
            else finish c false
      | ContentApplicationData data =>
          if Epoch h =? 0 then
            (c, (false, Some (mkAlert alert.Fatal alert.UnexpectedMessage),
                 Some errApplicationDataEpochZero))
          else
            let '(c, isLatestSeqNum) :=
              markPacketAsValid c (Epoch h) (SequenceNumber h) in
            let c := if stopped then c
                     else set_decrypted c
                            (mkChan (chan_items (decrypted c) ++ [ItemBytes data])
                               (chan_closed (decrypted c))) in
            finish c isLatestSeqNum
      | ContentHandshake _ =>
          (c, (false, Some (mkAlert alert.Fatal alert.UnexpectedMessage),
               Some (errUnhandledContextType
                       (byte_to_Z (Content_ContentType (Content_ r))))))
      end
  end.

(** The defragmentation step and what follows it. *)
Definition afterDecrypt (c : Conn) (h : Header) (buf : bytes) (rAddr_ : Addr)
    (enqueue stopped originalCID : bool) : Conn * Verdict :=
  match fragmentBuffer_push (fragmentBuffer c) ([] ++ buf) with
  | (fb, Err _) =>
      (* Decode error must be silently discarded [RFC6347 Section-4.1.2.7] *)
      (set_fragmentBuffer c fb, discarded)
  | (fb, Ok true) =>
      let c := set_fragmentBuffer c fb in
      let '(c, _) := markPacketAsValid c (Epoch h) (SequenceNumber h) in
      let '(fb, popped) := fragmentBuffer_popAll (fragmentBuffer c) in
      let c := cachePopped (set_fragmentBuffer c fb) popped in
      (c, (true, None, None))
  | (fb, Ok false) =>
      dispatchContent (set_fragmentBuffer c fb) h buf rAddr_ enqueue stopped
        originalCID
  end.

(** The header [handleIncomingPacket] decodes into: its connection ID has
    the size of the local one, "so that records of content type tls12_cid
    will be parsed correctly". *)
Definition receiveHeader (c : Conn) : Header :=
  mkHeader x00 0 (mkVersion x00 x00) 0 0
    (if 0 <? len (localConnectionID (state c))
     then repeat x00 (length (localConnectionID (state c))) else []).

(** The header [handleIncomingPacket] hands to [Decrypt]. *)
Definition decryptHeader (c : Conn) (h : Header) : Header :=
  mkHeader x00 0 (mkVersion x00 x00) 0 0
    (if bool_decide (ContentType h = ContentTypeConnectionID)
     then repeat x00 (length (localConnectionID (state c))) else []).

(** The decryption step of a record of an epoch other than zero. *)
Definition decryptRecord (c : Conn) (h : Header) (buf : bytes) (rAddr_ : Addr)
    (enqueue stopped : bool) : Conn * Verdict :=
  if negb (cipherSuiteReady c) then enqueueAndDiscard c enqueue rAddr_ buf
  else
    match cipherSuite (state c) with
    | None => (c, discarded)
    | Some cs =>
        (* If a connection identifier had been negotiated and encryption is
           enabled, the connection identifier MUST be sent. *)
        if (0 <? len (localConnectionID (state c)))
           && negb (bool_decide (ContentType h = ContentTypeConnectionID))
        then (c, discarded)
        else
          let hdr := decryptHeader c h in
          match Decrypt cs hdr buf with
          | Err _ => (c, discarded)
          | Ok buf =>
              let unwrapped : result (bytes * bool) :=
                if bool_decide (ContentType h = ContentTypeConnectionID) then
                  if len buf <? Header_Size h then Err runtimePanic else
                  match InnerPlaintext_Unmarshal (slice_from (Header_Size h) buf) with
                  | Err e => Err e
                  | Ok ip =>
                      let unpacked :=
                        mkHeader (RealType ip) (uint16 (len (recordlayer.Content ip)))
                          (recordlayer.Version h) (Epoch h) (SequenceNumber h) [] in
                      match Header_Marshal unpacked with
                      | Err e => Err e
                      | Ok raw => Ok (raw ++ recordlayer.Content ip, true)
                      end
                  end
                else Ok (buf, false) in
              match unwrapped with
              | Err runtimePanic => (c, (false, None, Some runtimePanic))
              | Err _ => (c, discarded)
              | Ok (buf, originalCID) =>
                  (* If connection ID does not match discard the packet. *)
                  if negb (bytes_eqb (localConnectionID (state c)) (ConnectionID h))
                  then (c, discarded)
                  else afterDecrypt c h buf rAddr_ enqueue stopped originalCID
              end
          end
    end.

(** [Conn.handleIncomingPacket]. *)
Definition handleIncomingPacket (c : Conn) (buf : bytes) (rAddr_ : Addr)
    (enqueue stopped : bool) : Conn * Verdict :=
  let h := receiveHeader c in
  match Header_Unmarshal h buf with
  | Err _ =>
      (* Decode error must be silently discarded [RFC6347 Section-4.1.2.7] *)
      (c, discarded)
  | Ok h =>
      (* Validate epoch *)
      let remoteEpoch_ := remoteEpoch (state c) in
      if remoteEpoch_ <? Epoch h then
        if uint16 (remoteEpoch_ + 1) <? Epoch h then (c, discarded)
        else enqueueAndDiscard c enqueue rAddr_ buf
      else
        (* Anti-replay protection *)
        let c := set_state c
                   (set_replayDetector (state c) (growReplayDetectors c (Epoch h))) in
        match replayDetector (state c) !! Z.to_nat (Epoch h) with
        | None => (c, (false, None, Some runtimePanic))
        | Some detector =>
            if negb (replaydetector_Check detector (SequenceNumber h)) then
              (c, discarded)
            else if negb (Epoch h =? 0) then
              decryptRecord c h buf rAddr_ enqueue stopped
            else afterDecrypt c h buf rAddr_ enqueue stopped false
        end
  end.

End Connection.
End dtls.

(* ------------------------------------------------------------------ *)
(** ** Values to run the model on *)

Module Examples.
Import protocol recordlayer ciphersuite.
Local Open Scope Z_scope.

(** An AEAD to run the model on: the plaintext in clear followed by a
    16-byte tag over nonce, additional data and plaintext. *)
Definition tagOf (nonce plaintext ad : bytes) : bytes :=
  take 16 (SHA256.Sum256 (nonce ++ ad ++ plaintext) ++ repeat x00 16).

Definition tagAEAD : AEAD :=
  mkAEAD
    (fun nonce plaintext ad => plaintext ++ tagOf nonce plaintext ad)
    (fun nonce ciphertext ad =>
       let n := (length ciphertext - 16)%nat in
       if (length ciphertext <? 16)%nat then Err aead_error
       else if bool_decide (drop n ciphertext = tagOf nonce (take n ciphertext) ad)
            then Ok (take n ciphertext)
            else Err aead_error).

Definition tagGCM (localIV remoteIV : bytes) : GCM :=
  mkGCM tagAEAD tagAEAD localIV remoteIV.

(** The write IVs of the key expansion scenario (S4), one per direction. *)
Definition clientWriteIV : bytes := [x0e; xb2; x09; x06].
Definition serverWriteIV : bytes := [xf7; x81; xfa; xd2].

Definition exampleSender : GCM := tagGCM clientWriteIV serverWriteIV.
Definition exampleReceiver : GCM := tagGCM serverWriteIV clientWriteIV.

(** An application data record of three bytes at epoch 1, sequence number 5. *)
Definition exampleHeader : Header :=
  mkHeader ContentTypeApplicationData 3 Version1_2 1 5 [].
Definition exampleHeaderBytes : bytes :=
  [x17; xfe; xfd; x00; x01; x00; x00; x00; x00; x00; x05; x00; x03].
Definition examplePayload : bytes := [x01; x02; x03].
Definition exampleNonce : bytes := [x10; x11; x12; x13; x14; x15; x16; x17].

End Examples.

Module ExampleCodec.
Local Open Scope Z_scope.

(** An extension codec to run the model on: the extensions block is a
    16-bit length followed by that many bytes, kept as one raw extension. *)
#[export] Instance rawCodec : extension.Codec := {|
  extension.Extension := bytes;
  extension.Marshal := fun es =>
    let raw := concat es in Ok (PutUint16 (uint16 (len raw)) ++ raw);
  extension.Unmarshal := fun buf =>
    if len buf =? 0 then Ok []
    else if len buf <? 2 then Err (extension_error 0)
    else if negb (len buf - 2 =? Uint16 buf) then Err (extension_error 1)
    else if len buf =? 2 then Ok []
    else Ok [drop 2 buf]
|}.

End ExampleCodec.

Module ExamplePlatform.
Import protocol recordlayer dtls.
Local Open Scope Z_scope.

(** A platform to run the connection model on.  Addresses are numbers; the
    socket is the list of datagrams written, newest last; the replay
    detector is the list of numbers accepted; the fragment buffer takes a
    record for a handshake message when its content type says so and keeps
    complete messages only; contents are marshalled as their payload. *)
Definition exampleContentMarshal (content : Content) : result bytes :=
  match content with
  | ContentAlert a => Ok [byte_of_Z (alertLevel a); byte_of_Z (alertDescription a)]
  | ContentChangeCipherSpec => Ok [x01]
  | ContentApplicationData data => Ok data
  | ContentHandshake h => handshake.Message_Marshal (handshake.Message_ h)
  end.

Definition exampleRecordUnmarshal (buf : bytes) : result RecordLayer :=
  h ← Header_Unmarshal zeroHeader buf;
  let body := drop 13 buf in
  if bool_decide (ContentType h = ContentTypeAlert) then
    match body with
    | [level; description] =>
        Ok (mkRecordLayer h
              (ContentAlert (mkAlert (byte_to_Z level) (byte_to_Z description))))
    | _ => Err recordlayer_errBufferTooSmall
    end
  else if bool_decide (ContentType h = ContentTypeChangeCipherSpec) then
    Ok (mkRecordLayer h ContentChangeCipherSpec)
  else if bool_decide (ContentType h = ContentTypeApplicationData) then
    Ok (mkRecordLayer h (ContentApplicationData body))
  else Err (recordlayer_error 0).

Definition exampleHandshakeHeaderMarshal (h : handshake.Header) : result bytes :=
  Ok ([handshake.Type_ h] ++ be_of_Z 3 (handshake.Length h)
        ++ be_of_Z 2 (handshake.MessageSequence h)
        ++ be_of_Z 3 (handshake.FragmentOffset h)
        ++ be_of_Z 3 (handshake.FragmentLength h)).

Definition exampleHandshakeHeaderUnmarshal (b : bytes) : result handshake.Header :=
  match b with
  | t :: rest =>
      if len rest <? 11 then Err handshake_errBufferTooSmall
      else Ok (handshake.mkHeader t (be_to_Z (take 3 rest))
                 (be_to_Z (take 2 (drop 3 rest)))
                 (be_to_Z (take 3 (drop 5 rest)))
                 (be_to_Z (take 3 (drop 8 rest))))
  | [] => Err handshake_errBufferTooSmall
  end.

Fixpoint chunks (fuel : nat) (size : nat) (b : bytes) : list bytes :=
  match fuel, b with
  | S k, _ :: _ => take size b :: chunks k size (drop size b)
  | _, _ => []
  end.

#[export] Instance examplePlatform : Platform := {|
  Addr := Z;
  Addr_eqb := Z.eqb;
  PacketConn := list (bytes * Z);
  WriteToContext := fun sock datagram addr => (sock ++ [(datagram, addr)], None);
  ReplayDetector := list Z;
  replaydetector_New := fun _ _ => [];
  replaydetector_Check := fun seen seq => negb (bool_decide (seq ∈ seen));
  replaydetector_accept := fun seen seq =>
    (seq :: seen, forallb (fun s => s <? seq) seen);
  fragmentBufferT := list (bytes * Z);
  fragmentBuffer_push := fun fb buf =>
    match Header_Unmarshal zeroHeader buf with
    | Err e => (fb, Err e)
    | Ok h =>
        if bool_decide (ContentType h = ContentTypeHandshake)
        then (fb ++ [(drop 13 buf, Epoch h)], Ok true)
        else (fb, Ok false)
    end;
  fragmentBuffer_popAll := fun fb => ([], fb);
  handshakeCacheT := list bytes;
  handshakeCache_push := fun cache raw _ _ _ _ => cache ++ [raw];
  Content_Marshal := exampleContentMarshal;
  RecordLayer_Unmarshal := exampleRecordUnmarshal;
  handshakeHeader_Marshal := exampleHandshakeHeaderMarshal;
  handshakeHeader_Unmarshal := exampleHandshakeHeaderUnmarshal;
  splitBytes := fun b size => chunks (length b) (Z.to_nat size) b
|}.

(** A connection after the handshake: epoch 1 on both sides, the AES-GCM
    suite installed, no connection IDs, the default MTU of 1200. *)
Definition exampleSuite : CipherSuite :=
  gcmCipherSuite Examples.exampleSender (Ok Examples.exampleNonce).

Definition exampleState : State :=
  mkState 1 1 [5; 0] (Some exampleSuite) true [] [] [] [].

Definition exampleConn : Conn :=
  mkConn [] [] [] (mkChan [] false) 7 exampleState 1200 (fun _ => 0)
    true [] false false false 64.

(** The same connection before the handshake has completed. *)
Definition handshakingConn : Conn :=
  set_handshakeCompletedSuccessfully exampleConn false.

(** The connection with the counter of epoch 1 at the largest sequence
    number, and past it. *)
Definition limitConn : Conn :=
  set_state exampleConn (set_localSequenceNumber exampleState [5; 281474976710655]).
Definition overflowConn : Conn :=
  set_state exampleConn (set_localSequenceNumber exampleState [5; 281474976710656]).

(** The connection with application records waiting in the channel. *)
Definition waitingConn : Conn :=
  set_decrypted exampleConn
    (mkChan [ItemBytes [x01; x02; x03; x04]; ItemBytes [x05; x06]] false).

(** The same, with the read deadline expired. *)
Definition expiredConn : Conn :=
  mkConn (nextConn waitingConn) (fragmentBuffer waitingConn)
    (handshakeCache waitingConn) (decrypted waitingConn) (rAddr waitingConn)
    (state waitingConn) (maximumTransmissionUnit waitingConn)
    (paddingLengthGenerator waitingConn) true (encryptedPackets waitingConn)
    false true false (replayProtectionWindow waitingConn).

(** The connection before the handshake has completed, closed by the user. *)
Definition closedConn : Conn :=
  mkConn (nextConn exampleConn) (fragmentBuffer exampleConn)
    (handshakeCache exampleConn) (decrypted exampleConn) (rAddr exampleConn)
    (state exampleConn) (maximumTransmissionUnit exampleConn)
    (paddingLengthGenerator exampleConn) false (encryptedPackets exampleConn)
    true false false (replayProtectionWindow exampleConn).

(** Records as they arrive: application data two epochs ahead of the
    remote epoch, one epoch ahead, and on the current epoch with a body
    that does not authenticate. *)
Definition futureHeader : Header :=
  mkHeader ContentTypeApplicationData 3 Version1_2 3 0 [].
Definition futureRecord : bytes :=
  [x17; xfe; xfd; x00; x03; x00; x00; x00; x00; x00; x00; x00; x03; x01; x02; x03].

Definition earlyHeader : Header :=
  mkHeader ContentTypeApplicationData 3 Version1_2 2 0 [].
Definition earlyRecord : bytes :=
  [x17; xfe; xfd; x00; x02; x00; x00; x00; x00; x00; x00; x00; x03; x01; x02; x03].

Definition forgedHeader : Header :=
  mkHeader ContentTypeApplicationData 27 Version1_2 1 9 [].
Definition forgedRecord : bytes :=
  [x17; xfe; xfd; x00; x01; x00; x00; x00; x00; x00; x09; x00; x1b]
    ++ Examples.exampleNonce ++ [x01; x02; x03] ++ repeat x00 16.

End ExamplePlatform.

(* ------------------------------------------------------------------ *)
(** ** Notions the statements use *)

Module Notions.
Import protocol recordlayer dtls.
Local Open Scope Z_scope.

(** The bytes of a marshalled header, field by field. *)
Definition layout (ct major minor : byte) (epoch seq cid length_ : bytes) : bytes :=
  ct :: major :: minor :: epoch ++ seq ++ cid ++ length_.

(** The header with its length field set to [n]. *)
Definition withContentLen (h : Header) (n : Z) : Header :=
  mkHeader (ContentType h) n (recordlayer.Version h) (Epoch h)
    (SequenceNumber h) (ConnectionID h).

(** The records each datagram is made of: the loop of [compactRawPackets]
    replayed on groups of records instead of their concatenation. *)
Fixpoint groupLoop (mtu : Z) (rawPackets : list bytes)
    (groups : list (list bytes)) (current : list bytes) : list (list bytes) :=
  match rawPackets with
  | [] => groups ++ [current]
  | rawPacket :: rest =>
      if (0 <? len (concat current))
         && (mtu <=? len (concat current) + len rawPacket)
      then groupLoop mtu rest (groups ++ [current]) [rawPacket]
      else groupLoop mtu rest groups (current ++ [rawPacket])
  end.

Definition grouping (mtu : Z) (rawPackets : list bytes) : list (list bytes) :=
  if len rawPackets =? 1 then [rawPackets] else groupLoop mtu rawPackets [] [].

(** A group stays within the MTU: whenever a record joins records that
    already fill part of the datagram, the datagram stays below the MTU. *)
Definition within (mtu : Z) (group : list bytes) : Prop :=
  forall before r after, group = before ++ r :: after ->
    0 < len (concat before) -> len (concat before) + len r < mtu.

Section WithPlatform.
Context {platform : Platform}.

(** The number the next record sent on [epoch] draws: the counter of the
    epoch, zero if the epoch has none yet. *)
Definition counter (s : State) (epoch : Z) : Z :=
  growSequenceNumbers (localSequenceNumber s) epoch !!! Z.to_nat epoch.

(** The number [atomic.AddUint64(&n, 1) - 1] yields when the counter holds
    [k]. *)
Definition drawn (k : Z) : Z := uint64 (uint64 (k + 1) - 1).

(** The connection fields the record assembly does not touch. *)
Definition sameSocket (c c' : Conn) : Prop :=
  nextConn c' = nextConn c /\
  handshakeCompletedSuccessfully c' = handshakeCompletedSuccessfully c /\
  maximumTransmissionUnit c' = maximumTransmissionUnit c /\
  rAddr c' = rAddr c.

(** One step of the queue: it is left as it was, or it held fewer than 100
    packets and one more is appended. *)
Definition queueStep (c c' : Conn) : Prop :=
  encryptedPackets c' = encryptedPackets c \/
  (len (encryptedPackets c) < maxAppDataPacketQueueSize /\
   exists packet, encryptedPackets c' = encryptedPackets c ++ [packet]).

End WithPlatform.

End Notions.

(* ------------------------------------------------------------------ *)
(** ** Notions the statements about what a call leaves alone use *)

Module FrameNotions.
Import protocol recordlayer dtls.
Local Open Scope Z_scope.

Section WithPlatform.
Context {platform : Platform}.

(** The fields of the connection the receive path has no business with:
    the socket, the send side of the state, the keys and identifiers, the
    configuration and the flags. *)
Definition sendSideKept (c c' : Conn) : Prop :=
  nextConn c' = nextConn c /\
  localEpoch (state c') = localEpoch (state c) /\
  localSequenceNumber (state c') = localSequenceNumber (state c) /\
  cipherSuite (state c') = cipherSuite (state c) /\
  isClient (state c') = isClient (state c) /\
  localConnectionID (state c') = localConnectionID (state c) /\
  remoteConnectionID (state c') = remoteConnectionID (state c) /\
  SessionID (state c') = SessionID (state c) /\
  maximumTransmissionUnit c' = maximumTransmissionUnit c /\
  paddingLengthGenerator c' = paddingLengthGenerator c /\
  handshakeCompletedSuccessfully c' = handshakeCompletedSuccessfully c /\
  closed c' = closed c /\
  readDeadline c' = readDeadline c /\
  writeDeadline c' = writeDeadline c /\
  replayProtectionWindow c' = replayProtectionWindow c.

(** The fields of the connection the send path has no business with:
    everything but the socket, the local sequence numbers and the handshake
    cache. *)
Definition receiveSideKept (c c' : Conn) : Prop :=
  fragmentBuffer c' = fragmentBuffer c /\
  decrypted c' = decrypted c /\
  rAddr c' = rAddr c /\
  localEpoch (state c') = localEpoch (state c) /\
  remoteEpoch (state c') = remoteEpoch (state c) /\
  cipherSuite (state c') = cipherSuite (state c) /\
  isClient (state c') = isClient (state c) /\
  localConnectionID (state c') = localConnectionID (state c) /\
  remoteConnectionID (state c') = remoteConnectionID (state c) /\
  replayDetector (state c') = replayDetector (state c) /\
  SessionID (state c') = SessionID (state c) /\
  maximumTransmissionUnit c' = maximumTransmissionUnit c /\
  paddingLengthGenerator c' = paddingLengthGenerator c /\
  handshakeCompletedSuccessfully c' = handshakeCompletedSuccessfully c /\
  encryptedPackets c' = encryptedPackets c /\
  closed c' = closed c /\
  readDeadline c' = readDeadline c /\
  writeDeadline c' = writeDeadline c /\
  replayProtectionWindow c' = replayProtectionWindow c.

(** The record [buf], of header [h], is taken up by a connection that
    has negotiated no connection ID: it is of an epoch the connection has
    reached, the replay detector [d] of its epoch lets its sequence number
    in, and at an epoch other than zero the initialized cipher suite
    decrypts it to [plain]; at epoch zero [plain] is the record itself. *)
Definition takenUp (c : Conn) (buf : bytes) (h : Header) (d : ReplayDetector)
    (plain : bytes) : Prop :=
  Header_Unmarshal (receiveHeader c) buf = Ok h /\
  0 <= Epoch h <= remoteEpoch (state c) /\
  growReplayDetectors c (Epoch h) !! Z.to_nat (Epoch h) = Some d /\
  replaydetector_Check d (SequenceNumber h) = true /\
  localConnectionID (state c) = [] /\
  ContentType h <> ContentTypeConnectionID /\
  (if Epoch h =? 0 then plain = buf
   else exists cs, cipherSuite (state c) = Some cs /\ IsInitialized cs = true /\
                   Decrypt cs (decryptHeader c h) buf = Ok plain).

(** The connection once the replay detectors reach the epoch of [h] and the
    fragment buffer has seen the record. *)
Definition seen (c : Conn) (h : Header) (fb : fragmentBufferT) : Conn :=
  set_fragmentBuffer
    (set_state c (set_replayDetector (state c) (growReplayDetectors c (Epoch h))))
    fb.

(** [Read] called once for each buffer of a list, in order: the connection
    at the end and the outcomes of the calls. *)
Fixpoint readAll (c : Conn) (bufs : list bytes) : Conn * list ReadOutcome :=
  match bufs with
  | [] => (c, [])
  | p :: rest =>
      let '(c, outcome) := Read c p in
      let '(c, outcomes) := readAll c rest in
      (c, outcome :: outcomes)
  end.

(** The outcome of a [Read] that returns the record [val] in the buffer
    [p]. *)
Definition delivered (val p : bytes) : ReadOutcome :=
  Returned (val ++ drop (length val) p) (len val) None.

End WithPlatform.

End FrameNotions.

(* ------------------------------------------------------------------ *)
(** ** Package [dtls]: alerts, the read loop and closing *)

Module lifecycle.
Import protocol recordlayer dtls.
Local Open Scope Z_scope.

(** What this part of [conn.go] uses on top of the platform of the
    connection: closing and reading the datagram socket, the session store
    of the configuration, the textual form of an address, the split of a
    datagram into records ([recordlayer.ContentAwareUnpackDatagram], whose
    source is not available), and the two tests on an alert error
    ([errors.go] is not available either). *)
Class Services {platform : Platform} := {
  PacketConn_Close : PacketConn -> PacketConn * option error;
  (** [ReadFromContext]: the socket after the call, and the datagram with
      the address it came from, or an error. *)
  ReadFromContext : PacketConn -> PacketConn * result (bytes * Addr);
  ContentAwareUnpackDatagram : bytes -> Z -> result (list bytes);
  SessionStore : Type;
  SessionStore_Del : SessionStore -> bytes -> SessionStore * option error;
  Addr_String : Addr -> bytes;
  IsFatalOrCloseNotify : Alert -> bool
}.

Section Lifecycle.
Context {platform : Platform} {services : Services}.

(** [Conn], the fields this part of the code uses besides those of
    [dtls.Conn]: the flag [connectionClosedByUser], the session store and
    the server name of the handshake configuration ([c.fsm.cfg]), and
    whether the contexts of the handshaker and of the reader have been
    cancelled ([cancelHandshaker], [cancelHandshakeReader]). *)
Record Connection := mkConnection {
  conn : Conn;
  connectionClosedByUser : bool;
  sessionStore : option SessionStore;
  serverName : bytes;
  handshakerCancelled : bool;
  handshakeReaderCancelled : bool
}.

Definition set_conn (x : Connection) (c : Conn) : Connection :=
  mkConnection c (connectionClosedByUser x) (sessionStore x) (serverName x)
    (handshakerCancelled x) (handshakeReaderCancelled x).
Definition set_sessionStore (x : Connection) (ss : option SessionStore) : Connection :=
  mkConnection (conn x) (connectionClosedByUser x) ss (serverName x)
    (handshakerCancelled x) (handshakeReaderCancelled x).
Definition set_connectionClosedByUser (x : Connection) (b : bool) : Connection :=
  mkConnection (conn x) b (sessionStore x) (serverName x)
    (handshakerCancelled x) (handshakeReaderCancelled x).
Definition set_closed (c : Conn) (b : bool) : Conn :=
  mkConn (nextConn c) (fragmentBuffer c) (handshakeCache c) (decrypted c) (rAddr c)
    (state c) (maximumTransmissionUnit c) (paddingLengthGenerator c)
    (handshakeCompletedSuccessfully c) (encryptedPackets c) b
    (readDeadline c) (writeDeadline c) (replayProtectionWindow c).

(** [Conn.sessionKey]. *)
Definition sessionKey (x : Connection) : bytes :=
  if isClient (state (conn x)) then
    (* As ServerName can be like 0.example.com, it's better to add a
       delimiter character which is not allowed to be in neither address or
       domain name. *)
    Addr_String (rAddr (conn x)) ++ [x5f] ++ serverName x
  else SessionID (state (conn x)).

(** The packet [notify] builds for an alert. *)
Definition alertPacket (c : Conn) (level desc : Z) : packet :=
  mkPacket
    (mkRecordLayer
       (mkHeader x00 0 Version1_2 (localEpoch (state c)) 0 [])
       (ContentAlert (mkAlert level desc)))
    (isHandshakeCompletedSuccessfully c)
    (0 <? len (remoteConnectionID (state c)))
    false.

(** [Conn.notify]. *)
Definition notify (x : Connection) (level desc : Z) : Connection * option error :=
  let '(x, delErr) :=
    if (level =? alert.Fatal) && (0 <? len (SessionID (state (conn x)))) then
      (* According to the RFC, we need to delete the stored session. *)
      match sessionStore x with
      | Some ss =>
          let '(ss, err) := SessionStore_Del ss (sessionKey x) in
          (set_sessionStore x (Some ss), err)
      | None => (x, None)
      end
    else (x, None) in
  match delErr with
  | Some err => (x, Some err)
  | None =>
      let '(c, err) := writePackets (conn x) [alertPacket (conn x) level desc] in
      (set_conn x c, err)
  end.

(** [errors.As(err, &e)] for [e *alertError]: the modelled errors wrap no
    alert error, so the error is one or holds none. *)
Definition asAlertError (err : option error) : option Alert :=
  match err with
  | Some (alertError a) => Some a
  | _ => None
  end.

(** The body the loops of [readAndBuffer] and [handleQueuedPackets] share:
    one record is handled, the alert it asks for is sent, and the error that
    ends the loop, if any, is worked out.  The result is the connection,
    whether the record was a handshake message, and that error. *)
Definition handleRecord (x : Connection) (buf : bytes) (rAddr_ : Addr)
    (enqueue stopped : bool) : Connection * bool * option error :=
  let '(c, (hs, alert_, err)) :=
    handleIncomingPacket (conn x) buf rAddr_ enqueue stopped in
  let x := set_conn x c in
  let '(x, err) :=
    match alert_ with
    | Some a =>
        match notify x (alertLevel a) (alertDescription a) with
        | (x, Some alertErr) =>
            (x, match err with None => Some alertErr | Some _ => err end)
        | (x, None) => (x, err)
        end
    | None => (x, err)
    end in
  match asAlertError err with
  | Some e =>
      if IsFatalOrCloseNotify e then (x, hs, Some (alertError e))
      else (x, hs, err)
  | None => (x, hs, err)
  end.

(** The loop of [handleQueuedPackets]; [stopped] tells, packet by packet,
    whether the connection is closed or the context done when application
    data is handed over. *)
Fixpoint handleQueued (x : Connection) (pkts : list addrPkt)
    (stopped : nat -> bool) (i : nat) : Connection * option error :=
  match pkts with
  | [] => (x, None)
  | p :: rest =>
      match handleRecord x (pkt_data p) (pkt_rAddr p) false (stopped i) with
      | (x, _, Some err) => (x, Some err)
      | (x, _, None) => handleQueued x rest stopped (S i)
      end
  end.

(** [Conn.handleQueuedPackets]. *)
Definition handleQueuedPackets (x : Connection) (stopped : nat -> bool)
    : Connection * option error :=
  let pkts := encryptedPackets (conn x) in
  let x := set_conn x (set_encryptedPackets (conn x) []) in
  handleQueued x pkts stopped 0.

(** The loop of [readAndBuffer] over the records of a datagram, with the
    flag [hasHandshake]. *)
Fixpoint handleRecords (x : Connection) (pkts : list bytes) (rAddr_ : Addr)
    (stopped : nat -> bool) (i : nat) (hasHandshake : bool)
    : Connection * result bool :=
  match pkts with
  | [] => (x, Ok hasHandshake)
  | p :: rest =>
      match handleRecord x p rAddr_ true (stopped i) with
      | (x, _, Some err) => (x, Err err)
      | (x, hs, None) =>
          handleRecords x rest rAddr_ stopped (S i) (if hs then true else hasHandshake)
      end
  end.

(** [Conn.readAndBuffer]: the connection as the call leaves it, and the
    error, or whether the handshaker is then signalled and waited for.  The
    read buffer holds [inboundBufferSize] bytes, which bounds the datagram
    the socket delivers.  [netError], of [errors.go], wraps the error of the
    socket; the error [ReadFromContext] gives here stands for the wrapped
    one. *)
Definition inboundBufferSize : Z := 8192.

Definition readAndBuffer (x : Connection) (stopped : nat -> bool)
    : Connection * result bool :=
  match ReadFromContext (nextConn (conn x)) with
  | (sock, Err err) => (set_conn x (set_nextConn (conn x) sock), Err err)
  | (sock, Ok (b, rAddr_)) =>
      let x := set_conn x (set_nextConn (conn x) sock) in
      match ContentAwareUnpackDatagram b (len (localConnectionID (state (conn x)))) with
      | Err err => (x, Err err)
      | Ok pkts => handleRecords x pkts rAddr_ stopped 0 false
      end
  end.

(** [Conn.close]. *)
Definition close (x : Connection) (byUser : bool) : Connection * option error :=
  let x := mkConnection (conn x) (connectionClosedByUser x) (sessionStore x)
             (serverName x) true true in
  let x :=
    if isHandshakeCompletedSuccessfully (conn x) && byUser then
      (* Discard error from notify() to return non-error on the first user
         call of Close() even if the underlying connection is already
         closed. *)
      fst (notify x alert.Warning alert.CloseNotify)
    else x in
  (* Don't return ErrConnClosed at the first time of the call from user. *)
  let closedByUser := connectionClosedByUser x in
  let x := if byUser then set_connectionClosedByUser x true else x in
  let isClosed := isConnectionClosed (conn x) in
  let x := set_conn x (set_closed (conn x) true) in
  if closedByUser then (x, Some ErrConnClosed)
  else if isClosed then (x, None)
  else
    let '(sock, err) := PacketConn_Close (nextConn (conn x)) in
    (set_conn x (set_nextConn (conn x) sock), err).

(** [Conn.Close]: [close(true)], then the wait for the loops. *)
Definition Close (x : Connection) : Connection * option error := close x true.

End Lifecycle.

End lifecycle.

(* ------------------------------------------------------------------ *)
(** ** More values to run the model on *)

Module Scenario.
Import protocol recordlayer dtls lifecycle Examples ExampleCodec ExamplePlatform.
Local Open Scope Z_scope.

(** What comes out of a computation known to succeed. *)
Definition got {A} (default : A) (r : result A) : A :=
  match r with
  | Ok a => a
  | Err _ => default
  end.

(** *** ServerHello *)

(** A ServerHello whose session ID takes 256 bytes, and its encoding. *)
Definition longSessionID : bytes := [xc0; x2b; x00; x01; x00] ++ repeat x00 251.

Definition longSessionHello : handshake.MessageServerHello :=
  handshake.mkMessageServerHello Version1_2
    (handshake.mkRandom 560149025 (repeat x00 28))
    longSessionID (Some 0xc02b) (Some (mkCompressionMethod x00)) [].

Definition longSessionData : bytes :=
  [xfe; xfd] ++ [x21; x63; x32; x21] ++ repeat x00 28 ++ [x00] ++ longSessionID
    ++ [xc0; x2b] ++ [x00] ++ [x00; x00].

(** The test vector with the compression method 1. *)
Definition compressedServerHello : bytes := <[37%nat := x01]> handshake.rawServerHello.

(** *** Records *)

(** The example record as [exampleSender] protects it. *)
Definition exampleEncrypted : bytes :=
  Eval vm_compute in
    got [] (ciphersuite.Encrypt exampleSender exampleHeader
              (exampleHeaderBytes ++ examplePayload) (Ok exampleNonce)).

(** The header of the example record with the length field as [Encrypt]
    leaves it. *)
Definition exampleHeaderBytes' : bytes :=
  [x17; xfe; xfd; x00; x01; x00; x00; x00; x00; x00; x05; x00; x1b].

(** The bytes "hi" and the header of their record at epoch 1, sequence
    number 0; the datagram [exampleConn] writes for them, and the one it
    writes next. *)
Definition hi : bytes := [x68; x69].
Definition hiHeader (seq : Z) : Header :=
  mkHeader ContentTypeApplicationData 2 Version1_2 1 seq [].
Definition hiHeaderBytes : bytes :=
  [x17; xfe; xfd; x00; x01; x00; x00; x00; x00; x00; x00; x00; x02].
Definition hiHeaderBytes1 : bytes :=
  [x17; xfe; xfd; x00; x01; x00; x00; x00; x00; x00; x01; x00; x02].

Definition hiDatagram : bytes :=
  Eval vm_compute in
    got [] (ciphersuite.Encrypt exampleSender (hiHeader 0) (hiHeaderBytes ++ hi)
              (Ok exampleNonce)).
Definition hiDatagram1 : bytes :=
  Eval vm_compute in
    got [] (ciphersuite.Encrypt exampleSender (hiHeader 1) (hiHeaderBytes1 ++ hi)
              (Ok exampleNonce)).

(** The header of [hiDatagram] as received, and what decryption returns. *)
Definition hiReceivedHeader : Header :=
  mkHeader ContentTypeApplicationData 26 Version1_2 1 0 [].
Definition hiPlain : bytes :=
  [x17; xfe; xfd; x00; x01; x00; x00; x00; x00; x00; x00; x00; x1a] ++ hi.

(** The peer of [exampleConn]: a server whose suite opens what the suite
    of [exampleConn] seals. *)
Definition peerSuite : CipherSuite :=
  gcmCipherSuite exampleReceiver (Ok exampleNonce).

Definition peerState : State :=
  mkState 1 1 [5; 0] (Some peerSuite) false [] [] [] [].

Definition peerConn : Conn :=
  mkConn [] [] [] (mkChan [] false) 9 peerState 1200 (fun _ => 0)
    true [] false false false 64.

(** Records at epoch zero: application data, an alert (warning,
    [close_notify]) and a handshake fragment; and a ChangeCipherSpec of
    epoch 1. *)
Definition plainDataRecord : bytes :=
  [x17; xfe; xfd; x00; x00; x00; x00; x00; x00; x00; x01; x00; x02] ++ hi.
Definition plainDataHeader : Header :=
  mkHeader ContentTypeApplicationData 2 Version1_2 0 1 [].

Definition alertRecord : bytes :=
  [x15; xfe; xfd; x00; x00; x00; x00; x00; x00; x00; x02; x00; x02; x01; x00].
Definition alertHeader : Header :=
  mkHeader ContentTypeAlert 2 Version1_2 0 2 [].

Definition handshakeRecord : bytes :=
  [x16; xfe; xfd; x00; x00; x00; x00; x00; x00; x00; x03; x00; x0d;
   x0e; x00; x00; x00; x00; x00; x00; x00; x00; x00; x00; x00; x00].
Definition handshakeRecordHeader : Header :=
  mkHeader ContentTypeHandshake 13 Version1_2 0 3 [].

Definition changeCipherSpecRecord : bytes :=
  [x14; xfe; xfd; x00; x01; x00; x00; x00; x00; x00; x04; x00; x01; x01].
Definition changeCipherSpecHeader : Header :=
  mkHeader ContentTypeChangeCipherSpec 1 Version1_2 1 4 [].

(** A connection that has negotiated a connection ID of two bytes. *)
Definition cidState : State :=
  mkState 1 1 [5; 0] (Some exampleSuite) true [xaa; xbb] [] [] [].
Definition cidConn : Conn := set_state exampleConn cidState.
Definition forgedHeaderCID : Header :=
  mkHeader ContentTypeApplicationData 27 Version1_2 1 9 [x00; x00].

(** *** Handshake messages *)

(** A handshake message of five bytes, on a connection whose MTU is two
    bytes, before the handshake has completed. *)
Definition fiveBytes : handshake.Handshake :=
  handshake.mkHandshake (handshake.mkHeader x01 5 0 0 5)
    (handshake.mkMessage (Ok [x01; x02; x03; x04; x05])).

Definition tinyConn : Conn :=
  mkConn [] [] [] (mkChan [] false) 7
    (mkState 0 0 [] None true [] [] [] []) 2 (fun _ => 0)
    false [] false false false 64.

Definition fiveBytesPacket : packet :=
  mkPacket
    (mkRecordLayer (mkHeader ContentTypeHandshake 0 Version1_2 0 0 [])
       (ContentHandshake fiveBytes))
    false false false.

Definition fiveBytesFragments : list bytes :=
  Eval vm_compute in got [] (fragmentHandshake tinyConn fiveBytes).

Definition fiveBytesRecords : list bytes :=
  Eval vm_compute in got [] (snd (processHandshakePacket tinyConn fiveBytesPacket fiveBytes)).

(** *** Closing *)

(** The split of a datagram into records, by the length field of each
    record header. *)
Fixpoint unpackRecords (fuel : nat) (b : bytes) : result (list bytes) :=
  match fuel with
  | O => Ok []
  | S k =>
      if len b =? 0 then Ok []
      else if len b <? 13 then Err (recordlayer_error 1)
      else
        let n := 13 + Uint16 (drop 11 b) in
        if len b <? n then Err (recordlayer_error 1)
        else
          match unpackRecords k (drop (Z.to_nat n) b) with
          | Ok rest => Ok (take (Z.to_nat n) b :: rest)
          | Err e => Err e
          end
  end.

(** Services to run the model on: closing the socket succeeds; the socket
    loops back, so that reading takes the oldest datagram it holds and fails
    when it holds none; the session store is the list of the keys it holds
    and deletes a key it holds; an address is written as one byte. *)
#[export] Instance exampleServices : Services := {|
  PacketConn_Close := fun sock => (sock, None);
  ReadFromContext := fun sock =>
    match sock with
    | datagram :: rest => (rest, Ok datagram)
    | [] => (sock, Err (netError 0))
    end;
  ContentAwareUnpackDatagram := fun b _ => unpackRecords (length b) b;
  SessionStore := list bytes;
  SessionStore_Del := fun keys key =>
    if bool_decide (key ∈ keys)
    then (filter (fun k => k <> key) keys, None)
    else (keys, Some (otherError 1));
  Addr_String := fun a => [byte_of_Z a];
  IsFatalOrCloseNotify := fun a =>
    (alertLevel a =? alert.Fatal) || (alertDescription a =? alert.CloseNotify)
|}.

Definition exampleConnection : Connection :=
  mkConnection exampleConn false None [] false false.

(** The datagram of the [close_notify] alert of [exampleConn]. *)
Definition closeNotifyHeader : Header :=
  mkHeader ContentTypeAlert 2 Version1_2 1 0 [].
Definition closeNotifyHeaderBytes : bytes :=
  [x15; xfe; xfd; x00; x01; x00; x00; x00; x00; x00; x00; x00; x02].
Definition closeNotifyDatagram : bytes :=
  Eval vm_compute in
    got [] (ciphersuite.Encrypt exampleSender closeNotifyHeader
              (closeNotifyHeaderBytes ++ [x01; x00]) (Ok exampleNonce)).

(** A server connection with a session ID, and a session store that does
    not hold its key. *)
Definition sessionState : State :=
  mkState 1 1 [5; 0] (Some exampleSuite) false [] [] [] [x01; x02].
Definition sessionConnection : Connection :=
  mkConnection (set_state exampleConn sessionState) false (Some [[x09]]) []
    false false.

(** *** Reading

    The peer with one datagram to read: the record of "hi", a
    [close_notify] alert and application data of epoch zero. *)
Definition threeRecords : bytes := hiDatagram ++ alertRecord ++ plainDataRecord.
Definition readingConnection : Connection :=
  mkConnection (set_nextConn peerConn [(threeRecords, 7)]) false None []
    false false.

(** The peer once it has handled the record of "hi". *)
Definition peerAfterHi : Conn :=
  fst (handleIncomingPacket peerConn hiDatagram 9 true false).

End Scenario.

(* ------------------------------------------------------------------ *)
(** ** The hash, the MAC and the Finished verify data on known vectors *)

Module PRFFacts.
Import PRF PRF.TestVerifyData.

(** SHA-256 of the empty string and of "abc" (FIPS 180-4 examples). *)
Example Sum256_empty :
  SHA256.Sum256 []
  = [ xe3; xb0; xc4; x42; x98; xfc; x1c; x14; x9a; xfb; xf4; xc8; x99; x6f; xb9; x24;
      x27; xae; x41; xe4; x64; x9b; x93; x4c; xa4; x95; x99; x1b; x78; x52; xb8; x55 ].
Proof. vm_compute. reflexivity. Qed.

Example Sum256_abc :
  SHA256.Sum256 [x61; x62; x63]
  = [ xba; x78; x16; xbf; x8f; x01; xcf; xea; x41; x41; x40; xde; x5d; xae; x22; x23;
      xb0; x03; x61; xa3; x96; x17; x7a; x9c; xb4; x10; xff; x61; xf2; x00; x15; xad ].
Proof. vm_compute. reflexivity. Qed.

(** HMAC-SHA-256 with key "Jefe" over "what do ya want for nothing?"
    (RFC 4231, test case 2). *)
Example hmac_rfc4231_2 :
  HMAC.hmac sha256_New
    (String.list_byte_of_string "Jefe"%string)
    (String.list_byte_of_string "what do ya want for nothing?"%string)
  = [ x5b; xdc; xc1; x46; xbf; x60; x75; x4e; x6a; x04; x24; x26; x08; x95; x75; xc7;
      x5a; x00; x3f; x08; x9d; x27; x39; x83; x9d; xec; x58; xb9; x64; xec; x38; x43 ].
Proof. vm_compute. reflexivity. Qed.

(** C6.  The client's verify data is the first 12 bytes of the PRF of the
    master secret, the label "client finished" and the hash of the
    transcript; on the transcript of [TestVerifyData] (ClientHello,
    ServerHello, Certificate, ServerKeyExchange, ServerHelloDone,
    ClientKeyExchange) with the master secret [91 6A BF 9D ...] and SHA-256
    it is [CF 91 96 26 F1 36 0C 53 6A AA D7 3A]. *)
Theorem VerifyDataClient_vector :
  (forall (masterSecret handshakeBodies : bytes) (h : HashFunc),
     VerifyDataClient masterSecret handshakeBodies h
     = Ok (take 12 (PRF h masterSecret
                      (String.list_byte_of_string "client finished"%string)
                      (hash_Sum h handshakeBodies) 12))) /\
  VerifyDataClient masterSecret finalMsg sha256_New
  = Ok [xcf; x91; x96; x26; xf1; x36; x0c; x53; x6a; xaa; xd7; x3a].
Proof.
  split.
  - intros ms bodies h. reflexivity.
  - vm_compute. reflexivity.
Qed.

End PRFFacts.

(* ------------------------------------------------------------------ *)
(** ** Facts about bytes and big-endian integers *)

Module BytesFacts.
Local Open Scope Z_scope.

Lemma byte_to_Z_range (b : byte) : 0 <= byte_to_Z b < 256.
Proof.
  unfold byte_to_Z. pose proof (Byte.to_N_bounded b). lia.
Qed.

Lemma byte_of_to_Z (b : byte) : byte_of_Z (byte_to_Z b) = b.
Proof.
  unfold byte_of_Z. rewrite Z.mod_small by apply byte_to_Z_range.
  unfold byte_to_Z. rewrite N2Z.id, Byte.of_to_N. reflexivity.
Qed.

Lemma byte_to_of_Z (z : Z) : byte_to_Z (byte_of_Z z) = z mod 256.
Proof.
  unfold byte_of_Z, byte_to_Z.
  assert (Hr : 0 <= z mod 256 < 256) by (apply Z.mod_pos_bound; lia).
  destruct (Byte.of_N (Z.to_N (z mod 256))) as [b|] eqn:E.
  - apply Byte.to_of_N in E. rewrite E. lia.
  - apply Byte.of_N_None_iff in E. lia.
Qed.

Lemma byte_of_Z_mod (z : Z) : byte_of_Z (z mod 256) = byte_of_Z z.
Proof. unfold byte_of_Z. rewrite Z.mod_mod by lia. reflexivity. Qed.

Lemma length_be_of_Z (n : nat) (z : Z) : length (be_of_Z n z) = n.
Proof.
  revert z. induction n as [|n IH]; intros z; simpl; [reflexivity|].
  rewrite length_app, IH. simpl. lia.
Qed.

Lemma length_PutUint16 (z : Z) : length (PutUint16 z) = 2%nat.
Proof. apply length_be_of_Z. Qed.

Lemma length_PutUint48 (z : Z) : length (PutUint48 z) = 6%nat.
Proof. apply length_be_of_Z. Qed.

Lemma be_to_Z_snoc (bs : bytes) (b : byte) :
  be_to_Z (bs ++ [b]) = be_to_Z bs * 256 + byte_to_Z b.
Proof. unfold be_to_Z. rewrite fold_left_app. reflexivity. Qed.

Lemma be_to_Z_nonneg (bs : bytes) : 0 <= be_to_Z bs.
Proof.
  induction bs as [|b bs IH] using rev_ind; [unfold be_to_Z; simpl; lia|].
  rewrite be_to_Z_snoc. pose proof (byte_to_Z_range b). lia.
Qed.

(** Writing back the number read from a byte string gives the string. *)
Lemma be_of_to_Z (bs : bytes) : be_of_Z (length bs) (be_to_Z bs) = bs.
Proof.
  induction bs as [|b bs IH] using rev_ind; [reflexivity|].
  rewrite length_app, Nat.add_comm. simpl.
  rewrite be_to_Z_snoc. pose proof (byte_to_Z_range b) as Hb.
  replace ((be_to_Z bs * 256 + byte_to_Z b) / 256) with (be_to_Z bs)
    by (apply Z.div_unique with (r := byte_to_Z b); lia).
  rewrite IH. f_equal. f_equal.
  rewrite <- byte_of_Z_mod.
  replace ((be_to_Z bs * 256 + byte_to_Z b) mod 256) with (byte_to_Z b)
    by (apply Z.mod_unique with (q := be_to_Z bs); lia).
  apply byte_of_to_Z.
Qed.

(** Reading back the bytes written for a number gives it modulo [256^n]. *)
Lemma be_to_of_Z (n : nat) (z : Z) :
  be_to_Z (be_of_Z n z) = z mod 256 ^ Z.of_nat n.
Proof.
  revert z. induction n as [|n IH]; intros z.
  - simpl. rewrite Z.mod_1_r. reflexivity.
  - cbn [be_of_Z]. rewrite be_to_Z_snoc, IH, byte_to_of_Z.
    rewrite Nat2Z.inj_succ, Z.pow_succ_r by lia.
    rewrite Z.rem_mul_r by lia. ring.
Qed.

Lemma be_of_Z_idem (n : nat) (z : Z) :
  be_of_Z n (be_to_Z (be_of_Z n z)) = be_of_Z n z.
Proof.
  pose proof (be_of_to_Z (be_of_Z n z)) as H.
  rewrite length_be_of_Z in H. exact H.
Qed.

Lemma be_of_Z_mod (n : nat) (z : Z) :
  be_of_Z n (z mod 256 ^ Z.of_nat n) = be_of_Z n z.
Proof. rewrite <- be_to_of_Z. apply be_of_Z_idem. Qed.

Lemma PutUint16_uint16 (z : Z) : PutUint16 (uint16 z) = PutUint16 z.
Proof. exact (be_of_Z_mod 2 z). Qed.

Lemma len_app {A} (l1 l2 : list A) : len (l1 ++ l2) = len l1 + len l2.
Proof. unfold len. rewrite length_app. lia. Qed.

Lemma len_nonneg {A} (l : list A) : 0 <= len l.
Proof. unfold len. lia. Qed.

Lemma be_to_Z_lt (bs : bytes) : be_to_Z bs < 256 ^ Z.of_nat (length bs).
Proof.
  induction bs as [|b bs IH] using rev_ind; [unfold be_to_Z; simpl; lia|].
  rewrite be_to_Z_snoc, length_app, Nat.add_comm. cbn [length Nat.add].
  rewrite Nat2Z.inj_succ, Z.pow_succ_r by lia.
  pose proof (byte_to_Z_range b). lia.
Qed.

Lemma Uint16_range (b : bytes) : 0 <= Uint16 b < 65536.
Proof.
  unfold Uint16. split; [apply be_to_Z_nonneg|].
  pose proof (be_to_Z_lt (take 2 b)) as H.
  assert (Hl : (length (take 2 b) <= 2)%nat) by (rewrite length_take; lia).
  assert (256 ^ Z.of_nat (length (take 2 b)) <= 256 ^ 2)
    by (apply Z.pow_le_mono_r; lia).
  change (256 ^ 2) with 65536 in *. lia.
Qed.

End BytesFacts.

(* ------------------------------------------------------------------ *)
(** ** The record header on the wire *)

Module HeaderFacts.
Import protocol recordlayer BytesFacts Notions.
Local Open Scope Z_scope.

Lemma Header_Marshal_layout (h : Header) :
  Header_Marshal h =
    Ok (layout (ContentType h) (Major (Version h)) (Minor (Version h))
          (PutUint16 (Epoch h)) (PutUint48 (SequenceNumber h))
          (if isCID h then ConnectionID h else [])
          (PutUint16 (ContentLen h))).
Proof. reflexivity. Qed.

Lemma length_layout ct major minor epoch seq cid length_ :
  length epoch = 2%nat -> length seq = 6%nat -> length length_ = 2%nat ->
  length (layout ct major minor epoch seq cid length_) = (13 + length cid)%nat.
Proof.
  intros He Hs Hl. unfold layout. simpl. rewrite !length_app, He, Hs, Hl. lia.
Qed.

Lemma Header_Marshal_length (h : Header) (hb : bytes) :
  Header_Marshal h = Ok hb -> len hb = Header_Size h.
Proof.
  rewrite Header_Marshal_layout. intros [= <-].
  unfold len, Header_Size, FixedHeaderSize.
  rewrite length_layout by apply length_be_of_Z.
  destruct (isCID h); unfold len; simpl; lia.
Qed.

(** Decoding a header laid out with a connection ID of the length the
    decoder expects. *)
Lemma Header_Unmarshal_layout (hdr : Header) ct major minor epoch seq cid length_ rest :
  length epoch = 2%nat -> length seq = 6%nat -> length length_ = 2%nat ->
  length cid = (if bool_decide (ct = ContentTypeConnectionID)
                then length (ConnectionID hdr) else O) ->
  Header_Unmarshal hdr (layout ct major minor epoch seq cid length_ ++ rest) =
    Ok (mkHeader ct (be_to_Z length_) (mkVersion major minor)
          (be_to_Z epoch) (be_to_Z seq)
          (if bool_decide (ct = ContentTypeConnectionID)
           then cid else ConnectionID hdr)).
Proof.
  intros He Hs Hl Hc. unfold Header_Unmarshal.
  assert (Hlen : len (layout ct major minor epoch seq cid length_ ++ rest)
                 = 13 + Z.of_nat (length cid) + len rest).
  { unfold len. rewrite length_app, length_layout by assumption. lia. }
  rewrite Hlen. unfold FixedHeaderSize.
  pose proof (len_nonneg rest) as Hr.
  destruct (Z.ltb_spec (13 + Z.of_nat (length cid) + len rest) 13) as [?|_]; [lia|].
  unfold layout. cbn [app].
  rewrite <- Hc.
  destruct (Z.ltb_spec (13 + Z.of_nat (length cid) + len rest)
              (13 + Z.of_nat (length cid))) as [?|_]; [lia|].
  f_equal. unfold Uint16, Uint48.
  rewrite <- !app_assoc.
  assert (Hd8 : drop 8 (epoch ++ seq ++ cid ++ length_ ++ rest) = cid ++ length_ ++ rest).
  { rewrite (app_assoc epoch seq). apply drop_app_length'.
    rewrite length_app, He, Hs. reflexivity. }
  assert (Hd8c : drop (8 + length cid) (epoch ++ seq ++ cid ++ length_ ++ rest)
                 = length_ ++ rest).
  { rewrite <- drop_drop, Hd8. apply drop_app_length'. reflexivity. }
  rewrite Hd8, Hd8c.
  rewrite (take_app_length' epoch) by done.
  rewrite (take_app_length' length_) by done.
  rewrite (drop_app_length' epoch) by done.
  rewrite (take_app_length' seq) by done.
  destruct (bool_decide (ct = ContentTypeConnectionID)); [|reflexivity].
  rewrite (take_app_length' cid) by reflexivity. reflexivity.
Qed.

(** A decoded epoch is a 16-bit number. *)
Lemma Header_Unmarshal_Epoch (h0 h : Header) (data : bytes) :
  Header_Unmarshal h0 data = Ok h -> 0 <= Epoch h < 65536.
Proof.
  unfold Header_Unmarshal.
  destruct (len data <? FixedHeaderSize); [discriminate|].
  destruct data as [|ct [|major [|minor rest]]]; try discriminate.
  destruct (_ <? _); [discriminate|].
  intros [= <-]. cbn [Epoch]. apply Uint16_range.
Qed.

End HeaderFacts.

(* ------------------------------------------------------------------ *)
(** ** Decrypt after Encrypt *)

Module GCMFacts.
Import protocol recordlayer ciphersuite Notions BytesFacts HeaderFacts Examples.
Local Open Scope Z_scope.

Lemma length_tagOf nonce plaintext ad : length (tagOf nonce plaintext ad) = 16%nat.
Proof.
  unfold tagOf. rewrite length_take, length_app, repeat_length. lia.
Qed.

Lemma tagAEAD_Open_Seal nonce plaintext ad :
  Open tagAEAD nonce (Seal tagAEAD nonce plaintext ad) ad = Ok plaintext.
Proof.
  cbn [Open Seal tagAEAD].
  rewrite length_app, length_tagOf.
  replace (length plaintext + 16 - 16)%nat with (length plaintext) by lia.
  destruct (Nat.ltb_spec (length plaintext + 16) 16) as [?|_]; [lia|].
  rewrite take_app_length, drop_app_length.
  rewrite bool_decide_eq_true_2 by reflexivity. reflexivity.
Qed.

Lemma tagAEAD_overhead nonce plaintext ad :
  len (Seal tagAEAD nonce plaintext ad) = len plaintext + gcmTagLength.
Proof.
  cbn [Seal tagAEAD]. rewrite len_app. unfold len at 2.
  rewrite length_tagOf. reflexivity.
Qed.

(** The additional data reads the header up to its length field, and reads
    epoch and sequence number as they stand on the wire. *)
Lemma additionalData_wire (h h' : Header) (n : Z) :
  ContentType h' = ContentType h ->
  Major (recordlayer.Version h') = Major (recordlayer.Version h) ->
  Minor (recordlayer.Version h') = Minor (recordlayer.Version h) ->
  Epoch h' = be_to_Z (PutUint16 (Epoch h)) ->
  SequenceNumber h' = be_to_Z (PutUint48 (SequenceNumber h)) ->
  (isCID h = true -> ConnectionID h' = ConnectionID h) ->
  additionalData h' n = additionalData h n.
Proof.
  intros Hct Hmaj Hmin He Hs Hcid.
  unfold additionalData, isCID in *. rewrite Hct.
  unfold generateAEADAdditionalData, generateAEADAdditionalDataCID.
  rewrite Hct, Hmaj, Hmin, He, Hs.
  unfold PutUint16, PutUint48. rewrite !be_of_Z_idem.
  destruct (bool_decide (ContentType h = ContentTypeConnectionID));
    [rewrite Hcid by reflexivity|]; reflexivity.
Qed.

Section RoundTrip.
Variables sender receiver : GCM.

(** Matching keys: the receiver's remote AEAD opens what the sender's local
    AEAD seals, and the tag takes 16 bytes. *)
Hypothesis matching_keys : forall nonce plaintext ad,
  Open (remoteGCM receiver) nonce (Seal (localGCM sender) nonce plaintext ad) ad
  = Ok plaintext.
Hypothesis tag_length : forall nonce plaintext ad,
  len (Seal (localGCM sender) nonce plaintext ad) = len plaintext + gcmTagLength.

(** Matching write IVs: four bytes of salt on both sides. *)
Hypothesis matching_iv :
  take 4 (remoteWriteIV receiver) = take 4 (localWriteIV sender).
Hypothesis sender_iv : 4 <= len (localWriteIV sender).
Hypothesis receiver_iv : 4 <= len (remoteWriteIV receiver).

Lemma Encrypt_layout (h : Header) (payload explicitNonce : bytes) :
  length explicitNonce = 8%nat ->
  let hb := layout (ContentType h) (Major (recordlayer.Version h))
              (Minor (recordlayer.Version h)) (PutUint16 (Epoch h))
              (PutUint48 (SequenceNumber h))
              (if isCID h then ConnectionID h else []) in
  let nonce := take 4 (localWriteIV sender) ++ explicitNonce in
  let sealed := Seal (localGCM sender) nonce payload
                  (additionalData h (len payload)) in
  Encrypt sender h (hb (PutUint16 (ContentLen h)) ++ payload) (Ok explicitNonce)
  = Ok (hb (PutUint16 (uint16 (len payload + 24))) ++ explicitNonce ++ sealed).
Proof.
  intros Hn hb nonce sealed.
  set (cid := if isCID h then ConnectionID h else []) in *.
  set (pre := ContentType h :: Major (recordlayer.Version h)
                :: Minor (recordlayer.Version h)
                :: PutUint16 (Epoch h) ++ PutUint48 (SequenceNumber h) ++ cid).
  assert (Hhb : forall l, hb l = pre ++ l).
  { intros l. unfold hb, layout, pre. cbn [app]. rewrite <- !app_assoc. reflexivity. }
  assert (Hlpre : length pre = (11 + length cid)%nat).
  { unfold pre. cbn [length].
    rewrite !length_app, length_PutUint16, length_PutUint48. lia. }
  assert (Hsize : Header_Size h = Z.of_nat (length pre) + 2).
  { unfold Header_Size, FixedHeaderSize, len. fold cid.
    rewrite Hlpre. subst cid. destruct (isCID h); simpl; lia. }
  rewrite !Hhb. unfold Encrypt.
  set (old := PutUint16 (ContentLen h)).
  assert (Hold : length old = 2%nat) by apply length_PutUint16.
  assert (Hraw : Z.to_nat (Header_Size h) = length (pre ++ old)).
  { rewrite length_app, Hold. lia. }
  pose proof (len_nonneg payload) as Hp.
  assert (Hlen : len ((pre ++ old) ++ payload) = Header_Size h + len payload).
  { rewrite len_app. unfold len at 1. rewrite length_app, Hold. lia. }
  rewrite Hlen.
  destruct (Z.ltb_spec (Header_Size h + len payload) (Header_Size h)) as [?|_]; [lia|].
  destruct (Z.ltb_spec (len (localWriteIV sender)) 4) as [?|_]; [lia|].
  unfold slice_from, slice_to. rewrite Hraw, drop_app_length, take_app_length.
  assert (Hiv : length (take 4 (localWriteIV sender)) = 4%nat).
  { rewrite length_take. unfold len in sender_iv. lia. }
  rewrite (drop_app_length' (take 4 (localWriteIV sender))) by done.
  fold nonce. fold sealed. f_equal.
  assert (Hr : len ((pre ++ old) ++ explicitNonce ++ sealed) - Header_Size h
               = len payload + 24).
  { rewrite !len_app. unfold len at 1 2 3. rewrite Hold, Hn.
    unfold sealed. rewrite tag_length. unfold gcmTagLength. lia. }
  rewrite Hr. unfold overwrite.
  replace (Z.to_nat (Header_Size h - 2)) with (length pre) by lia.
  rewrite <- !app_assoc, take_app_length, length_PutUint16.
  replace (length pre + 2)%nat with (length (pre ++ old))
    by (rewrite length_app, Hold; reflexivity).
  rewrite (app_assoc pre old), drop_app_length.
  subst hb. cbv beta. rewrite Hhb, <- app_assoc. reflexivity.
Qed.

(** A ChangeCipherSpec record goes through [Decrypt] as it stands, were it
    encrypted or not. *)
Lemma Decrypt_ChangeCipherSpec (g : GCM) (hdr h : Header) (in_ : bytes) :
  Header_Unmarshal hdr in_ = Ok h ->
  ContentType h = ContentTypeChangeCipherSpec ->
  Decrypt g hdr in_ = Ok in_.
Proof.
  intros Hh Hc. unfold Decrypt. rewrite Hh.
  rewrite bool_decide_eq_true_2 by exact Hc. reflexivity.
Qed.

(** C1 (amended).  With matching keys and write IVs, for a record that is not
    a ChangeCipherSpec and any 8-byte explicit nonce, [Decrypt] of what
    [Encrypt] returns is the header followed by the original payload, the
    header's length field holding the length of the encrypted body (payload
    plus explicit nonce and tag, 24 bytes more) instead of the original
    length. *)
Theorem Decrypt_Encrypt (h hdr : Header) (hb payload explicitNonce : bytes) :
  Header_Marshal h = Ok hb ->
  ContentType h <> ContentTypeChangeCipherSpec ->
  (isCID h = true -> length (ConnectionID hdr) = length (ConnectionID h)) ->
  length explicitNonce = 8%nat ->
  exists encrypted hb',
    Encrypt sender h (hb ++ payload) (Ok explicitNonce) = Ok encrypted /\
    Header_Marshal (withContentLen h (uint16 (len payload + 24))) = Ok hb' /\
    Decrypt receiver hdr encrypted = Ok (hb' ++ payload).
Proof.
  intros Hm Hccs Hcid Hn. rewrite Header_Marshal_layout in Hm.
  injection Hm as <-.
  eexists. eexists. split; [apply Encrypt_layout; exact Hn|].
  split; [reflexivity|].
  set (cid := if isCID h then ConnectionID h else []).
  set (L := PutUint16 (uint16 (len payload + 24))).
  set (nonce := take 4 (localWriteIV sender) ++ explicitNonce).
  set (sealed := Seal (localGCM sender) nonce payload (additionalData h (len payload))).
  unfold Decrypt.
  rewrite Header_Unmarshal_layout; try apply length_be_of_Z.
  2:{ subst cid. unfold isCID in *.
      destruct (bool_decide (ContentType h = ContentTypeConnectionID));
        [symmetry; apply Hcid; reflexivity | reflexivity]. }
  set (h' := mkHeader (ContentType h) (be_to_Z L)
               (mkVersion (Major (recordlayer.Version h))
                  (Minor (recordlayer.Version h)))
               (be_to_Z (PutUint16 (Epoch h)))
               (be_to_Z (PutUint48 (SequenceNumber h)))
               (if bool_decide (ContentType h = ContentTypeConnectionID)
                then cid else ConnectionID hdr)).
  assert (Hsz : Header_Size h' = Header_Size h).
  { unfold Header_Size, isCID, h'. cbn [ContentType ConnectionID]. subst cid.
    unfold isCID. destruct (bool_decide (ContentType h = ContentTypeConnectionID));
      reflexivity. }
  assert (Had : forall n, additionalData h' n = additionalData h n).
  { intros n. apply additionalData_wire; try reflexivity.
    unfold h', isCID. cbn [ConnectionID]. subst cid. unfold isCID.
    intros ->. reflexivity. }
  replace (ContentType h') with (ContentType h) by reflexivity.
  rewrite bool_decide_eq_false_2 by exact Hccs.
  rewrite Hsz.
  set (hbL := layout _ _ _ _ _ _ _).
  assert (HhbL : Z.of_nat (length hbL) = Header_Size h).
  { unfold hbL. rewrite length_layout; try apply length_be_of_Z.
    unfold Header_Size, FixedHeaderSize, len. subst cid.
    destruct (isCID h); simpl; lia. }
  assert (Hseal : len sealed = len payload + 16).
  { unfold sealed. rewrite tag_length. reflexivity. }
  pose proof (len_nonneg payload) as Hp.
  assert (Hlen : len (hbL ++ explicitNonce ++ sealed) = Header_Size h + 8 + len sealed).
  { rewrite !len_app. unfold len at 1 2. rewrite HhbL, Hn. lia. }
  rewrite Hlen.
  destruct (Z.leb_spec (Header_Size h + 8 + len sealed) (8 + Header_Size h)) as [?|_]; [lia|].
  destruct (Z.ltb_spec (len (remoteWriteIV receiver)) 4) as [?|_]; [lia|].
  unfold slice_to, slice_from.
  replace (Z.to_nat (Header_Size h)) with (length hbL) by lia.
  replace (Z.to_nat (Header_Size h + 8)) with (length (hbL ++ explicitNonce))
    by (rewrite length_app, Hn; lia).
  rewrite drop_app_length, take_app_length.
  rewrite (app_assoc hbL explicitNonce), drop_app_length.
  rewrite (take_app_length' explicitNonce) by done.
  rewrite matching_iv. fold nonce.
  rewrite Had, Hseal. unfold gcmTagLength.
  replace (len payload + 16 - 16) with (len payload) by lia.
  fold sealed. unfold sealed at 1. rewrite matching_keys. reflexivity.
Qed.

End RoundTrip.
(** A record to run the model on: application data at epoch 1. *)

Lemma Decrypt_Encrypt_witness :
  exists encrypted hb',
    Encrypt exampleSender exampleHeader (exampleHeaderBytes ++ examplePayload)
      (Ok exampleNonce) = Ok encrypted /\
    Header_Marshal (withContentLen exampleHeader (uint16 (len examplePayload + 24)))
      = Ok hb' /\
    Decrypt exampleReceiver zeroHeader encrypted = Ok (hb' ++ examplePayload).
Proof.
  apply (Decrypt_Encrypt exampleSender exampleReceiver
           tagAEAD_Open_Seal tagAEAD_overhead eq_refl).
  - vm_compute. discriminate.
  - vm_compute. discriminate.
  - reflexivity.
  - vm_compute. discriminate.
  - vm_compute. discriminate.
  - reflexivity.
Defined.

(** C1 as stated fails: on the example record the bytes [Decrypt] returns
    after [Encrypt] are not the original ones; the length field of the header
    reads 27 (payload, explicit nonce and tag) where the original read 3. *)
Lemma Decrypt_Encrypt_not_identity :
  Header_Marshal exampleHeader = Ok exampleHeaderBytes /\
  (exists encrypted,
     Encrypt exampleSender exampleHeader (exampleHeaderBytes ++ examplePayload)
       (Ok exampleNonce) = Ok encrypted /\
     Decrypt exampleReceiver zeroHeader encrypted
       = Ok ([x17; xfe; xfd; x00; x01; x00; x00; x00; x00; x00; x05; x00; x1b]
               ++ examplePayload)) /\
  [x17; xfe; xfd; x00; x01; x00; x00; x00; x00; x00; x05; x00; x1b] ++ examplePayload
    <> exampleHeaderBytes ++ examplePayload.
Proof.
  split; [reflexivity|]. split.
  - eexists. split.
    + vm_compute. reflexivity.
    + vm_compute. reflexivity.
  - vm_compute. discriminate.
Qed.

End GCMFacts.

(* ------------------------------------------------------------------ *)
(** ** ServerHello: Marshal after Unmarshal *)

Module ServerHelloFacts.
Import handshake BytesFacts.
Local Open Scope Z_scope.

Lemma at_app (pre : bytes) (b : byte) (rest : bytes) (k : Z) :
  Z.to_nat k = length pre -> at_ (pre ++ b :: rest) k = b.
Proof. intros H. unfold at_. rewrite H. apply nth_middle. Qed.

Lemma slice_from_app (pre rest : bytes) (k : Z) :
  Z.to_nat k = length pre -> slice_from k (pre ++ rest) = rest.
Proof. intros H. unfold slice_from. rewrite H. apply drop_app_length. Qed.

Lemma slice_app (pre mid rest : bytes) (i j : Z) :
  Z.to_nat i = length pre -> Z.to_nat (j - i) = length mid ->
  slice (pre ++ mid ++ rest) i j = mid.
Proof.
  intros Hi Hj. unfold slice. rewrite Hi, Hj, drop_app_length.
  apply take_app_length.
Qed.

Lemma fixed_app (n : nat) (b rest : bytes) :
  length b = n -> fixed n (b ++ rest) = b.
Proof.
  intros <-. unfold fixed. rewrite <- app_assoc. apply take_app_length.
Qed.

Lemma fixed_exact (n : nat) (b : bytes) : length b = n -> fixed n b = b.
Proof.
  intros <-. unfold fixed. apply take_app_length.
Qed.

(** The fixed-width random value survives decoding and encoding. *)
Lemma Random_MarshalFixed_UnmarshalFixed (b : bytes) :
  length b = 32%nat -> Random_MarshalFixed (Random_UnmarshalFixed b) = b.
Proof.
  intros Hb. unfold Random_MarshalFixed, Random_UnmarshalFixed.
  cbn [GMTUnixTime RandomBytes].
  rewrite (fixed_exact 28 (drop 4 b)) by (rewrite length_drop; lia).
  rewrite (fixed_exact 28 (drop 4 b)) by (rewrite length_drop; lia).
  unfold PutUint32, Uint32, uint32.
  change 4294967296 with (256 ^ Z.of_nat 4). rewrite be_of_Z_mod.
  assert (H4 : length (take 4 b) = 4%nat) by (rewrite length_take; lia).
  rewrite <- H4 at 1. rewrite be_of_to_Z. apply take_drop.
Qed.

Lemma CompressionMethods_ID (b : byte) (cm : protocol.CompressionMethod) :
  protocol.CompressionMethods b = Some cm -> protocol.ID cm = b.
Proof.
  unfold protocol.CompressionMethods.
  destruct (bool_decide (b = x00)) eqn:E; [|discriminate].
  apply bool_decide_eq_true_1 in E. intros [= <-]. symmetry. exact E.
Qed.

Section WithCodec.
Context {codec : extension.Codec}.

(** What [Unmarshal] does on an encoding laid out field by field. *)
Lemma Unmarshal_encoding (m0 : MessageServerHello) major minor random sidLen sid
    cipher compression extensions :
  length random = 32%nat ->
  length sid = Z.to_nat (byte_to_Z sidLen) ->
  length cipher = 2%nat ->
  MessageServerHello_Unmarshal m0
    (encoding major minor random sidLen sid cipher compression extensions) =
  let m := mkMessageServerHello (protocol.mkVersion major minor)
             (Random_UnmarshalFixed random) sid (Some (be_to_Z cipher))
             (CompressionMethod m0) (Extensions m0) in
  match protocol.CompressionMethods compression with
  | None => (m, Some errInvalidCompressionMethod)
  | Some cm =>
      let m := setCompressionMethod m cm in
      if len extensions <=? 0 then (setExtensions m [], None) else
      match extension.Unmarshal extensions with
      | Err err => (m, Some err)
      | Ok es => (setExtensions m es, None)
      end
  end.
Proof.
  intros Hr Hs Hc.
  pose proof (byte_to_Z_range sidLen) as Hn.
  set (n := byte_to_Z sidLen) in *.
  set (data := encoding major minor random sidLen sid cipher compression extensions).
  assert (Hlen : len data = 38 + n + len extensions).
  { unfold data, encoding, len. rewrite !length_app. cbn [length].
    rewrite Hr, Hs, Hc. lia. }
  pose proof (len_nonneg extensions) as He.
  unfold MessageServerHello_Unmarshal, messageServerHelloVariableWidthStart,
    RandomLength, RandomBytesLength.
  rewrite Hlen.
  destruct (Z.ltb_spec (38 + n + len extensions) (2 + (28 + 4))) as [?|_]; [lia|].
  destruct (Z.leb_spec (38 + n + len extensions) (2 + (28 + 4) + 1)) as [?|_]; [lia|].
  assert (H0 : at_ data 0 = major) by reflexivity.
  assert (H1 : at_ data 1 = minor) by reflexivity.
  assert (Hrand : fixed (Z.to_nat (28 + 4)) (slice_from 2 data) = random).
  { unfold data, encoding. rewrite (slice_from_app [major; minor]) by reflexivity.
    apply fixed_app. rewrite Hr. reflexivity. }
  assert (Hsl : at_ data (2 + (28 + 4) + 1 - 1) = sidLen).
  { unfold data, encoding. rewrite (app_assoc [major; minor] random).
    apply at_app. rewrite length_app, Hr. reflexivity. }
  rewrite H0, H1, Hrand, Hsl. fold n.
  destruct (Z.leb_spec (38 + n + len extensions) (2 + (28 + 4) + 1 + n)) as [?|_]; [lia|].
  assert (Hsid : slice data (2 + (28 + 4) + 1) (2 + (28 + 4) + 1 + n) = sid).
  { unfold data, encoding.
    rewrite (app_assoc [major; minor] random),
      (app_assoc ([major; minor] ++ random) [sidLen]).
    apply slice_app.
    - rewrite !length_app, Hr. reflexivity.
    - rewrite Hs. f_equal. lia. }
  rewrite Hsid. cbn [SessionID setSessionID setRandom setVersion].
  assert (Hls : len sid = n) by (unfold len; rewrite Hs; lia).
  rewrite Hls.
  destruct (Z.ltb_spec (38 + n + len extensions) (2 + (28 + 4) + 1 + n + 2)) as [?|_]; [lia|].
  assert (Hcs : Uint16 (slice_from (2 + (28 + 4) + 1 + n) data) = be_to_Z cipher).
  { unfold data, encoding.
    rewrite (app_assoc [major; minor] random),
      (app_assoc ([major; minor] ++ random) [sidLen]),
      (app_assoc (([major; minor] ++ random) ++ [sidLen]) sid).
    rewrite slice_from_app by (rewrite !length_app, Hr, Hs; cbn [length]; lia).
    unfold Uint16. rewrite take_app_length' by done. reflexivity. }
  rewrite Hcs.
  destruct (Z.leb_spec (38 + n + len extensions) (2 + (28 + 4) + 1 + n + 2)) as [?|_]; [lia|].
  assert (Hcm : at_ data (2 + (28 + 4) + 1 + n + 2) = compression).
  { unfold data, encoding.
    rewrite (app_assoc [major; minor] random),
      (app_assoc ([major; minor] ++ random) [sidLen]),
      (app_assoc (([major; minor] ++ random) ++ [sidLen]) sid),
      (app_assoc ((([major; minor] ++ random) ++ [sidLen]) ++ sid) cipher).
    apply at_app. rewrite !length_app, Hr, Hs, Hc. cbn [length]. lia. }
  rewrite Hcm. cbv zeta.
  destruct (protocol.CompressionMethods compression) as [cm|]; [|reflexivity].
  assert (Hext : slice_from (2 + (28 + 4) + 1 + n + 2 + 1) data = extensions).
  { unfold data, encoding.
    rewrite (app_assoc [major; minor] random),
      (app_assoc ([major; minor] ++ random) [sidLen]),
      (app_assoc (([major; minor] ++ random) ++ [sidLen]) sid),
      (app_assoc ((([major; minor] ++ random) ++ [sidLen]) ++ sid) cipher),
      (app_assoc (((([major; minor] ++ random) ++ [sidLen]) ++ sid) ++ cipher)
         [compression]).
    apply slice_from_app. rewrite !length_app, Hr, Hs, Hc. cbn [length]. lia. }
  rewrite Hext.
  destruct (Z.leb_spec (38 + n + len extensions) (2 + (28 + 4) + 1 + n + 2 + 1)) as [H|H];
    destruct (Z.leb_spec (len extensions) 0) as [H'|H']; try lia; reflexivity.
Qed.

Lemma split_at (l : bytes) (k : nat) :
  (k <= length l)%nat -> exists a b, l = a ++ b /\ length a = k.
Proof.
  intros Hk. exists (take k l), (drop k l). split.
  - symmetry. apply take_drop.
  - rewrite length_take. lia.
Qed.

Lemma split_head (l : bytes) :
  (1 <= length l)%nat -> exists x r, l = x :: r.
Proof. destruct l as [|x r]; simpl; [lia|]. intros _. eauto. Qed.

(** An encoding long enough for its session ID, cipher suite and
    compression method splits into its fields. *)
Lemma encoding_of (data : bytes) :
  38 + byte_to_Z (at_ data 34) <= len data ->
  exists major minor random sidLen sid cipher compression extensions,
    data = encoding major minor random sidLen sid cipher compression extensions /\
    length random = 32%nat /\
    length sid = Z.to_nat (byte_to_Z sidLen) /\
    length cipher = 2%nat /\
    extensionsOffset data = 38 + byte_to_Z sidLen /\
    len data = 38 + byte_to_Z sidLen + len extensions.
Proof.
  intros Hlen. pose proof (byte_to_Z_range (at_ data 34)) as Hn.
  unfold len in Hlen.
  destruct data as [|major [|minor rest]]; cbn [length] in Hlen; try lia.
  destruct (split_at rest 32) as (random & rest2 & -> & Hr); [lia|].
  rewrite length_app, Hr in Hlen.
  destruct (split_head rest2) as (sidLen & rest3 & ->); [lia|].
  assert (Hsl : at_ (major :: minor :: random ++ sidLen :: rest3) 34 = sidLen).
  { apply (at_app ([major; minor] ++ random)). rewrite length_app, Hr. reflexivity. }
  rewrite Hsl in *. cbn [length] in Hlen.
  destruct (split_at rest3 (Z.to_nat (byte_to_Z sidLen))) as (sid & rest4 & -> & Hs); [lia|].
  rewrite length_app, Hs in Hlen.
  destruct (split_at rest4 2) as (cipher & rest5 & -> & Hc); [lia|].
  rewrite length_app, Hc in Hlen.
  destruct (split_head rest5) as (compression & extensions & ->); [lia|].
  exists major, minor, random, sidLen, sid, cipher, compression, extensions.
  repeat split; try assumption.
  - unfold extensionsOffset, messageServerHelloVariableWidthStart, RandomLength,
      RandomBytesLength.
    change (2 + (28 + 4)) with 34. rewrite Hsl. lia.
  - unfold len. cbn [length]. rewrite !length_app. cbn [length].
    rewrite !length_app. cbn [length]. rewrite Hr, Hs, Hc. lia.
Qed.

(** [Unmarshal] succeeds only on an encoding that holds all fixed fields. *)
Lemma Unmarshal_ok_length (m0 m : MessageServerHello) (data : bytes) :
  MessageServerHello_Unmarshal m0 data = (m, None) ->
  38 + byte_to_Z (at_ data 34) <= len data.
Proof.
  unfold MessageServerHello_Unmarshal, messageServerHelloVariableWidthStart,
    RandomLength, RandomBytesLength.
  change (2 + (28 + 4) + 1 - 1) with 34. change (2 + (28 + 4) + 1) with 35.
  change (2 + (28 + 4)) with 34.
  set (n := byte_to_Z (at_ data 34)).
  pose proof (byte_to_Z_range (at_ data 34)) as Hn. fold n in Hn.
  destruct (Z.ltb_spec (len data) 34) as [?|H1]; [discriminate|].
  destruct (Z.leb_spec (len data) 35) as [?|H2]; [discriminate|].
  destruct (Z.leb_spec (len data) (35 + n)) as [?|H3]; [discriminate|].
  cbn [SessionID setSessionID].
  assert (Hls : len (slice data 35 (35 + n)) = n).
  { unfold len, slice. rewrite length_take, length_drop. unfold len in H3. lia. }
  rewrite Hls.
  destruct (Z.ltb_spec (len data) (35 + n + 2)) as [?|H4]; [discriminate|].
  destruct (Z.leb_spec (len data) (35 + n + 2)) as [?|H5]; [discriminate|].
  intros _. lia.
Qed.

(** Marshal after Unmarshal, on an encoding that carries an extensions
    block which the extension codec writes back as it stands. *)
Lemma Marshal_Unmarshal (m0 m : MessageServerHello) (data : bytes) :
  MessageServerHello_Unmarshal m0 data = (m, None) ->
  extensionsOffset data < len data ->
  extension.Marshal (Extensions m) = Ok (slice_from (extensionsOffset data) data) ->
  MessageServerHello_Marshal m = Ok data.
Proof.
  intros Hu Hoff Hext.
  destruct (encoding_of data (Unmarshal_ok_length _ _ _ Hu))
    as (major & minor & random & sidLen & sid & cipher & compression & extensions
        & -> & Hr & Hs & Hc & Ho & Hl).
  rewrite Ho in *.
  assert (Hsf : slice_from (38 + byte_to_Z sidLen)
                  (encoding major minor random sidLen sid cipher compression extensions)
                = extensions).
  { unfold encoding.
    rewrite (app_assoc [major; minor] random),
      (app_assoc ([major; minor] ++ random) [sidLen]),
      (app_assoc (([major; minor] ++ random) ++ [sidLen]) sid),
      (app_assoc ((([major; minor] ++ random) ++ [sidLen]) ++ sid) cipher),
      (app_assoc (((([major; minor] ++ random) ++ [sidLen]) ++ sid) ++ cipher)
         [compression]).
    pose proof (byte_to_Z_range sidLen).
    apply slice_from_app. rewrite !length_app, Hr, Hs, Hc. cbn [length]. lia. }
  rewrite Hsf in Hext.
  rewrite Unmarshal_encoding in Hu by assumption. cbv zeta in Hu.
  destruct (protocol.CompressionMethods compression) as [cm|] eqn:Hcm; [|discriminate].
  destruct (Z.leb_spec (len extensions) 0) as [?|_]; [lia|].
  destruct (extension.Unmarshal extensions) as [es|]; [|discriminate].
  injection Hu as <-.
  unfold MessageServerHello_Marshal.
  cbn [CipherSuiteID CompressionMethod Version Random_ SessionID Extensions
       setExtensions setCompressionMethod protocol.Major protocol.Minor] in *.
  rewrite Hext, Random_MarshalFixed_UnmarshalFixed by assumption.
  rewrite (CompressionMethods_ID _ _ Hcm).
  assert (Hsl : byte_of_Z (len sid) = sidLen).
  { unfold len. rewrite Hs, Z2Nat.id by apply byte_to_Z_range. apply byte_of_to_Z. }
  rewrite Hsl. unfold PutUint16. rewrite <- Hc, be_of_to_Z.
  unfold encoding. rewrite <- !app_assoc. reflexivity.
Qed.

Lemma rawServerHello_encoding :
  rawServerHello =
    encoding xfe xfd
      [ x21; x63; x32; x21; x81; x0e; x98; x6c; x85; x3d; xa4; x39; xaf; x5f;
        xd6; x5c; xcc; x20; x7f; x7c; x78; xf1; x5f; x7e; x1c; xb7; xa1; x1e;
        xcf; x63; x84; x28 ]
      x00 [] [xc0; x2b] x00 [x00; x00].
Proof. reflexivity. Qed.

(** The test vector, for a codec that reads the block [00 00] as no
    extension and writes no extension as [00 00]. *)
Lemma rawServerHello_roundtrip :
  extension.Unmarshal [x00; x00] = Ok [] ->
  extension.Marshal [] = Ok [x00; x00] ->
  MessageServerHello_Unmarshal emptyMessageServerHello rawServerHello
    = (parsedServerHello, None) /\
  MessageServerHello_Marshal parsedServerHello = Ok rawServerHello.
Proof.
  intros Hu Hm. split.
  - rewrite rawServerHello_encoding, Unmarshal_encoding by reflexivity.
    cbv zeta. change (protocol.CompressionMethods x00)
      with (Some (protocol.mkCompressionMethod x00)).
    change (len [x00; x00] <=? 0) with false. cbv iota. rewrite Hu.
    reflexivity.
  - unfold MessageServerHello_Marshal, parsedServerHello.
    cbn [CipherSuiteID CompressionMethod Extensions]. rewrite Hm.
    vm_compute. reflexivity.
Qed.

(** An encoding that stops after the compression method is accepted, and
    written back with an empty extensions block appended. *)
Lemma no_extensions_block :
  extension.Marshal [] = Ok [x00; x00] ->
  MessageServerHello_Unmarshal emptyMessageServerHello (take 38 rawServerHello)
    = (parsedServerHello, None) /\
  MessageServerHello_Marshal parsedServerHello
    = Ok (take 38 rawServerHello ++ [x00; x00]).
Proof.
  intros Hm. split.
  - vm_compute. reflexivity.
  - unfold MessageServerHello_Marshal, parsedServerHello.
    cbn [CipherSuiteID CompressionMethod Extensions]. rewrite Hm.
    vm_compute. reflexivity.
Qed.


End WithCodec.

Import ExampleCodec.



End ServerHelloFacts.

(* ------------------------------------------------------------------ *)
(** ** Coalescing records into datagrams *)

Module CompactFacts.
Import dtls BytesFacts Notions.
Local Open Scope Z_scope.

Lemma within_nil mtu : within mtu [].
Proof. intros before r after H. destruct before; discriminate. Qed.

Lemma within_singleton mtu r : within mtu [r].
Proof.
  intros before r' after H Hpos.
  destruct before as [|x before].
  - unfold len in Hpos. simpl in Hpos. lia.
  - destruct before; discriminate.
Qed.

Lemma within_snoc mtu group r :
  within mtu group ->
  (0 <? len (concat group)) && (mtu <=? len (concat group) + len r) = false ->
  within mtu (group ++ [r]).
Proof.
  intros Hg Hcond before r' after Heq Hpos.
  destruct after as [|x after _] using rev_ind.
  - apply app_inj_tail in Heq as [<- <-].
    apply andb_false_iff in Hcond as [H|H].
    + apply Z.ltb_ge in H. lia.
    + apply Z.leb_gt in H. lia.
  - change (r' :: after ++ [x]) with ((r' :: after) ++ [x]) in Heq.
    rewrite app_assoc in Heq. apply app_inj_tail in Heq as [-> _].
    apply (Hg before r' after); [reflexivity | assumption].
Qed.

Lemma compactLoop_groupLoop mtu rawPackets groups current :
  compactLoop mtu rawPackets (map (@concat byte) groups) (concat current)
  = map (@concat byte) (groupLoop mtu rawPackets groups current).
Proof.
  revert groups current.
  induction rawPackets as [|r rest IH]; intros groups current; cbn [compactLoop groupLoop].
  - rewrite map_app. reflexivity.
  - destruct ((0 <? len (concat current)) && (mtu <=? len (concat current) + len r)).
    + rewrite <- IH, map_app. cbn [map concat app]. rewrite app_nil_r. reflexivity.
    + rewrite <- IH, concat_app. cbn [concat]. rewrite app_nil_r. reflexivity.
Qed.

Lemma concat_groupLoop mtu rawPackets groups current :
  concat (groupLoop mtu rawPackets groups current)
  = concat groups ++ current ++ rawPackets.
Proof.
  revert groups current.
  induction rawPackets as [|r rest IH]; intros groups current; cbn [groupLoop].
  - rewrite concat_app. cbn [concat]. rewrite !app_nil_r. reflexivity.
  - destruct ((0 <? len (concat current)) && (mtu <=? len (concat current) + len r)).
    + rewrite IH, concat_app. cbn [concat]. rewrite app_nil_r, <- app_assoc.
      reflexivity.
    + rewrite IH, <- app_assoc. reflexivity.
Qed.

Lemma within_groupLoop mtu rawPackets groups current :
  Forall (within mtu) groups -> within mtu current ->
  Forall (within mtu) (groupLoop mtu rawPackets groups current).
Proof.
  revert groups current.
  induction rawPackets as [|r rest IH]; intros groups current Hgs Hc; cbn [groupLoop].
  - apply Forall_app. split; [assumption|]. constructor; [assumption|constructor].
  - destruct ((0 <? len (concat current)) && (mtu <=? len (concat current) + len r))
      eqn:Hcond.
    + apply IH; [|apply within_singleton].
      apply Forall_app. split; [assumption|]. constructor; [assumption|constructor].
    + apply IH; [assumption|]. apply within_snoc; assumption.
Qed.

Section WithPlatform.
Context {platform : Platform}.

Lemma compactRawPackets_grouping (c : Conn) (rawPackets : list bytes) :
  compactRawPackets c rawPackets
  = map (@concat byte) (grouping (maximumTransmissionUnit c) rawPackets).
Proof.
  unfold compactRawPackets, grouping.
  destruct (len rawPackets =? 1) eqn:E.
  - destruct rawPackets as [|r [|r' rest]]; try discriminate E.
    + cbn [map concat]. rewrite app_nil_r. reflexivity.
    + apply Z.eqb_eq in E. unfold len in E. cbn [length] in E. lia.
  - exact (compactLoop_groupLoop _ rawPackets [] []).
Qed.

Lemma concat_grouping mtu (rawPackets : list bytes) :
  concat (grouping mtu rawPackets) = rawPackets.
Proof.
  unfold grouping. destruct (len rawPackets =? 1).
  - cbn [concat]. apply app_nil_r.
  - rewrite concat_groupLoop. reflexivity.
Qed.

Lemma within_grouping mtu (rawPackets : list bytes) :
  Forall (within mtu) (grouping mtu rawPackets).
Proof.
  unfold grouping. destruct (len rawPackets =? 1) eqn:E.
  - constructor; [|constructor].
    destruct rawPackets as [|r [|r' rest]].
    + apply within_nil.
    + apply within_singleton.
    + apply Z.eqb_eq in E. unfold len in E. cbn [length] in E. lia.
  - apply within_groupLoop; [constructor | apply within_nil].
Qed.


End WithPlatform.

(** Three records of 500, 600 and 200 bytes under an MTU of 1200: the first
    two share a datagram, the third opens the next one. *)
Example compactRawPackets_example :
  map len (compactRawPackets ExamplePlatform.exampleConn
             [repeat x01 500; repeat x02 600; repeat x03 200])
  = [1100; 200].
Proof. vm_compute. reflexivity. Qed.

End CompactFacts.

(* ------------------------------------------------------------------ *)
(** ** Read and Write against the handshake, the deadline and the buffer *)

Module ReadWriteFacts.
Import protocol recordlayer dtls BytesFacts.
Local Open Scope Z_scope.

Section WithPlatform.
Context {platform : Platform}.

Lemma copy_fits (p val : bytes) :
  len val <= len p -> copy p val = val ++ drop (length val) p.
Proof.
  intros H. unfold copy. rewrite take_ge by (unfold len in H; lia). reflexivity.
Qed.

Lemma Read_guard (c : Conn) (p : bytes) :
  isHandshakeCompletedSuccessfully c = false ->
  Read c p = (c, Returned p 0 (Some errHandshakeInProgress)).
Proof. intros H. unfold Read. rewrite H. reflexivity. Qed.

Lemma Read_deadline (c : Conn) (p : bytes) :
  isHandshakeCompletedSuccessfully c = true ->
  readDeadline c = true ->
  Read c p = (c, Returned p 0 (Some errDeadlineExceeded)).
Proof. intros H Hd. unfold Read. rewrite H, Hd. reflexivity. Qed.

Lemma Read_bytes (c : Conn) (p val : bytes) (rest : list chanItem) :
  isHandshakeCompletedSuccessfully c = true ->
  readDeadline c = false ->
  chan_items (decrypted c) = ItemBytes val :: rest ->
  Read c p =
    if len p <? len val
    then (received c rest, Returned p 0 (Some errBufferTooSmall))
    else (received c rest, Returned (copy p val) (len val) None).
Proof.
  intros H Hd Hc. unfold Read. rewrite H, Hd, Hc. cbn [negb].
  destruct (len p <? len val); reflexivity.
Qed.

Lemma Read_fits (c : Conn) (p val : bytes) (rest : list chanItem) :
  isHandshakeCompletedSuccessfully c = true ->
  readDeadline c = false ->
  chan_items (decrypted c) = ItemBytes val :: rest ->
  len val <= len p ->
  Read c p = (received c rest,
              Returned (val ++ drop (length val) p) (len val) None).
Proof.
  intros H Hd Hc Hl. rewrite (Read_bytes c p val rest H Hd Hc).
  destruct (Z.ltb_spec (len p) (len val)) as [?|_]; [lia|].
  rewrite copy_fits by assumption. reflexivity.
Qed.


(** C10.  When [Read] returns [errBufferTooSmall] on an application
    record, the record has left the channel: the connection holds the rest
    of the channel only, and a following [Read] with a buffer long enough
    for the next record returns that next record. *)
Theorem Read_too_small_drops_record (c c' : Conn) (p p' val : bytes) (n : Z)
    (rest : list chanItem) :
  Read c p = (c', Returned p' n (Some errBufferTooSmall)) ->
  chan_items (decrypted c) = ItemBytes val :: rest ->
  len p < len val /\
  c' = received c rest /\
  chan_items (decrypted c') = rest /\
  p' = p /\ n = 0 /\
  forall (next : bytes) (rest' : list chanItem) (q : bytes),
    rest = ItemBytes next :: rest' ->
    len next <= len q ->
    Read c' q = (received c' rest',
                 Returned (next ++ drop (length next) q) (len next) None).
Proof.
  intros HR Hc.
  assert (Hguards : isHandshakeCompletedSuccessfully c = true /\ readDeadline c = false).
  { unfold Read in HR.
    destruct (isHandshakeCompletedSuccessfully c); [|discriminate HR].
    destruct (readDeadline c); [discriminate HR|]. split; reflexivity. }
  destruct Hguards as [H Hd].
  rewrite (Read_bytes c p val rest H Hd Hc) in HR.
  destruct (Z.ltb_spec (len p) (len val)) as [Hlt|_]; [|discriminate HR].
  injection HR as <- <- <-.
  repeat split; try reflexivity; try assumption.
  intros next rest' q -> Hq.
  apply (Read_fits (received c (ItemBytes next :: rest')) q next rest');
    [exact H | exact Hd | reflexivity | exact Hq].
Qed.

(** *** Write *)

Lemma Write_closed (c : Conn) (p : bytes) :
  closed c = true -> Write c p = (c, (0, Some ErrConnClosed)).
Proof. intros H. unfold Write, isConnectionClosed. rewrite H. reflexivity. Qed.

Lemma Write_deadline (c : Conn) (p : bytes) :
  closed c = false -> writeDeadline c = true ->
  Write c p = (c, (0, Some errDeadlineExceeded)).
Proof.
  intros H Hd. unfold Write, isConnectionClosed. rewrite H, Hd. reflexivity.
Qed.

Lemma Write_guard (c : Conn) (p : bytes) :
  closed c = false -> writeDeadline c = false ->
  isHandshakeCompletedSuccessfully c = false ->
  Write c p = (c, (0, Some errHandshakeInProgress)).
Proof.
  intros H Hd Hh. unfold Write, isConnectionClosed. rewrite H, Hd, Hh. reflexivity.
Qed.

Lemma Write_sends (c : Conn) (p : bytes) :
  closed c = false -> writeDeadline c = false ->
  isHandshakeCompletedSuccessfully c = true ->
  Write c p = (fst (writePackets c [applicationPacket c p]),
               (len p, snd (writePackets c [applicationPacket c p]))).
Proof.
  intros H Hd Hh. unfold Write, isConnectionClosed. rewrite H, Hd, Hh.
  cbn [negb].
  destruct (writePackets c [applicationPacket c p]); reflexivity.
Qed.

(** Before the handshake has completed [Write] sends nothing, whichever
    guard answers. *)
Lemma Write_before_handshake (c : Conn) (p : bytes) :
  isHandshakeCompletedSuccessfully c = false ->
  fst (Write c p) = c /\ fst (snd (Write c p)) = 0 /\
  (snd (snd (Write c p)) = Some ErrConnClosed \/
   snd (snd (Write c p)) = Some errDeadlineExceeded \/
   snd (snd (Write c p)) = Some errHandshakeInProgress).
Proof.
  intros Hh. destruct (closed c) eqn:H.
  - rewrite Write_closed by assumption. auto.
  - destruct (writeDeadline c) eqn:Hd.
    + rewrite Write_deadline by assumption. auto.
    + rewrite Write_guard by assumption. auto.
Qed.

End WithPlatform.

Import ExamplePlatform.



(** On the example connection: a buffer of 2 bytes loses the record of 4
    bytes, and the next call, with a buffer of 6, returns the record that
    followed it. *)
Lemma Read_too_small_drops_record_witness :
  snd (Read waitingConn [x00; x00])
    = Returned [x00; x00] 0 (Some errBufferTooSmall) /\
  chan_items (decrypted (fst (Read waitingConn [x00; x00])))
    = [ItemBytes [x05; x06]] /\
  snd (Read (fst (Read waitingConn [x00; x00])) (repeat x00 6))
    = Returned ([x05; x06] ++ drop 2 (repeat x00 6)) 2 None.
Proof.
  pose proof (Read_too_small_drops_record waitingConn
                (fst (Read waitingConn [x00; x00]))
                [x00; x00] [x00; x00] [x01; x02; x03; x04] 0
                [ItemBytes [x05; x06]] eq_refl eq_refl)
    as (_ & _ & Hrest & _ & _ & Hnext).
  split; [reflexivity|]. split; [exact Hrest|].
  rewrite (Hnext [x05; x06] [] (repeat x00 6) eq_refl);
    [reflexivity | vm_compute; discriminate].
Defined.

End ReadWriteFacts.

(* ------------------------------------------------------------------ *)
(** ** The send path: sequence numbers *)

Module SendFacts.
Import protocol recordlayer dtls BytesFacts Notions.
Local Open Scope Z_scope.

Section WithPlatform.
Context {platform : Platform}.

Lemma drawn_range (k : Z) : 0 <= drawn k < 18446744073709551616.
Proof. unfold drawn, uint64. apply Z.mod_pos_bound. lia. Qed.

Lemma drawn_eq (k : Z) : 0 <= k < 18446744073709551616 -> drawn k = k.
Proof.
  intros Hk. unfold drawn, uint64.
  destruct (Z.eq_dec (k + 1) 18446744073709551616) as [E|E].
  - rewrite E, Z.mod_same by lia. replace k with 18446744073709551615 by lia.
    reflexivity.
  - rewrite (Z.mod_small (k + 1)) by lia. rewrite Z.mod_small by lia. lia.
Qed.

Lemma nextSequenceNumber_eq (s : State) (epoch : Z) :
  nextSequenceNumber s epoch =
    (set_localSequenceNumber s
       (<[Z.to_nat epoch := uint64 (counter s epoch + 1)]>
          (growSequenceNumbers (localSequenceNumber s) epoch)),
     drawn (counter s epoch)).
Proof. reflexivity. Qed.

Lemma length_growSequenceNumbers (l : list Z) (epoch : Z) :
  0 <= epoch -> (Z.to_nat epoch < length (growSequenceNumbers l epoch))%nat.
Proof.
  intros He. unfold growSequenceNumbers. rewrite length_app, repeat_length. lia.
Qed.

Lemma growSequenceNumbers_grown (l : list Z) (epoch : Z) :
  (Z.to_nat (epoch + 1) <= length l)%nat -> growSequenceNumbers l epoch = l.
Proof.
  intros H. unfold growSequenceNumbers.
  replace (Z.to_nat (epoch + 1) - length l)%nat with O by lia.
  apply app_nil_r.
Qed.

(** After a draw the counter of the epoch has advanced by one, modulo
    [2^64]. *)
Lemma counter_next (s : State) (epoch : Z) :
  0 <= epoch ->
  counter (fst (nextSequenceNumber s epoch)) epoch = uint64 (counter s epoch + 1).
Proof.
  intros He. rewrite nextSequenceNumber_eq. cbn [fst]. unfold counter at 1.
  cbn [localSequenceNumber set_localSequenceNumber].
  pose proof (length_growSequenceNumbers (localSequenceNumber s) epoch He) as Hl.
  rewrite growSequenceNumbers_grown by (rewrite length_insert; lia).
  apply list_lookup_total_insert_eq. exact Hl.
Qed.

Lemma counter_grown (s : State) (epoch : Z) :
  0 <= epoch ->
  counter (set_localSequenceNumber s
             (growSequenceNumbers (localSequenceNumber s) epoch)) epoch
  = counter s epoch.
Proof.
  intros He. unfold counter. cbn [localSequenceNumber set_localSequenceNumber].
  pose proof (length_growSequenceNumbers (localSequenceNumber s) epoch He) as Hl.
  rewrite (growSequenceNumbers_grown (growSequenceNumbers _ _)) by lia.
  reflexivity.
Qed.

(** *** What the send functions leave alone *)

Lemma sameSocket_refl c : sameSocket c c.
Proof. repeat split. Qed.

Lemma sameSocket_trans c1 c2 c3 :
  sameSocket c1 c2 -> sameSocket c2 c3 -> sameSocket c1 c3.
Proof.
  intros (A1 & B1 & C1 & D1) (A2 & B2 & C2 & D2).
  repeat split; congruence.
Qed.

Lemma RecordLayer_Marshal_header (r : RecordLayer) :
  SequenceNumber (Header_ (fst (RecordLayer_Marshal r))) = SequenceNumber (Header_ r) /\
  Epoch (Header_ (fst (RecordLayer_Marshal r))) = Epoch (Header_ r).
Proof.
  unfold RecordLayer_Marshal. destruct (Content_Marshal (Content_ r)); split; reflexivity.
Qed.

(** [processPacket], with the draw of the sequence number set apart. *)
Lemma processPacket_conn (c : Conn) (p : packet) :
  fst (fst (processPacket c p))
  = set_state c (fst (nextSequenceNumber (state c) (Epoch (Header_ (record p))))).
Proof.
  unfold processPacket. rewrite nextSequenceNumber_eq. cbn [fst snd].
  destruct (MaxSequenceNumber <? _); [reflexivity|].
  match goal with |- context [let '(p, rawPacket) := ?e in _] => destruct e as [p1 [raw|e1]] end;
    reflexivity.
Qed.

Lemma processPacket_overflow (c : Conn) (p : packet) :
  MaxSequenceNumber < drawn (counter (state c) (Epoch (Header_ (record p)))) ->
  processPacket c p =
    (set_state c (fst (nextSequenceNumber (state c) (Epoch (Header_ (record p))))),
     p, Err errSequenceNumberOverflow).
Proof.
  intros H. unfold processPacket. rewrite nextSequenceNumber_eq. cbn [fst snd].
  apply Z.ltb_lt in H. rewrite H. reflexivity.
Qed.

(** The header [processPacket] leaves in the packet when the draw is
    within bounds: the number drawn, on the packet's epoch. *)
Lemma processPacket_header (c c' : Conn) (p p' : packet) (r : result bytes) :
  processPacket c p = (c', p', r) ->
  drawn (counter (state c) (Epoch (Header_ (record p)))) <= MaxSequenceNumber ->
  SequenceNumber (Header_ (record p'))
    = drawn (counter (state c) (Epoch (Header_ (record p)))) /\
  Epoch (Header_ (record p')) = Epoch (Header_ (record p)).
Proof.
  intros HP Hle. unfold processPacket in HP. rewrite nextSequenceNumber_eq in HP.
  cbn [fst snd] in HP.
  apply Z.ltb_ge in Hle. rewrite Hle in HP.
  set (seq := drawn _) in *.
  set (p0 := set_Header p (set_SequenceNumber (Header_ (record p)) seq)) in *.
  pose proof (RecordLayer_Marshal_header (record p0)) as [Hs He].
  destruct (RecordLayer_Marshal (record p0)) as [r0 m] eqn:EM. cbn [fst] in Hs, He.
  change (shouldWrapCID p0) with (shouldWrapCID p) in HP.
  destruct (shouldWrapCID p).
  - destruct m as [b|e]; cbn [record] in HP.
    + destruct (Content_Marshal (Content_ r0)) as [content|e]; cbn in HP.
      * injection HP as _ <- _. cbn. split; assumption.
      * injection HP as _ <- _. cbn. split; assumption.
    + injection HP as _ <- _. cbn. split; assumption.
  - destruct m as [b|e]; injection HP as _ <- _; cbn; split; assumption.
Qed.

(** The send of one record: the number a record carries when
    [processPacket] returns it is the one drawn from the counter of its
    epoch, and is at most [2^48 - 1]. *)
Lemma processPacket_bound (c c' : Conn) (p p' : packet) (raw : bytes) :
  processPacket c p = (c', p', Ok raw) ->
  SequenceNumber (Header_ (record p'))
    = drawn (counter (state c) (Epoch (Header_ (record p)))) /\
  0 <= SequenceNumber (Header_ (record p')) <= MaxSequenceNumber /\
  Epoch (Header_ (record p')) = Epoch (Header_ (record p)).
Proof.
  intros HP.
  destruct (Z.lt_ge_cases MaxSequenceNumber
              (drawn (counter (state c) (Epoch (Header_ (record p)))))) as [Hov|Hle].
  - rewrite processPacket_overflow in HP by assumption. discriminate HP.
  - destruct (processPacket_header _ _ _ _ _ HP Hle) as [Hs He].
    rewrite Hs. pose proof (drawn_range (counter (state c) (Epoch (Header_ (record p))))).
    repeat split; try assumption; lia.
Qed.

(** *** Handshake records *)

Lemma processHandshakeFragment_overflow (c : Conn) (p : packet) (epoch : Z)
    (fragment : bytes) :
  MaxSequenceNumber < drawn (counter (state c) epoch) ->
  processHandshakeFragment c p epoch fragment =
    (set_state c (fst (nextSequenceNumber (state c) epoch)), p,
     Err errSequenceNumberOverflow).
Proof.
  intros H. unfold processHandshakeFragment. rewrite nextSequenceNumber_eq.
  cbn [fst snd]. apply Z.ltb_lt in H. rewrite H. reflexivity.
Qed.

Lemma processHandshakeFragment_conn (c : Conn) (p : packet) (epoch : Z)
    (fragment : bytes) :
  fst (fst (processHandshakeFragment c p epoch fragment))
  = set_state c (fst (nextSequenceNumber (state c) epoch)).
Proof.
  unfold processHandshakeFragment. rewrite nextSequenceNumber_eq. cbn [fst snd].
  destruct (MaxSequenceNumber <? _); [reflexivity|].
  destruct (shouldWrapCID p); reflexivity.
Qed.

(** The header one turn of the loop leaves in the packet: outside a
    connection ID record the number drawn; in a connection ID record the
    number the packet carried before. *)
Lemma processHandshakeFragment_bound (c c' : Conn) (p p' : packet) (epoch : Z)
    (fragment raw : bytes) :
  processHandshakeFragment c p epoch fragment = (c', p', Ok raw) ->
  drawn (counter (state c) epoch) <= MaxSequenceNumber /\
  SequenceNumber (Header_ (record p'))
    = (if shouldWrapCID p then SequenceNumber (Header_ (record p))
       else drawn (counter (state c) epoch)) /\
  Epoch (Header_ (record p')) = Epoch (Header_ (record p)) /\
  shouldWrapCID p' = shouldWrapCID p.
Proof.
  intros HP.
  destruct (Z.lt_ge_cases MaxSequenceNumber (drawn (counter (state c) epoch)))
    as [Hov|Hle].
  { rewrite processHandshakeFragment_overflow in HP by assumption. discriminate HP. }
  split; [assumption|].
  unfold processHandshakeFragment in HP. rewrite nextSequenceNumber_eq in HP.
  cbn [fst snd] in HP. apply Z.ltb_ge in Hle. rewrite Hle in HP.
  destruct (shouldWrapCID p) eqn:Hw; cbn in HP; injection HP as _ <- _; cbn;
    repeat split; assumption.
Qed.

Lemma processHandshakeFragments_overflow (c : Conn) (p : packet) (epoch : Z)
    (fragment : bytes) (rest rawPackets : list bytes) :
  MaxSequenceNumber < drawn (counter (state c) epoch) ->
  processHandshakeFragments c p epoch (fragment :: rest) rawPackets =
    (set_state c (fst (nextSequenceNumber (state c) epoch)), p,
     Err errSequenceNumberOverflow).
Proof.
  intros H. cbn [processHandshakeFragments].
  rewrite processHandshakeFragment_overflow by assumption. reflexivity.
Qed.

(** The fragments of one handshake message draw consecutive numbers, and
    the last one drawn is within the limit. *)
Lemma processHandshakeFragments_counter (c c' : Conn) (p p' : packet) (epoch : Z)
    (fragments rawPackets out : list bytes) :
  0 <= epoch ->
  0 <= counter (state c) epoch < 18446744073709551616 ->
  processHandshakeFragments c p epoch fragments rawPackets = (c', p', Ok out) ->
  counter (state c') epoch = counter (state c) epoch + len fragments /\
  (fragments <> [] ->
     counter (state c) epoch + len fragments <= MaxSequenceNumber + 1) /\
  length out = (length rawPackets + length fragments)%nat.
Proof.
  intros He. revert c p rawPackets.
  induction fragments as [|f rest IH]; intros c p rawPackets Hk HP;
    cbn [processHandshakeFragments] in HP.
  - injection HP as <- _ <-. unfold len. cbn [length].
    split; [lia|]. split; [congruence|lia].
  - pose proof (processHandshakeFragment_conn c p epoch f) as Hc.
    destruct (processHandshakeFragment c p epoch f) as [[c1 p1] [raw|e]] eqn:E;
      [|discriminate HP].
    cbn [fst] in Hc.
    destruct (processHandshakeFragment_bound _ _ _ _ _ _ _ E) as (Hle & _).
    rewrite drawn_eq in Hle by assumption.
    assert (Hk1 : counter (state c1) epoch = counter (state c) epoch + 1).
    { rewrite Hc. cbn [state set_state]. rewrite counter_next by assumption.
      unfold uint64. apply Z.mod_small. unfold MaxSequenceNumber in Hle. lia. }
    destruct (IH c1 p1 (rawPackets ++ [raw])) as (H1 & H2 & H3); [|exact HP|].
    { rewrite Hk1. unfold MaxSequenceNumber in Hle. lia. }
    rewrite length_app in H3. unfold len in *. cbn [length] in *.
    split; [lia|]. split; [|lia]. intros _.
    destruct rest as [|f' rest']; [cbn [length]; lia|].
    assert (f' :: rest' <> []) as Hne by discriminate.
    specialize (H2 Hne). lia.
Qed.

Lemma fragmentHeaders_length (h : handshake.Handshake) (contentFragments : list bytes)
    (offset : Z) (fragments : list bytes) :
  fragmentHeaders h contentFragments offset = Ok fragments ->
  length fragments = length contentFragments.
Proof.
  revert offset fragments.
  induction contentFragments as [|f rest IH]; intros offset fragments H;
    cbn [fragmentHeaders] in H.
  - injection H as <-. reflexivity.
  - destruct (handshakeHeader_Marshal _) as [hb|e]; [|discriminate H].
    cbn in H. destruct (fragmentHeaders h rest _) as [others|e] eqn:E;
      [|discriminate H].
    cbn in H. injection H as <-. cbn [length]. f_equal. exact (IH _ _ E).
Qed.

(** A handshake message always goes out as at least one fragment. *)
Lemma fragmentHandshake_nonempty (c : Conn) (h : handshake.Handshake)
    (fragments : list bytes) :
  fragmentHandshake c h = Ok fragments ->
  exists fragment rest, fragments = fragment :: rest.
Proof.
  unfold fragmentHandshake.
  destruct (handshake.Message_Marshal (handshake.Message_ h)) as [content|e];
    [|discriminate].
  cbn. intros H. apply fragmentHeaders_length in H.
  destruct fragments as [|fragment rest]; [|eauto].
  exfalso. destruct (len (splitBytes content (maximumTransmissionUnit c)) =? 0) eqn:E.
  - discriminate H.
  - apply Z.eqb_neq in E. unfold len in E.
    destruct (splitBytes content (maximumTransmissionUnit c)); [cbn in E; lia|].
    discriminate H.
Qed.

Lemma processHandshakePacket_overflow (c : Conn) (p : packet)
    (h : handshake.Handshake) (fragments : list bytes) :
  fragmentHandshake c h = Ok fragments ->
  0 <= Epoch (Header_ (record p)) ->
  MaxSequenceNumber < drawn (counter (state c) (Epoch (Header_ (record p)))) ->
  exists c', processHandshakePacket c p h = (c', p, Err errSequenceNumberOverflow).
Proof.
  intros Hf He Hov. unfold processHandshakePacket. rewrite Hf.
  destruct (fragmentHandshake_nonempty _ _ _ Hf) as (fragment & rest & ->).
  eexists. apply processHandshakeFragments_overflow.
  cbn [state set_state]. rewrite counter_grown by assumption. exact Hov.
Qed.

(** *** Nothing reaches the socket before all records are assembled *)

Lemma sameSocket_set_state c s : sameSocket c (set_state c s).
Proof. repeat split. Qed.

Lemma sameSocket_set_handshakeCache c h : sameSocket c (set_handshakeCache c h).
Proof. repeat split. Qed.

Lemma processPacket_sameSocket (c : Conn) (p : packet) :
  sameSocket c (fst (fst (processPacket c p))).
Proof. rewrite processPacket_conn. apply sameSocket_set_state. Qed.

Lemma processHandshakeFragments_sameSocket (c : Conn) (p : packet) (epoch : Z)
    (fragments rawPackets : list bytes) :
  sameSocket c (fst (fst (processHandshakeFragments c p epoch fragments rawPackets))).
Proof.
  revert c p rawPackets.
  induction fragments as [|f rest IH]; intros c p rawPackets;
    cbn [processHandshakeFragments]; [apply sameSocket_refl|].
  pose proof (processHandshakeFragment_conn c p epoch f) as Hc.
  destruct (processHandshakeFragment c p epoch f) as [[c1 p1] [raw|e]];
    cbn [fst] in Hc; subst c1.
  - eapply sameSocket_trans; [apply sameSocket_set_state | apply IH].
  - apply sameSocket_set_state.
Qed.

Lemma processHandshakePacket_sameSocket (c : Conn) (p : packet)
    (h : handshake.Handshake) :
  sameSocket c (fst (fst (processHandshakePacket c p h))).
Proof.
  unfold processHandshakePacket.
  destruct (fragmentHandshake c h) as [fragments|e]; [|apply sameSocket_refl].
  eapply sameSocket_trans; [|apply processHandshakeFragments_sameSocket].
  apply sameSocket_set_state.
Qed.

Lemma processPackets_sameSocket (c : Conn) (pkts : list packet)
    (rawPackets : list bytes) :
  sameSocket c (fst (processPackets c pkts rawPackets)).
Proof.
  revert c rawPackets.
  induction pkts as [|p rest IH]; intros c rawPackets; cbn [processPackets];
    [apply sameSocket_refl|].
  assert (Hother : sameSocket c
            (fst match processPacket c p with
                 | (c0, _, Err err) => (c0, Err err)
                 | (c0, _, Ok rawPacket) =>
                     processPackets c0 rest (rawPackets ++ [rawPacket])
                 end)).
  { pose proof (processPacket_sameSocket c p) as Hc.
    destruct (processPacket c p) as [[c1 p1] [raw|e]]; cbn [fst] in *.
    - eapply sameSocket_trans; [exact Hc | apply IH].
    - exact Hc. }
  destruct (Content_ (record p)) as [a| |data|h]; try exact Hother.
  destruct (RecordLayer_Marshal (record p)) as [r [handshakeRaw|e]];
    [|apply sameSocket_refl].
  set (c0 := set_handshakeCache c _). set (p0 := mkPacket r _ _ _).
  pose proof (processHandshakePacket_sameSocket c0 p0 h) as Hc.
  destruct (processHandshakePacket c0 p0 h) as [[c1 p1] [raws|e]]; cbn [fst] in *.
  - eapply sameSocket_trans; [apply sameSocket_set_handshakeCache|].
    eapply sameSocket_trans; [exact Hc | apply IH].
  - eapply sameSocket_trans; [apply sameSocket_set_handshakeCache | exact Hc].
Qed.

(** When the assembly of the records fails, [writePackets] returns the
    error and has written nothing. *)
Lemma writePackets_error (c c' : Conn) (pkts : list packet) (err : error) :
  processPackets c pkts [] = (c', Err err) ->
  writePackets c pkts = (c', Some err) /\ nextConn c' = nextConn c.
Proof.
  intros H. unfold writePackets. rewrite H. split; [reflexivity|].
  pose proof (processPackets_sameSocket c pkts []) as Hs. rewrite H in Hs.
  apply Hs.
Qed.

Lemma writeDatagrams_flag (c : Conn) (datagrams : list bytes) :
  handshakeCompletedSuccessfully (fst (writeDatagrams c datagrams))
  = handshakeCompletedSuccessfully c.
Proof.
  revert c. induction datagrams as [|d rest IH]; intros c; cbn [writeDatagrams];
    [reflexivity|].
  destruct (WriteToContext (nextConn c) d (rAddr c)) as [sock [e|]].
  - reflexivity.
  - rewrite IH. reflexivity.
Qed.

(** Sending never clears the flag of the completed handshake. *)
Lemma writePackets_flag (c : Conn) (pkts : list packet) :
  handshakeCompletedSuccessfully (fst (writePackets c pkts))
  = handshakeCompletedSuccessfully c.
Proof.
  unfold writePackets.
  pose proof (processPackets_sameSocket c pkts []) as (_ & Hf & _).
  destruct (processPackets c pkts []) as [c1 [rawPackets|e]]; cbn [fst] in *.
  - destruct (len rawPackets =? 0); [exact Hf|].
    rewrite writeDatagrams_flag. exact Hf.
  - exact Hf.
Qed.

(** A record that is not a handshake message, on an epoch whose counter
    has passed the limit: the send fails and nothing is written. *)
Lemma writePackets_overflow (c : Conn) (p : packet) (rest : list packet) :
  (forall h, Content_ (record p) <> ContentHandshake h) ->
  MaxSequenceNumber < drawn (counter (state c) (Epoch (Header_ (record p)))) ->
  exists c',
    writePackets c (p :: rest) = (c', Some errSequenceNumberOverflow) /\
    nextConn c' = nextConn c.
Proof.
  intros Hc Hov. eexists. apply writePackets_error.
  cbn [processPackets]. rewrite processPacket_overflow by assumption.
  destruct (Content_ (record p)) as [a| |data|h]; try reflexivity.
  exfalso. exact (Hc h eq_refl).
Qed.

Lemma drawn_past_limit (k : Z) :
  MaxSequenceNumber < k < 18446744073709551616 -> MaxSequenceNumber < drawn k.
Proof.
  intros Hk. rewrite drawn_eq; [lia|]. unfold MaxSequenceNumber in Hk. lia.
Qed.


End WithPlatform.

Import ExamplePlatform.

Lemma triple_eq {A B C} (x : A * B * C) (r : C) :
  snd x = r -> x = (fst (fst x), snd (fst x), r).
Proof. destruct x as [[a b] c]. cbn. intros ->. reflexivity. Qed.


End SendFacts.

(* ------------------------------------------------------------------ *)
(** ** Read and Write before and after the handshake *)

Module HandshakeGuardFacts.
Import protocol recordlayer dtls BytesFacts ReadWriteFacts SendFacts.
Local Open Scope Z_scope.

Section WithPlatform.
Context {platform : Platform}.

Lemma Read_flag (c : Conn) (p : bytes) :
  handshakeCompletedSuccessfully (fst (Read c p)) = handshakeCompletedSuccessfully c.
Proof.
  unfold Read, isHandshakeCompletedSuccessfully.
  destruct (negb (handshakeCompletedSuccessfully c)); [reflexivity|].
  destruct (readDeadline c); [reflexivity|].
  destruct (chan_items (decrypted c)) as [|[val|e] rest].
  - destruct (chan_closed (decrypted c)); reflexivity.
  - destruct (len p <? len val); reflexivity.
  - reflexivity.
Qed.

Lemma Write_flag (c : Conn) (p : bytes) :
  handshakeCompletedSuccessfully (fst (Write c p)) = handshakeCompletedSuccessfully c.
Proof.
  unfold Write, isConnectionClosed, isHandshakeCompletedSuccessfully.
  destruct (closed c); [reflexivity|].
  destruct (writeDeadline c); [reflexivity|].
  destruct (negb (handshakeCompletedSuccessfully c)); [reflexivity|].
  pose proof (writePackets_flag c [applicationPacket c p]) as Hf.
  destruct (writePackets c [applicationPacket c p]) as [c' err]. exact Hf.
Qed.

(** After the handshake, [errHandshakeInProgress] can only come out of
    [Read] as a value received from the channel. *)
Lemma Read_after_handshake (c c' : Conn) (p p' : bytes) (n : Z) :
  isHandshakeCompletedSuccessfully c = true ->
  Read c p = (c', Returned p' n (Some errHandshakeInProgress)) ->
  exists rest,
    chan_items (decrypted c) = ItemError errHandshakeInProgress :: rest.
Proof.
  intros Hh HR. unfold Read in HR. rewrite Hh in HR. cbn [negb] in HR.
  destruct (readDeadline c); [discriminate HR|].
  destruct (chan_items (decrypted c)) as [|[val|e] rest].
  - destruct (chan_closed (decrypted c)); discriminate HR.
  - destruct (len p <? len val); discriminate HR.
  - injection HR as _ _ _ ->. eauto.
Qed.


End WithPlatform.

Import ExamplePlatform.



End HandshakeGuardFacts.

(* ------------------------------------------------------------------ *)
(** ** The receive path: early packets and decryption failures *)

Module ReceiveFacts.
Import protocol recordlayer dtls BytesFacts HeaderFacts Notions.
Local Open Scope Z_scope.

Section WithPlatform.
Context {platform : Platform}.

(** *** The queue of early packets *)

Lemma enqueueEncryptedPackets_room (c : Conn) (packet : addrPkt) :
  len (encryptedPackets c) < maxAppDataPacketQueueSize ->
  enqueueEncryptedPackets c packet
  = (set_encryptedPackets c (encryptedPackets c ++ [packet]), true).
Proof.
  intros H. unfold enqueueEncryptedPackets. apply Z.ltb_lt in H. rewrite H.
  reflexivity.
Qed.

Lemma enqueueEncryptedPackets_full (c : Conn) (packet : addrPkt) :
  maxAppDataPacketQueueSize <= len (encryptedPackets c) ->
  enqueueEncryptedPackets c packet = (c, false).
Proof.
  intros H. unfold enqueueEncryptedPackets. apply Z.ltb_ge in H. rewrite H.
  reflexivity.
Qed.

Lemma queueStep_same (c c' : Conn) :
  encryptedPackets c' = encryptedPackets c -> queueStep c c'.
Proof. intros H. left. exact H. Qed.

Lemma queueStep_after (c c1 c2 : Conn) :
  encryptedPackets c1 = encryptedPackets c -> queueStep c1 c2 -> queueStep c c2.
Proof. unfold queueStep. intros ->. tauto. Qed.

Lemma queueStep_bound (c c' : Conn) :
  queueStep c c' ->
  len (encryptedPackets c) <= maxAppDataPacketQueueSize ->
  len (encryptedPackets c') <= maxAppDataPacketQueueSize.
Proof.
  intros [->|(Hlt & packet & ->)] Hle; [assumption|].
  rewrite len_app. unfold len at 2. cbn [length]. lia.
Qed.

Lemma enqueueAndDiscard_queueStep (c : Conn) (enqueue : bool) (a : Addr) (buf : bytes) :
  queueStep c (fst (enqueueAndDiscard c enqueue a buf)) /\
  snd (enqueueAndDiscard c enqueue a buf) = discarded.
Proof.
  unfold enqueueAndDiscard. destruct enqueue; [|split; [left|]; reflexivity].
  split; [|reflexivity]. cbn [fst]. unfold enqueueEncryptedPackets.
  destruct (Z.ltb_spec (len (encryptedPackets c)) maxAppDataPacketQueueSize).
  - right. split; [assumption|]. eexists. reflexivity.
  - left. reflexivity.
Qed.

Lemma markPacketAsValid_queue (c : Conn) (epoch seq : Z) :
  encryptedPackets (fst (markPacketAsValid c epoch seq)) = encryptedPackets c.
Proof.
  unfold markPacketAsValid.
  destruct (replayDetector (state c) !! Z.to_nat epoch) as [d|]; [|reflexivity].
  destruct (replaydetector_accept d seq). reflexivity.
Qed.

Lemma cachePopped_queue (c : Conn) (popped : list (bytes * Z)) :
  encryptedPackets (cachePopped c popped) = encryptedPackets c.
Proof.
  revert c. induction popped as [|[out epoch] rest IH]; intros c; cbn [cachePopped];
    [reflexivity|].
  destruct (handshakeHeader_Unmarshal out); rewrite IH; reflexivity.
Qed.

Lemma dispatchContent_queueStep (c : Conn) (h : Header) (buf : bytes) (a : Addr)
    (enqueue stopped originalCID : bool) :
  queueStep c (fst (dispatchContent c h buf a enqueue stopped originalCID)).
Proof.
  unfold dispatchContent.
  destruct (RecordLayer_Unmarshal buf) as [r|e]; [|left; reflexivity].
  assert (Hfinish : forall c1 latest,
            encryptedPackets c1 = encryptedPackets c ->
            queueStep c
              (fst (if originalCID && latest
                    then if negb (Addr_eqb a (rAddr c1))
                         then (set_rAddr c1 a, discarded) else (c1, discarded)
                    else (c1, discarded)))).
  { intros c1 latest H. left.
    destruct (originalCID && latest); [|exact H].
    destruct (negb (Addr_eqb a (rAddr c1))); exact H. }
  destruct (Content_ r) as [content| |data|hs].
  - pose proof (markPacketAsValid_queue c (Epoch h) (SequenceNumber h)) as Hm.
    destruct (markPacketAsValid c (Epoch h) (SequenceNumber h)) as [c1 latest].
    left. exact Hm.
  - destruct (negb (cipherSuiteReady c)); [apply enqueueAndDiscard_queueStep|].
    destruct (_ =? _); [|apply Hfinish; reflexivity].
    set (c0 := set_state c _).
    pose proof (markPacketAsValid_queue c0 (Epoch h) (SequenceNumber h)) as Hm.
    destruct (markPacketAsValid c0 (Epoch h) (SequenceNumber h)) as [c1 latest].
    apply Hfinish. exact Hm.
  - destruct (Epoch h =? 0); [left; reflexivity|].
    pose proof (markPacketAsValid_queue c (Epoch h) (SequenceNumber h)) as Hm.
    destruct (markPacketAsValid c (Epoch h) (SequenceNumber h)) as [c1 latest].
    apply Hfinish. destruct stopped; exact Hm.
  - left. reflexivity.
Qed.

Lemma afterDecrypt_queueStep (c : Conn) (h : Header) (buf : bytes) (a : Addr)
    (enqueue stopped originalCID : bool) :
  queueStep c (fst (afterDecrypt c h buf a enqueue stopped originalCID)).
Proof.
  unfold afterDecrypt.
  destruct (fragmentBuffer_push (fragmentBuffer c) ([] ++ buf)) as [fb [[|]|e]].
  - set (c0 := set_fragmentBuffer c fb).
    pose proof (markPacketAsValid_queue c0 (Epoch h) (SequenceNumber h)) as Hm.
    destruct (markPacketAsValid c0 (Epoch h) (SequenceNumber h)) as [c1 latest].
    destruct (fragmentBuffer_popAll (fragmentBuffer c1)) as [fb' popped].
    left. cbn [fst]. rewrite cachePopped_queue. exact Hm.
  - eapply queueStep_after; [|apply dispatchContent_queueStep]. reflexivity.
  - left. reflexivity.
Qed.

Lemma decryptRecord_queueStep (c : Conn) (h : Header) (buf : bytes) (a : Addr)
    (enqueue stopped : bool) :
  queueStep c (fst (decryptRecord c h buf a enqueue stopped)).
Proof.
  unfold decryptRecord.
  destruct (negb (cipherSuiteReady c)); [apply enqueueAndDiscard_queueStep|].
  destruct (cipherSuite (state c)) as [cs|]; [|left; reflexivity].
  destruct (_ && _); [left; reflexivity|].
  destruct (Decrypt cs (decryptHeader c h) buf) as [plain|e]; [|left; reflexivity].
  match goal with
  | |- context [match ?u with Ok _ => _ | Err _ => _ end] =>
      destruct u as [[buf' originalCID]|e]
  end.
  - destruct (negb (bytes_eqb _ _)); [left; reflexivity|].
    apply afterDecrypt_queueStep.
  - destruct e; left; reflexivity.
Qed.

(** Whatever the record, [handleIncomingPacket] leaves the queue as it was
    or appends one packet to a queue of fewer than 100. *)
Lemma handleIncomingPacket_queueStep (c : Conn) (buf : bytes) (a : Addr)
    (enqueue stopped : bool) :
  queueStep c (fst (handleIncomingPacket c buf a enqueue stopped)).
Proof.
  unfold handleIncomingPacket.
  destruct (Header_Unmarshal (receiveHeader c) buf) as [h|e]; [|left; reflexivity].
  destruct (remoteEpoch (state c) <? Epoch h).
  - destruct (_ <? _); [left; reflexivity|]. apply enqueueAndDiscard_queueStep.
  - set (c0 := set_state c _).
    destruct (replayDetector (state c0) !! Z.to_nat (Epoch h)) as [d|];
      [|left; reflexivity].
    destruct (negb (replaydetector_Check d (SequenceNumber h))); [left; reflexivity|].
    destruct (negb (Epoch h =? 0)).
    + eapply queueStep_after; [|apply decryptRecord_queueStep]. reflexivity.
    + eapply queueStep_after; [|apply afterDecrypt_queueStep]. reflexivity.
Qed.

(** C4.  A record more than one epoch ahead of the remote epoch is
    discarded and the connection is left as it was; a record of the next
    epoch is appended to the queue of early packets when enqueueing is on
    and the queue holds fewer than 100 packets; with 100 packets queued, or
    enqueueing off, it is dropped, without alert or error; and no call lets
    the queue grow beyond 100 packets. *)
Theorem early_packets :
  (forall (c : Conn) (buf : bytes) (a : Addr) (enqueue stopped : bool) (h : Header),
     Header_Unmarshal (receiveHeader c) buf = Ok h ->
     0 <= remoteEpoch (state c) ->
     remoteEpoch (state c) + 1 < Epoch h ->
     handleIncomingPacket c buf a enqueue stopped = (c, (false, None, None))) /\
  (forall (c : Conn) (buf : bytes) (a : Addr) (stopped : bool) (h : Header),
     Header_Unmarshal (receiveHeader c) buf = Ok h ->
     Epoch h = remoteEpoch (state c) + 1 ->
     len (encryptedPackets c) < 100 ->
     handleIncomingPacket c buf a true stopped
     = (set_encryptedPackets c (encryptedPackets c ++ [mkAddrPkt a buf]),
        (false, None, None))) /\
  (forall (c : Conn) (buf : bytes) (a : Addr) (enqueue stopped : bool) (h : Header),
     Header_Unmarshal (receiveHeader c) buf = Ok h ->
     Epoch h = remoteEpoch (state c) + 1 ->
     100 <= len (encryptedPackets c) \/ enqueue = false ->
     handleIncomingPacket c buf a enqueue stopped = (c, (false, None, None))) /\
  (forall (c : Conn) (buf : bytes) (a : Addr) (enqueue stopped : bool),
     len (encryptedPackets c) <= 100 ->
     len (encryptedPackets (fst (handleIncomingPacket c buf a enqueue stopped)))
       <= 100).
Proof.
  split; [|split; [|split]].
  - intros c buf a enqueue stopped h Hh Hre Hlt.
    pose proof (Header_Unmarshal_Epoch _ _ _ Hh) as He.
    unfold handleIncomingPacket. rewrite Hh.
    destruct (Z.ltb_spec (remoteEpoch (state c)) (Epoch h)) as [_|?]; [|lia].
    unfold uint16. rewrite Z.mod_small by lia.
    destruct (Z.ltb_spec (remoteEpoch (state c) + 1) (Epoch h)) as [_|?]; [|lia].
    reflexivity.
  - intros c buf a stopped h Hh Heq Hroom.
    pose proof (Header_Unmarshal_Epoch _ _ _ Hh) as He.
    unfold handleIncomingPacket. rewrite Hh.
    destruct (Z.ltb_spec (remoteEpoch (state c)) (Epoch h)) as [_|?]; [|lia].
    unfold uint16. rewrite Z.mod_small by lia.
    destruct (Z.ltb_spec (remoteEpoch (state c) + 1) (Epoch h)) as [?|_]; [lia|].
    unfold enqueueAndDiscard. rewrite enqueueEncryptedPackets_room by exact Hroom.
    reflexivity.
  - intros c buf a enqueue stopped h Hh Heq Hfull.
    pose proof (Header_Unmarshal_Epoch _ _ _ Hh) as He.
    unfold handleIncomingPacket. rewrite Hh.
    destruct (Z.ltb_spec (remoteEpoch (state c)) (Epoch h)) as [_|?]; [|lia].
    unfold uint16. rewrite Z.mod_small by lia.
    destruct (Z.ltb_spec (remoteEpoch (state c) + 1) (Epoch h)) as [?|_]; [lia|].
    unfold enqueueAndDiscard. destruct enqueue; [|reflexivity].
    destruct Hfull as [Hfull|Hoff]; [|discriminate Hoff].
    rewrite enqueueEncryptedPackets_full by exact Hfull. reflexivity.
  - intros c buf a enqueue stopped Hle.
    exact (queueStep_bound _ _ (handleIncomingPacket_queueStep c buf a enqueue stopped) Hle).
Qed.

(** *** Decryption failures *)

(** C5.  When [Open] fails on a record that is long enough and is not a
    ChangeCipherSpec, [GCM.Decrypt] returns [errDecryptPacket]; and when
    the cipher suite's [Decrypt] returns an error on a record of an epoch
    above zero, [handleIncomingPacket] returns [(false, nil, nil)]: no
    alert, no error, and no change but the replay detectors made ready for
    the epoch. *)
Theorem decrypt_failure_discarded :
  (forall (g : ciphersuite.GCM) (hdr h : Header) (in_ : bytes) (e : error),
     Header_Unmarshal hdr in_ = Ok h ->
     ContentType h <> ContentTypeChangeCipherSpec ->
     8 + Header_Size h < len in_ ->
     4 <= len (ciphersuite.remoteWriteIV g) ->
     ciphersuite.Open (ciphersuite.remoteGCM g)
       (take 4 (ciphersuite.remoteWriteIV g)
          ++ slice_to 8 (slice_from (Header_Size h) in_))
       (slice_from (Header_Size h + 8) in_)
       (ciphersuite.additionalData h
          (len (slice_from (Header_Size h + 8) in_) - ciphersuite.gcmTagLength))
     = Err e ->
     ciphersuite.Decrypt g hdr in_ = Err (errDecryptPacket e)) /\
  (forall (c : Conn) (buf : bytes) (a : Addr) (enqueue stopped : bool)
          (h : Header) (cs : CipherSuite) (d : ReplayDetector) (e : error),
     Header_Unmarshal (receiveHeader c) buf = Ok h ->
     0 < Epoch h <= remoteEpoch (state c) ->
     growReplayDetectors c (Epoch h) !! Z.to_nat (Epoch h) = Some d ->
     replaydetector_Check d (SequenceNumber h) = true ->
     cipherSuite (state c) = Some cs ->
     IsInitialized cs = true ->
     (0 < len (localConnectionID (state c)) ->
      ContentType h = ContentTypeConnectionID) ->
     Decrypt cs (decryptHeader c h) buf = Err e ->
     handleIncomingPacket c buf a enqueue stopped
     = (set_state c
          (set_replayDetector (state c) (growReplayDetectors c (Epoch h))),
        (false, None, None))).
Proof.
  split.
  - intros g hdr h in_ e Hh Hccs Hlen Hiv Hopen.
    unfold ciphersuite.Decrypt. rewrite Hh.
    rewrite bool_decide_eq_false_2 by exact Hccs.
    destruct (Z.leb_spec (len in_) (8 + Header_Size h)) as [?|_]; [lia|].
    destruct (Z.ltb_spec (len (ciphersuite.remoteWriteIV g)) 4) as [?|_]; [lia|].
    cbv zeta. rewrite Hopen. reflexivity.
  - intros c buf a enqueue stopped h cs d e Hh He Hd Hcheck Hcs Hinit Hcid Hdec.
    unfold handleIncomingPacket. rewrite Hh.
    destruct (Z.ltb_spec (remoteEpoch (state c)) (Epoch h)) as [?|_]; [lia|].
    cbn [state set_state replayDetector set_replayDetector].
    rewrite Hd, Hcheck. cbn [negb].
    destruct (Z.eqb_spec (Epoch h) 0) as [?|_]; [lia|]. cbn [negb].
    unfold decryptRecord, cipherSuiteReady.
    cbn [state set_state cipherSuite set_replayDetector localConnectionID].
    rewrite Hcs, Hinit. cbn [negb].
    assert (Hreq : (0 <? len (localConnectionID (state c)))
                   && negb (bool_decide (ContentType h = ContentTypeConnectionID))
                   = false).
    { destruct (Z.ltb_spec 0 (len (localConnectionID (state c)))) as [Hpos|_];
        [|reflexivity].
      rewrite (bool_decide_eq_true_2 _ (Hcid Hpos)). reflexivity. }
    rewrite Hreq.
    change (decryptHeader (set_state c _) h) with (decryptHeader c h).
    rewrite Hdec. reflexivity.
Qed.

End WithPlatform.

Import ExamplePlatform.

Lemma early_packets_witness :
  handleIncomingPacket exampleConn futureRecord 7 true false
    = (exampleConn, (false, None, None)) /\
  handleIncomingPacket exampleConn earlyRecord 7 true false
    = (set_encryptedPackets exampleConn
         (encryptedPackets exampleConn ++ [mkAddrPkt 7 earlyRecord]),
       (false, None, None)).
Proof.
  split.
  - apply (proj1 early_packets exampleConn futureRecord 7 true false futureHeader).
    + vm_compute. reflexivity.
    + vm_compute. discriminate.
    + vm_compute. reflexivity.
  - apply (proj1 (proj2 early_packets) exampleConn earlyRecord 7 false earlyHeader).
    + vm_compute. reflexivity.
    + reflexivity.
    + vm_compute. reflexivity.
Defined.

Lemma decrypt_failure_discarded_witness :
  ciphersuite.Decrypt Examples.exampleSender zeroHeader forgedRecord
    = Err (errDecryptPacket aead_error) /\
  handleIncomingPacket exampleConn forgedRecord 7 true false
    = (set_state exampleConn
         (set_replayDetector (state exampleConn)
            (growReplayDetectors exampleConn (Epoch forgedHeader))),
       (false, None, None)).
Proof.
  split.
  - apply (proj1 decrypt_failure_discarded Examples.exampleSender zeroHeader
             forgedHeader forgedRecord aead_error).
    + vm_compute. reflexivity.
    + discriminate.
    + vm_compute. reflexivity.
    + vm_compute. discriminate.
    + vm_compute. reflexivity.
  - apply (proj2 decrypt_failure_discarded exampleConn forgedRecord 7 true false
             forgedHeader exampleSuite [] (errDecryptPacket aead_error)).
    + vm_compute. reflexivity.
    + vm_compute. split; [reflexivity | discriminate].
    + reflexivity.
    + reflexivity.
    + reflexivity.
    + reflexivity.
    + vm_compute. discriminate.
    + vm_compute. reflexivity.
Defined.

End ReceiveFacts.

(* ------------------------------------------------------------------ *)
(** ** ServerHello: decoding what was encoded, and the error cases *)

Module ServerHelloCodecFacts.
Import handshake BytesFacts ServerHelloFacts.
Local Open Scope Z_scope.

Lemma length_fixed (n : nat) (b : bytes) : length (fixed n b) = n.
Proof.
  unfold fixed. rewrite length_take, length_app, repeat_length. lia.
Qed.

Lemma length_Random_MarshalFixed (r : Random) :
  length (Random_MarshalFixed r) = 32%nat.
Proof.
  unfold Random_MarshalFixed, PutUint32.
  rewrite length_app, length_be_of_Z, length_fixed. reflexivity.
Qed.

(** The random value survives encoding and decoding when its time fits 32
    bits and it holds 28 random bytes. *)
Lemma Random_UnmarshalFixed_MarshalFixed (r : Random) :
  0 <= GMTUnixTime r < 2 ^ 32 -> length (RandomBytes r) = 28%nat ->
  Random_UnmarshalFixed (Random_MarshalFixed r) = r.
Proof.
  intros Ht Hb. destruct r as [t rb]. cbn [GMTUnixTime RandomBytes] in *.
  unfold Random_UnmarshalFixed, Random_MarshalFixed.
  cbn [GMTUnixTime RandomBytes].
  rewrite (fixed_exact 28 rb) by assumption.
  f_equal.
  - unfold Uint32, PutUint32. rewrite take_app_length' by (symmetry; apply length_be_of_Z).
    rewrite be_to_of_Z. unfold uint32.
    change (256 ^ Z.of_nat 4) with 4294967296.
    change (2 ^ 32) with 4294967296 in Ht.
    rewrite Z.mod_mod by lia. apply Z.mod_small. lia.
  - rewrite drop_app_length' by (symmetry; apply length_be_of_Z).
    apply fixed_exact. assumption.
Qed.

Section WithCodec.
Context {codec : extension.Codec}.

(** What [Marshal] writes, field by field. *)
Lemma Marshal_encoding (m : MessageServerHello) (cs : Z)
    (cm : protocol.CompressionMethod) (eb : bytes) :
  CipherSuiteID m = Some cs ->
  CompressionMethod m = Some cm ->
  extension.Marshal (Extensions m) = Ok eb ->
  MessageServerHello_Marshal m =
    Ok (encoding (protocol.Major (Version m)) (protocol.Minor (Version m))
          (Random_MarshalFixed (Random_ m)) (byte_of_Z (len (SessionID m)))
          (SessionID m) (PutUint16 cs) (protocol.ID cm) eb).
Proof.
  intros Hcs Hcm He. unfold MessageServerHello_Marshal.
  rewrite Hcs, Hcm, He. unfold encoding. rewrite <- !app_assoc. reflexivity.
Qed.

(** [Marshal] fails on an unset field, or where the extension codec does. *)
Lemma Marshal_inv (m : MessageServerHello) (data : bytes) :
  MessageServerHello_Marshal m = Ok data ->
  exists cs cm eb,
    CipherSuiteID m = Some cs /\ CompressionMethod m = Some cm /\
    extension.Marshal (Extensions m) = Ok eb /\
    data = encoding (protocol.Major (Version m)) (protocol.Minor (Version m))
             (Random_MarshalFixed (Random_ m)) (byte_of_Z (len (SessionID m)))
             (SessionID m) (PutUint16 cs) (protocol.ID cm) eb.
Proof.
  intros H.
  destruct (CipherSuiteID m) as [cs|] eqn:Hcs;
    [|unfold MessageServerHello_Marshal in H; rewrite Hcs in H; discriminate].
  destruct (CompressionMethod m) as [cm|] eqn:Hcm;
    [|unfold MessageServerHello_Marshal in H; rewrite Hcs, Hcm in H; discriminate].
  destruct (extension.Marshal (Extensions m)) as [eb|e] eqn:He;
    [|unfold MessageServerHello_Marshal in H; rewrite Hcs, Hcm, He in H;
      discriminate].
  rewrite (Marshal_encoding m cs cm eb Hcs Hcm He) in H. injection H as <-.
  exists cs, cm, eb. repeat split; assumption || reflexivity.
Qed.

(** The fields of a message [Unmarshal] accepted, read off the encoding. *)
Lemma Unmarshal_inv (m0 m : MessageServerHello) (data : bytes) :
  MessageServerHello_Unmarshal m0 data = (m, None) ->
  exists major minor random sidLen sid cipher compression extensions cm,
    data = encoding major minor random sidLen sid cipher compression extensions /\
    length random = 32%nat /\
    length sid = Z.to_nat (byte_to_Z sidLen) /\
    length cipher = 2%nat /\
    at_ data 34 = sidLen /\
    protocol.CompressionMethods compression = Some cm /\
    Version m = protocol.mkVersion major minor /\
    Random_ m = Random_UnmarshalFixed random /\
    SessionID m = sid /\
    CipherSuiteID m = Some (be_to_Z cipher) /\
    CompressionMethod m = Some cm /\
    (if len extensions <=? 0 then Extensions m = []
     else extension.Unmarshal extensions = Ok (Extensions m)).
Proof.
  intros Hu.
  pose proof (Unmarshal_ok_length _ _ _ Hu) as Hlen.
  pose proof (byte_to_Z_range (at_ data 34)) as Hn.
  unfold len in Hlen.
  destruct data as [|major [|minor rest]]; cbn [length] in Hlen; try lia.
  destruct (split_at rest 32) as (random & rest2 & -> & Hr); [lia|].
  rewrite length_app, Hr in Hlen.
  destruct (split_head rest2) as (sidLen & rest3 & ->); [lia|].
  assert (Hsl : at_ (major :: minor :: random ++ sidLen :: rest3) 34 = sidLen).
  { apply (at_app ([major; minor] ++ random)). rewrite length_app, Hr. reflexivity. }
  rewrite Hsl in *. cbn [length] in Hlen.
  destruct (split_at rest3 (Z.to_nat (byte_to_Z sidLen))) as (sid & rest4 & -> & Hs);
    [lia|].
  rewrite length_app, Hs in Hlen.
  destruct (split_at rest4 2) as (cipher & rest5 & -> & Hc); [lia|].
  rewrite length_app, Hc in Hlen.
  destruct (split_head rest5) as (compression & extensions & ->); [lia|].
  change (major :: minor :: random ++ sidLen :: sid ++ cipher ++ compression :: extensions)
    with (encoding major minor random sidLen sid cipher compression extensions) in *.
  rewrite Unmarshal_encoding in Hu by assumption. cbv zeta in Hu.
  destruct (protocol.CompressionMethods compression) as [cm|] eqn:Hcm; [|discriminate].
  exists major, minor, random, sidLen, sid, cipher, compression, extensions, cm.
  destruct (len extensions <=? 0).
  - injection Hu as <-. repeat split; assumption || reflexivity.
  - destruct (extension.Unmarshal extensions) as [es|]; [|discriminate].
    injection Hu as <-. repeat split; assumption || reflexivity.
Qed.

Lemma Unmarshal_SessionID_length (m0 m : MessageServerHello) (data : bytes) :
  MessageServerHello_Unmarshal m0 data = (m, None) ->
  len (SessionID m) = byte_to_Z (at_ data 34).
Proof.
  intros Hu.
  destruct (Unmarshal_inv _ _ _ Hu)
    as (major & minor & random & sidLen & sid & cipher & compression & extensions
        & cm & Hd & Hr & Hs & Hc & Hsl & Hcm & Hv & Hrand & Hsid & Hcs & Hk & He).
  pose proof (byte_to_Z_range sidLen) as Hn.
  rewrite Hsl, Hsid. unfold len. rewrite Hs. lia.
Qed.

(** X1.  Decoding an encoded ServerHello gives the message back: for a
    message whose cipher suite and compression method are set, the method
    being a known one, whose session ID takes at most 255 bytes, whose
    random value holds a time of 32 bits and 28 random bytes, and whose
    extensions the codec writes and reads back (an empty block standing for
    no extension), [Marshal] succeeds and [Unmarshal] of its output returns
    the same message without error, whatever message it is called on. *)
Theorem Unmarshal_Marshal (m0 m : MessageServerHello) (cs : Z)
    (cm : protocol.CompressionMethod) (eb : bytes) :
  CipherSuiteID m = Some cs -> 0 <= cs < 65536 ->
  CompressionMethod m = Some cm ->
  protocol.CompressionMethods (protocol.ID cm) = Some cm ->
  len (SessionID m) <= 255 ->
  0 <= GMTUnixTime (Random_ m) < 2 ^ 32 ->
  length (RandomBytes (Random_ m)) = 28%nat ->
  extension.Marshal (Extensions m) = Ok eb ->
  (if len eb <=? 0 then Extensions m = []
   else extension.Unmarshal eb = Ok (Extensions m)) ->
  exists data,
    MessageServerHello_Marshal m = Ok data /\
    MessageServerHello_Unmarshal m0 data = (m, None).
Proof.
  intros Hcs Hrange Hcm Hknown Hsid Ht Hrb He Hback.
  eexists. split; [apply (Marshal_encoding m cs cm eb Hcs Hcm He)|].
  pose proof (len_nonneg (SessionID m)) as H0.
  rewrite Unmarshal_encoding.
  - cbv zeta. rewrite Hknown.
    rewrite Random_UnmarshalFixed_MarshalFixed by assumption.
    assert (Hcipher : be_to_Z (PutUint16 cs) = cs).
    { unfold PutUint16. rewrite be_to_of_Z.
      change (256 ^ Z.of_nat 2) with 65536. apply Z.mod_small. exact Hrange. }
    rewrite Hcipher.
    destruct m as [v r sid c k es].
    cbn [Version Random_ SessionID CipherSuiteID CompressionMethod Extensions
         setCompressionMethod setExtensions protocol.Major protocol.Minor] in *.
    subst c k. destruct v as [major minor]. cbn [protocol.Major protocol.Minor].
    destruct (len eb <=? 0).
    + rewrite Hback. reflexivity.
    + rewrite Hback. reflexivity.
  - apply length_Random_MarshalFixed.
  - rewrite byte_to_of_Z, Z.mod_small by lia. unfold len. lia.
  - apply length_PutUint16.
Qed.

(** X2.  [Unmarshal] rejects an encoding that is too short for the fields
    every ServerHello has: fewer than 38 bytes, or fewer than 38 bytes and
    the session ID whose length the byte at offset 34 announces.  The error
    is [errBufferTooSmall], and an input of fewer than 34 bytes leaves the
    message as it was. *)
Theorem Unmarshal_too_short (m0 : MessageServerHello) (data : bytes) :
  (len data < 38 ->
   snd (MessageServerHello_Unmarshal m0 data) = Some handshake_errBufferTooSmall) /\
  (35 <= len data -> len data < 38 + byte_to_Z (at_ data 34) ->
   snd (MessageServerHello_Unmarshal m0 data) = Some handshake_errBufferTooSmall) /\
  (len data < 34 ->
   MessageServerHello_Unmarshal m0 data = (m0, Some handshake_errBufferTooSmall)).
Proof.
  assert (Hgen : len data < 38 + byte_to_Z (at_ data 34) ->
            snd (MessageServerHello_Unmarshal m0 data)
            = Some handshake_errBufferTooSmall).
  { intros Hlen.
    unfold MessageServerHello_Unmarshal, messageServerHelloVariableWidthStart,
      RandomLength, RandomBytesLength.
    change (2 + (28 + 4) + 1 - 1) with 34. change (2 + (28 + 4) + 1) with 35.
    change (2 + (28 + 4)) with 34.
    set (n := byte_to_Z (at_ data 34)) in *.
    pose proof (byte_to_Z_range (at_ data 34)) as Hn. fold n in Hn.
    destruct (Z.ltb_spec (len data) 34) as [?|H1]; [reflexivity|].
    destruct (Z.leb_spec (len data) 35) as [?|H2]; [reflexivity|].
    destruct (Z.leb_spec (len data) (35 + n)) as [?|H3]; [reflexivity|].
    cbn [SessionID setSessionID].
    assert (Hls : len (slice data 35 (35 + n)) = n).
    { unfold len, slice. rewrite length_take, length_drop. unfold len in H3. lia. }
    rewrite Hls.
    destruct (Z.ltb_spec (len data) (35 + n + 2)) as [?|H4]; [reflexivity|].
    destruct (Z.leb_spec (len data) (35 + n + 2)) as [?|H5]; [reflexivity|].
    lia. }
  split; [|split].
  - intros Hlen. apply Hgen. pose proof (byte_to_Z_range (at_ data 34)). lia.
  - intros _. exact Hgen.
  - intros Hlen. unfold MessageServerHello_Unmarshal, RandomLength, RandomBytesLength.
    destruct (Z.ltb_spec (len data) (2 + (28 + 4))) as [?|?]; [reflexivity|lia].
Qed.

(** X3.  A message [Unmarshal] accepted is complete: its cipher suite is
    set to a 16-bit number, its compression method is set to the known
    method of the byte on the wire, its session ID is the announced number
    of bytes, at most 255; so [Marshal] of such a message can fail only
    where the extension codec fails, with the codec's error. *)
Theorem Unmarshal_complete (m0 m : MessageServerHello) (data : bytes) :
  MessageServerHello_Unmarshal m0 data = (m, None) ->
  (exists cs cm,
     CipherSuiteID m = Some cs /\ 0 <= cs < 65536 /\
     CompressionMethod m = Some cm /\
     protocol.CompressionMethods
       (at_ data (37 + byte_to_Z (at_ data 34))) = Some cm) /\
  len (SessionID m) = byte_to_Z (at_ data 34) /\
  len (SessionID m) <= 255 /\
  Version m = protocol.mkVersion (at_ data 0) (at_ data 1) /\
  (forall e, MessageServerHello_Marshal m = Err e ->
             extension.Marshal (Extensions m) = Err e).
Proof.
  intros Hu.
  destruct (Unmarshal_inv _ _ _ Hu)
    as (major & minor & random & sidLen & sid & cipher & compression & extensions
        & cm & Hd & Hr & Hs & Hc & Hsl & Hcm & Hv & Hrand & Hsid & Hcs & Hk & He).
  pose proof (byte_to_Z_range sidLen) as Hn.
  rewrite Hsl.
  assert (Hat : at_ data (37 + byte_to_Z sidLen) = compression).
  { rewrite Hd. unfold encoding.
    rewrite (app_assoc [major; minor] random),
      (app_assoc ([major; minor] ++ random) [sidLen]),
      (app_assoc (([major; minor] ++ random) ++ [sidLen]) sid),
      (app_assoc ((([major; minor] ++ random) ++ [sidLen]) ++ sid) cipher).
    apply at_app. rewrite !length_app, Hr, Hs, Hc. cbn [length]. lia. }
  split; [|split; [|split; [|split]]].
  - exists (be_to_Z cipher), cm. rewrite Hat. repeat split; try assumption.
    + apply be_to_Z_nonneg.
    + pose proof (be_to_Z_lt cipher) as Hlt. rewrite Hc in Hlt. exact Hlt.
  - rewrite Hsid. unfold len. rewrite Hs. lia.
  - rewrite Hsid. unfold len. rewrite Hs. lia.
  - rewrite Hv, Hd. reflexivity.
  - intros e Hm. unfold MessageServerHello_Marshal in Hm. rewrite Hcs, Hk in Hm.
    destruct (extension.Marshal (Extensions m)) as [eb|e']; [discriminate|].
    exact Hm.
Qed.

(** X4.  [Marshal] does not check the length of the session ID: it writes
    the length modulo 256 in the length byte and all the bytes of the
    session ID after it.  A decoding of the output has a session ID of the
    length the byte announces, so a session ID of more than 255 bytes is
    never read back. *)
Theorem Marshal_SessionID_unchecked (m : MessageServerHello) (data : bytes) :
  MessageServerHello_Marshal m = Ok data ->
  byte_to_Z (at_ data 34) = len (SessionID m) mod 256 /\
  slice data 35 (35 + len (SessionID m)) = SessionID m /\
  (forall m0 m',
     MessageServerHello_Unmarshal m0 data = (m', None) ->
     len (SessionID m') = len (SessionID m) mod 256 /\
     (255 < len (SessionID m) -> SessionID m' <> SessionID m)).
Proof.
  intros Hm.
  destruct (Marshal_inv _ _ Hm) as (cs & cm & eb & Hcs & Hcm & He & ->).
  pose proof (length_Random_MarshalFixed (Random_ m)) as Hr.
  assert (H34 : at_ (encoding (protocol.Major (Version m))
                       (protocol.Minor (Version m))
                       (Random_MarshalFixed (Random_ m))
                       (byte_of_Z (len (SessionID m))) (SessionID m)
                       (PutUint16 cs) (protocol.ID cm) eb) 34
                = byte_of_Z (len (SessionID m))).
  { unfold encoding.
    rewrite (app_assoc [protocol.Major (Version m); protocol.Minor (Version m)]).
    apply at_app. rewrite length_app, Hr. reflexivity. }
  rewrite H34, byte_to_of_Z.
  split; [reflexivity|]. split.
  - unfold encoding.
    rewrite (app_assoc [protocol.Major (Version m); protocol.Minor (Version m)]),
      (app_assoc (_ ++ Random_MarshalFixed (Random_ m))).
    apply slice_app.
    + rewrite !length_app, Hr. reflexivity.
    + unfold len. lia.
  - intros m0 m' Hu.
    pose proof (Unmarshal_SessionID_length _ _ _ Hu) as Hl.
    rewrite H34, byte_to_of_Z in Hl.
    split; [exact Hl|].
    intros Hlong Heq. rewrite Heq in Hl.
    pose proof (Z.mod_pos_bound (len (SessionID m)) 256). lia.
Qed.

(** X5.  [Unmarshal] rejects an encoding whose compression method is not
    a known one: the encoding being long enough for its fixed fields, the
    error is [errInvalidCompressionMethod], and the extensions are not
    read. *)
Theorem Unmarshal_invalid_compression (m0 : MessageServerHello) (data : bytes) :
  38 + byte_to_Z (at_ data 34) <= len data ->
  protocol.CompressionMethods (at_ data (37 + byte_to_Z (at_ data 34))) = None ->
  snd (MessageServerHello_Unmarshal m0 data) = Some errInvalidCompressionMethod /\
  Extensions (fst (MessageServerHello_Unmarshal m0 data)) = Extensions m0.
Proof.
  intros Hlen Hnone.
  destruct (encoding_of data Hlen)
    as (major & minor & random & sidLen & sid & cipher & compression & extensions
        & -> & Hr & Hs & Hc & Ho & Hl).
  pose proof (byte_to_Z_range sidLen) as Hn.
  assert (Hsl : at_ (encoding major minor random sidLen sid cipher compression
                       extensions) 34 = sidLen).
  { unfold encoding. rewrite (app_assoc [major; minor] random).
    apply at_app. rewrite length_app, Hr. reflexivity. }
  rewrite Hsl in Hnone.
  assert (Hat : at_ (encoding major minor random sidLen sid cipher compression
                       extensions) (37 + byte_to_Z sidLen) = compression).
  { unfold encoding.
    rewrite (app_assoc [major; minor] random),
      (app_assoc ([major; minor] ++ random) [sidLen]),
      (app_assoc (([major; minor] ++ random) ++ [sidLen]) sid),
      (app_assoc ((([major; minor] ++ random) ++ [sidLen]) ++ sid) cipher).
    apply at_app. rewrite !length_app, Hr, Hs, Hc. cbn [length]. lia. }
  rewrite Hat in Hnone.
  rewrite Unmarshal_encoding by assumption. cbv zeta. rewrite Hnone.
  split; reflexivity.
Qed.

End WithCodec.

Import ExampleCodec Scenario.

Lemma Unmarshal_Marshal_witness :
  exists data,
    MessageServerHello_Marshal parsedServerHello = Ok data /\
    MessageServerHello_Unmarshal emptyMessageServerHello data
      = (parsedServerHello, None).
Proof.
  apply (Unmarshal_Marshal emptyMessageServerHello parsedServerHello 0xc02b
           (protocol.mkCompressionMethod x00) [x00; x00]);
    try reflexivity; vm_compute;
    first [discriminate | split; [discriminate|reflexivity]].
Defined.

Lemma Unmarshal_complete_witness :
  (exists cs cm,
     CipherSuiteID parsedServerHello = Some cs /\ 0 <= cs < 65536 /\
     CompressionMethod parsedServerHello = Some cm /\
     protocol.CompressionMethods
       (at_ rawServerHello (37 + byte_to_Z (at_ rawServerHello 34))) = Some cm) /\
  len (SessionID parsedServerHello) = byte_to_Z (at_ rawServerHello 34) /\
  len (SessionID parsedServerHello) <= 255 /\
  Version parsedServerHello
    = protocol.mkVersion (at_ rawServerHello 0) (at_ rawServerHello 1) /\
  (forall e, MessageServerHello_Marshal parsedServerHello = Err e ->
             extension.Marshal (Extensions parsedServerHello) = Err e).
Proof.
  apply (Unmarshal_complete emptyMessageServerHello parsedServerHello rawServerHello).
  exact (proj1 (rawServerHello_roundtrip eq_refl eq_refl)).
Defined.

(** A session ID of 256 bytes is written with the length byte 0, and the
    encoding reads back as a message without session ID. *)
Lemma Marshal_SessionID_unchecked_witness :
  byte_to_Z (at_ longSessionData 34) = len (SessionID longSessionHello) mod 256 /\
  slice longSessionData 35 (35 + len (SessionID longSessionHello))
    = SessionID longSessionHello /\
  (forall m0 m',
     MessageServerHello_Unmarshal m0 longSessionData = (m', None) ->
     len (SessionID m') = len (SessionID longSessionHello) mod 256 /\
     (255 < len (SessionID longSessionHello) ->
      SessionID m' <> SessionID longSessionHello)).
Proof.
  apply (Marshal_SessionID_unchecked longSessionHello longSessionData).
  reflexivity.
Defined.

Lemma Unmarshal_invalid_compression_witness :
  snd (MessageServerHello_Unmarshal emptyMessageServerHello compressedServerHello)
    = Some errInvalidCompressionMethod /\
  Extensions (fst (MessageServerHello_Unmarshal emptyMessageServerHello
                     compressedServerHello))
    = Extensions emptyMessageServerHello.
Proof.
  apply (Unmarshal_invalid_compression emptyMessageServerHello compressedServerHello).
  - vm_compute. discriminate.
  - reflexivity.
Defined.

(** The encoding of the message with the long session ID is accepted, and
    read as a message with no session ID. *)
Example longSession_read_back :
  snd (MessageServerHello_Unmarshal emptyMessageServerHello longSessionData) = None /\
  SessionID (fst (MessageServerHello_Unmarshal emptyMessageServerHello
                    longSessionData)) = [].
Proof. split; reflexivity. Qed.

End ServerHelloCodecFacts.

(* ------------------------------------------------------------------ *)
(** ** AES-GCM record protection: what is accepted, what is written *)

Module GCMRecordFacts.
Import protocol recordlayer ciphersuite BytesFacts HeaderFacts.
Local Open Scope Z_scope.

Lemma Header_Size_min (h : Header) : 13 <= Header_Size h.
Proof.
  unfold Header_Size, FixedHeaderSize. destruct (isCID h); [|lia].
  pose proof (len_nonneg (ConnectionID h)). lia.
Qed.

(** X6.  [Decrypt] returns bytes in two cases only.  Either the record is
    a ChangeCipherSpec, and the bytes are the input as it stands, not
    authenticated; or the record holds more than the header and the 8 bytes
    of the explicit nonce, the remote AEAD opened what follows them, under
    the nonce made of the first four bytes of the remote write IV and the
    explicit nonce and under the additional data of the header, and the
    bytes are the header as received followed by the plaintext the AEAD
    returned. *)
Theorem Decrypt_authenticated (g : GCM) (hdr : Header) (in_ out : bytes) :
  Decrypt g hdr in_ = Ok out ->
  exists h,
    Header_Unmarshal hdr in_ = Ok h /\
    ((ContentType h = ContentTypeChangeCipherSpec /\ out = in_) \/
     (ContentType h <> ContentTypeChangeCipherSpec /\
      8 + Header_Size h < len in_ /\
      exists plaintext,
        Open (remoteGCM g)
          (take 4 (remoteWriteIV g) ++ slice_to 8 (slice_from (Header_Size h) in_))
          (slice_from (Header_Size h + 8) in_)
          (additionalData h
             (len (slice_from (Header_Size h + 8) in_) - gcmTagLength))
        = Ok plaintext /\
        out = slice_to (Header_Size h) in_ ++ plaintext)).
Proof.
  unfold Decrypt. intros H.
  destruct (Header_Unmarshal hdr in_) as [h|e] eqn:Hh; [|discriminate].
  exists h. split; [reflexivity|].
  destruct (bool_decide (ContentType h = ContentTypeChangeCipherSpec)) eqn:Hc.
  - left. apply bool_decide_eq_true_1 in Hc. injection H as <-. auto.
  - right. apply bool_decide_eq_false_1 in Hc.
    destruct (Z.leb_spec (len in_) (8 + Header_Size h)) as [?|Hlen]; [discriminate|].
    destruct (len (remoteWriteIV g) <? 4); [discriminate|].
    destruct (Open _ _ _ _) as [plaintext|e] eqn:Ho; [|discriminate].
    injection H as <-. split; [exact Hc|]. split; [lia|].
    exists plaintext. split; reflexivity.
Qed.

(** [Decrypt] rejects a record that has no room for the explicit
    nonce: when the input does not parse as a header the error is the
    header's, and when it parses to a record other than a ChangeCipherSpec
    with at most 8 bytes after the header the error is
    [errNotEnoughRoomForNonce], whatever the keys. *)
Theorem Decrypt_not_enough_room (g : GCM) (hdr : Header) (in_ : bytes) :
  (forall e, Header_Unmarshal hdr in_ = Err e -> Decrypt g hdr in_ = Err e) /\
  (forall h, Header_Unmarshal hdr in_ = Ok h ->
     ContentType h <> ContentTypeChangeCipherSpec ->
     len in_ <= 8 + Header_Size h ->
     Decrypt g hdr in_ = Err errNotEnoughRoomForNonce) /\
  (len in_ < 13 -> exists e, Decrypt g hdr in_ = Err e).
Proof.
  split; [|split].
  - intros e He. unfold Decrypt. rewrite He. reflexivity.
  - intros h Hh Hc Hlen. unfold Decrypt. rewrite Hh.
    rewrite bool_decide_eq_false_2 by exact Hc.
    destruct (Z.leb_spec (len in_) (8 + Header_Size h)) as [_|?]; [reflexivity|lia].
  - intros Hlen. unfold Decrypt, Header_Unmarshal, FixedHeaderSize.
    destruct (Z.ltb_spec (len in_) 13) as [_|?]; [|lia]. eauto.
Qed.

(** X7.  The record [Encrypt] writes.  For a raw record at least as long
    as the header of the packet and a local write IV of at least four
    bytes, the output is the bytes of the raw record up to the length field
    of the header, the length field set to the number of bytes that follow
    it (as a 16-bit number), the 8 bytes of the explicit nonce in clear, and
    what the local AEAD seals of the bytes after the header, under the
    nonce made of the first four bytes of the IV and the explicit nonce and
    under the additional data taken from the header of the packet.  When
    the random source fails, its error is returned. *)
Theorem Encrypt_wire (g : GCM) (h : Header) (raw explicitNonce : bytes) :
  Header_Size h <= len raw ->
  4 <= len (localWriteIV g) ->
  length explicitNonce = 8%nat ->
  (let payload := slice_from (Header_Size h) raw in
   let sealed := Seal (localGCM g) (take 4 (localWriteIV g) ++ explicitNonce)
                   payload (additionalData h (len payload)) in
   Encrypt g h raw (Ok explicitNonce)
   = Ok (slice_to (Header_Size h - 2) raw
           ++ PutUint16 (uint16 (8 + len sealed)) ++ explicitNonce ++ sealed)) /\
  (forall e, Encrypt g h raw (Err e) = Err e).
Proof.
  intros Hraw Hiv Hn.
  pose proof (Header_Size_min h) as Hmin.
  unfold Encrypt.
  destruct (Z.ltb_spec (len raw) (Header_Size h)) as [?|_]; [lia|].
  destruct (Z.ltb_spec (len (localWriteIV g)) 4) as [?|_]; [lia|].
  split; [|reflexivity].
  cbv zeta. f_equal.
  set (size := Header_Size h) in *.
  set (sealed := Seal _ _ _ _).
  assert (Htake : length (take 4 (localWriteIV g)) = 4%nat).
  { rewrite length_take. unfold len in Hiv. lia. }
  rewrite drop_app_length' by (symmetry; exact Htake).
  assert (Hsl : length (slice_to size raw) = Z.to_nat size).
  { unfold slice_to. rewrite length_take. unfold len in Hraw. lia. }
  assert (Hlen : len (slice_to size raw ++ explicitNonce ++ sealed) - size
                 = 8 + len sealed).
  { unfold len. rewrite !length_app, Hsl, Hn. lia. }
  rewrite Hlen. unfold overwrite.
  assert (Hsplit : slice_to size raw
                   = slice_to (size - 2) raw ++ drop (Z.to_nat (size - 2)) (slice_to size raw)).
  { unfold slice_to. rewrite <- (take_drop (Z.to_nat (size - 2)) (take (Z.to_nat size) raw)) at 1.
    rewrite take_take. f_equal. f_equal. lia. }
  assert (H2 : length (drop (Z.to_nat (size - 2)) (slice_to size raw)) = 2%nat).
  { rewrite length_drop, Hsl. lia. }
  assert (Hpre : length (slice_to (size - 2) raw) = Z.to_nat (size - 2)).
  { unfold slice_to. rewrite length_take. unfold len in Hraw. lia. }
  rewrite Hsplit at 1 2. rewrite <- !app_assoc.
  rewrite take_app_length' by (symmetry; exact Hpre).
  f_equal. f_equal.
  rewrite length_PutUint16.
  rewrite drop_app_ge by (rewrite Hpre; lia).
  rewrite Hpre.
  replace (Z.to_nat (size - 2) + 2 - Z.to_nat (size - 2))%nat with 2%nat by lia.
  rewrite drop_app_length' by (symmetry; exact H2). reflexivity.
Qed.

Import Examples Scenario.

Lemma Decrypt_authenticated_witness :
  exists h,
    Header_Unmarshal zeroHeader exampleEncrypted = Ok h /\
    ((ContentType h = ContentTypeChangeCipherSpec /\
      exampleHeaderBytes' ++ examplePayload = exampleEncrypted) \/
     (ContentType h <> ContentTypeChangeCipherSpec /\
      8 + Header_Size h < len exampleEncrypted /\
      exists plaintext,
        Open (remoteGCM exampleReceiver)
          (take 4 (remoteWriteIV exampleReceiver)
             ++ slice_to 8 (slice_from (Header_Size h) exampleEncrypted))
          (slice_from (Header_Size h + 8) exampleEncrypted)
          (additionalData h
             (len (slice_from (Header_Size h + 8) exampleEncrypted) - gcmTagLength))
        = Ok plaintext /\
        exampleHeaderBytes' ++ examplePayload
          = slice_to (Header_Size h) exampleEncrypted ++ plaintext)).
Proof.
  apply (Decrypt_authenticated exampleReceiver zeroHeader exampleEncrypted).
  vm_compute. reflexivity.
Defined.

Lemma Encrypt_wire_witness :
  ciphersuite.Encrypt exampleSender exampleHeader
    (exampleHeaderBytes ++ examplePayload) (Ok exampleNonce)
  = Ok (slice_to (Header_Size exampleHeader - 2) (exampleHeaderBytes ++ examplePayload)
          ++ PutUint16
               (uint16
                  (8 + len (Seal (localGCM exampleSender)
                              (take 4 (localWriteIV exampleSender) ++ exampleNonce)
                              (slice_from (Header_Size exampleHeader)
                                 (exampleHeaderBytes ++ examplePayload))
                              (additionalData exampleHeader
                                 (len (slice_from (Header_Size exampleHeader)
                                         (exampleHeaderBytes ++ examplePayload)))))))
          ++ exampleNonce
          ++ Seal (localGCM exampleSender)
               (take 4 (localWriteIV exampleSender) ++ exampleNonce)
               (slice_from (Header_Size exampleHeader)
                  (exampleHeaderBytes ++ examplePayload))
               (additionalData exampleHeader
                  (len (slice_from (Header_Size exampleHeader)
                          (exampleHeaderBytes ++ examplePayload))))).
Proof.
  apply (Encrypt_wire exampleSender exampleHeader
           (exampleHeaderBytes ++ examplePayload) exampleNonce).
  - vm_compute. discriminate.
  - vm_compute. discriminate.
  - reflexivity.
Defined.

End GCMRecordFacts.

(* ------------------------------------------------------------------ *)
(** ** The receive path: what a record can and cannot change *)

Module ReceiveInvariantFacts.
Import protocol recordlayer dtls BytesFacts HeaderFacts Notions FrameNotions.
Local Open Scope Z_scope.

(** Case analysis on every test of the goal, innermost first. *)
Ltac break_tests :=
  repeat (match goal with
          | |- context [match ?x with _ => _ end] =>
              lazymatch x with
              | context [match _ with _ => _ end] => fail
              | _ => destruct x eqn:?
              end
          end; cbv beta iota zeta).

(** The cases in which a test has an outcome it cannot have. *)
Ltac impossible_test :=
  match goal with
  | H : false && _ = true |- _ => simpl in H; discriminate H
  | H : _ && false = true |- _ => rewrite andb_false_r in H; discriminate H
  end.

Section WithPlatform.
Context {platform : Platform}.

Lemma sendSideKept_refl (c : Conn) : sendSideKept c c.
Proof. unfold sendSideKept. repeat split. Qed.

Lemma sendSideKept_trans (c1 c2 c3 : Conn) :
  sendSideKept c1 c2 -> sendSideKept c2 c3 -> sendSideKept c1 c3.
Proof.
  unfold sendSideKept. intros H1 H2.
  repeat match goal with H : _ /\ _ |- _ => destruct H end.
  repeat split; congruence.
Qed.

Lemma cachePopped_kept (c : Conn) (popped : list (bytes * Z)) :
  sendSideKept c (cachePopped c popped) /\
  decrypted (cachePopped c popped) = decrypted c /\
  rAddr (cachePopped c popped) = rAddr c /\
  remoteEpoch (state (cachePopped c popped)) = remoteEpoch (state c) /\
  replayDetector (state (cachePopped c popped)) = replayDetector (state c) /\
  fragmentBuffer (cachePopped c popped) = fragmentBuffer c.
Proof.
  revert c. induction popped as [|[out epoch] rest IH]; intros c; cbn [cachePopped].
  - split; [apply sendSideKept_refl|]. repeat split.
  - destruct (handshakeHeader_Unmarshal out) as [header|]; [|apply IH].
    destruct (IH (set_handshakeCache c
                    (handshakeCache_push (handshakeCache c) out epoch
                       (handshake.MessageSequence header) (handshake.Type_ header)
                       (negb (isClient (state c))))))
      as (Hk & Hd & Ha & He & Hr & Hf).
    split; [|repeat split; assumption].
    eapply sendSideKept_trans; [|exact Hk]. unfold sendSideKept. repeat split.
Qed.

(** X8.  A received record never touches the send side: whatever the
    record and whatever becomes of it, [handleIncomingPacket] leaves the
    socket, the local epoch and sequence numbers, the cipher suite, the
    connection IDs, the session ID, the MTU and the flags of the connection
    as they were.  It writes nothing to the socket: the alert it may answer
    with is returned to the caller. *)
Theorem handleIncomingPacket_send_side (c : Conn) (buf : bytes) (a : Addr)
    (enqueue stopped : bool) :
  sendSideKept c (fst (handleIncomingPacket c buf a enqueue stopped)).
Proof.
  unfold handleIncomingPacket, decryptRecord, afterDecrypt, dispatchContent,
    enqueueAndDiscard, enqueueEncryptedPackets, markPacketAsValid.
  cbv beta zeta.
  break_tests; cbn [fst snd];
    try (unfold sendSideKept; cbn; repeat split; fail).
  all: match goal with
       | |- sendSideKept ?c (cachePopped ?c1 ?p) =>
           eapply sendSideKept_trans; [|apply cachePopped_kept];
           unfold sendSideKept; cbn; repeat split
       end.
Qed.

Lemma uint16_succ_inj (e r : Z) :
  0 <= e < 65536 -> 0 <= r < 65536 ->
  uint16 (r + 1) = uint16 (e + 1) -> e = r.
Proof.
  unfold uint16. intros He Hr H.
  destruct (Z.eq_dec e 65535) as [->|]; destruct (Z.eq_dec r 65535) as [->|];
    try reflexivity.
  - change ((65535 + 1) mod 65536) with 0 in H.
    rewrite Z.mod_small in H by lia. lia.
  - change ((65535 + 1) mod 65536) with 0 in H.
    rewrite Z.mod_small in H by lia. lia.
  - rewrite !Z.mod_small in H by lia. lia.
Qed.

(** X9.  The remote epoch moves one step at a time: a received record
    leaves it as it was or sets it to the next epoch (as a 16-bit number),
    and the latter only when the cipher suite is initialized and the record
    is of the current remote epoch. *)
Theorem remote_epoch_step (c : Conn) (buf : bytes) (a : Addr)
    (enqueue stopped : bool) :
  remoteEpoch (state (fst (handleIncomingPacket c buf a enqueue stopped)))
    = remoteEpoch (state c) \/
  (remoteEpoch (state (fst (handleIncomingPacket c buf a enqueue stopped)))
     = uint16 (remoteEpoch (state c) + 1) /\
   cipherSuiteReady c = true /\
   exists h,
     Header_Unmarshal (receiveHeader c) buf = Ok h /\
     uint16 (Epoch h + 1) = uint16 (remoteEpoch (state c) + 1) /\
     (0 <= remoteEpoch (state c) < 65536 -> Epoch h = remoteEpoch (state c))).
Proof.
  unfold handleIncomingPacket, decryptRecord, afterDecrypt, dispatchContent,
    enqueueAndDiscard, enqueueEncryptedPackets, markPacketAsValid.
  cbv beta zeta.
  break_tests; cbn [fst snd];
    try (left; cbn; reflexivity);
    try (left; rewrite (proj1 (proj2 (proj2 (proj2 (cachePopped_kept _ _)))));
         cbn; reflexivity).
  all: right; cbn [fst snd state remoteEpoch set_state set_remoteEpoch set_rAddr
                    set_replayDetector set_fragmentBuffer set_decrypted];
    match goal with
    | H : (uint16 (_ + 1) =? uint16 (_ + 1)) = true |- _ =>
        apply Z.eqb_eq in H; rename H into Hstep
    end;
    match goal with
    | H : negb (cipherSuiteReady (set_fragmentBuffer _ _)) = false |- _ =>
        apply negb_false_iff in H; rename H into Hready
    end;
    split; [symmetry; exact Hstep|]; split; [exact Hready|];
    eexists; split; [reflexivity|];
    split; [symmetry; exact Hstep|];
    intros Hre; eapply uint16_succ_inj;
      [eapply Header_Unmarshal_Epoch; eassumption | exact Hre | exact Hstep].
Qed.

(** X10.  The remote address changes only for an authenticated connection
    ID record that is the latest received: [handleIncomingPacket] leaves
    [rAddr] as it was unless the record has content type [tls12_cid], is of
    an epoch other than zero, was decrypted by the cipher suite, carries the
    local connection ID, and the replay detector of its epoch reports its
    sequence number as the latest; the address then becomes the one the
    record came from. *)
Theorem remote_address_update (c : Conn) (buf : bytes) (a : Addr)
    (enqueue stopped : bool) :
  rAddr (fst (handleIncomingPacket c buf a enqueue stopped)) = rAddr c \/
  (rAddr (fst (handleIncomingPacket c buf a enqueue stopped)) = a /\
   Addr_eqb a (rAddr c) = false /\
   exists h cs plain d d',
     Header_Unmarshal (receiveHeader c) buf = Ok h /\
     ContentType h = ContentTypeConnectionID /\
     Epoch h <> 0 /\
     cipherSuite (state c) = Some cs /\
     Decrypt cs (decryptHeader c h) buf = Ok plain /\
     ConnectionID h = localConnectionID (state c) /\
     growReplayDetectors c (Epoch h) !! Z.to_nat (Epoch h) = Some d /\
     replaydetector_accept d (SequenceNumber h) = (d', true)).
Proof.
  unfold handleIncomingPacket, decryptRecord, afterDecrypt, dispatchContent,
    enqueueAndDiscard, enqueueEncryptedPackets, markPacketAsValid.
  cbv beta zeta.
  break_tests; cbn [fst snd];
    try impossible_test;
    try (left; cbn; reflexivity);
    try (left; rewrite (proj1 (proj2 (proj2 (cachePopped_kept _ _))));
         cbn; reflexivity).
  all: right; split; [reflexivity|];
    match goal with
    | H : negb (Addr_eqb _ _) = true |- _ => apply negb_true_iff in H; cbn in H
    end;
    split; [assumption|];
    match goal with
    | H : bool_decide (ContentType _ = ContentTypeConnectionID) = true |- _ =>
        apply bool_decide_eq_true_1 in H
    end;
    repeat match goal with
    | H : negb (_ =? 0) = true |- _ => apply negb_true_iff, Z.eqb_neq in H
    | H : (_ =? 0) = false |- _ => apply Z.eqb_neq in H
    | H : negb (bytes_eqb _ _) = false |- _ =>
        apply negb_false_iff, bool_decide_eq_true_1 in H
    | H : true && _ = true |- _ => simpl in H
    end;
    subst;
    repeat eexists; try eassumption; try reflexivity; try (symmetry; assumption).
Qed.


(** X12.  What [handleIncomingPacket] returns.  When it reports a
    handshake message it returns neither alert nor error.  An alert to send
    comes with an error: a fatal [decode_error] with the error of the
    record decoder, a fatal [unexpected_message] for application data at
    epoch zero or a content the connection does not handle, and a warning
    [close_notify] in answer to a [close_notify] alert received.  An error
    without alert is an alert received that is not a [close_notify], or a
    run-time panic. *)
Theorem handleIncomingPacket_verdict (c : Conn) (buf : bytes) (a : Addr)
    (enqueue stopped : bool) :
  match snd (handleIncomingPacket c buf a enqueue stopped) with
  | (true, reply, err) => reply = None /\ err = None
  | (false, Some reply, err) =>
      (reply = mkAlert alert.Fatal alert.DecodeError /\ exists e, err = Some e) \/
      (reply = mkAlert alert.Fatal alert.UnexpectedMessage /\
       (err = Some errApplicationDataEpochZero \/
        exists contentType, err = Some (errUnhandledContextType contentType))) \/
      (reply = mkAlert alert.Warning alert.CloseNotify /\
       exists content, err = Some (alertError content) /\
         alertDescription content = alert.CloseNotify)
  | (false, None, Some e) =>
      e = runtimePanic \/
      exists content, e = alertError content /\
        alertDescription content <> alert.CloseNotify
  | (false, None, None) => True
  end.
Proof.
  unfold handleIncomingPacket, decryptRecord, afterDecrypt, dispatchContent,
    enqueueAndDiscard, enqueueEncryptedPackets, markPacketAsValid, discarded.
  cbv beta zeta.
  break_tests; cbn [fst snd] in *;
    repeat match goal with
    | H : (_, _) = (_, _) |- _ => inversion H; clear H; subst
    end;
    try discriminate; try exact I; try (split; reflexivity); auto.
  all: try (left; split; [reflexivity|]; eexists; reflexivity).
  all: try (right; left; split; [reflexivity|]; first [left; reflexivity | right; eexists; reflexivity]).
  all: try (right; right; split; [reflexivity|]; eexists; split; [reflexivity|];
            match goal with H : (_ =? _) = true |- _ => apply Z.eqb_eq in H; exact H end).
  all: try (right; eexists; split; [reflexivity|];
            match goal with H : (_ =? _) = false |- _ => apply Z.eqb_neq in H; exact H end).
Qed.

(** A record handled without leave to enqueue leaves the queue of early
    packets as it was. *)
Lemma handleIncomingPacket_no_enqueue (c : Conn) (buf : bytes) (a : Addr)
    (stopped : bool) :
  encryptedPackets (fst (handleIncomingPacket c buf a false stopped))
  = encryptedPackets c.
Proof.
  unfold handleIncomingPacket, decryptRecord, afterDecrypt, dispatchContent,
    enqueueAndDiscard, markPacketAsValid.
  cbv beta zeta.
  break_tests; cbn [fst snd];
    try (cbn; reflexivity);
    try (rewrite ReceiveFacts.cachePopped_queue; cbn; reflexivity).
Qed.

(** X13.  Records that are discarded without a word.  A record whose
    header does not parse, in particular one of fewer than 13 bytes, is
    discarded and changes nothing.  A record of an epoch the connection has
    reached whose sequence number the replay detector of the epoch refuses
    is discarded before any decryption: the only change is the list of
    replay detectors, grown to the epoch.  In both cases neither alert nor
    error is returned. *)
Theorem silently_discarded (c : Conn) (buf : bytes) (a : Addr)
    (enqueue stopped : bool) :
  (forall e, Header_Unmarshal (receiveHeader c) buf = Err e ->
     handleIncomingPacket c buf a enqueue stopped = (c, (false, None, None))) /\
  (len buf < 13 ->
     handleIncomingPacket c buf a enqueue stopped = (c, (false, None, None))) /\
  (forall h d,
     Header_Unmarshal (receiveHeader c) buf = Ok h ->
     Epoch h <= remoteEpoch (state c) ->
     growReplayDetectors c (Epoch h) !! Z.to_nat (Epoch h) = Some d ->
     replaydetector_Check d (SequenceNumber h) = false ->
     handleIncomingPacket c buf a enqueue stopped
     = (set_state c
          (set_replayDetector (state c) (growReplayDetectors c (Epoch h))),
        (false, None, None))).
Proof.
  split; [|split].
  - intros e He. unfold handleIncomingPacket. rewrite He. reflexivity.
  - intros Hlen. unfold handleIncomingPacket, Header_Unmarshal, FixedHeaderSize.
    destruct (Z.ltb_spec (len buf) 13) as [_|?]; [reflexivity|lia].
  - intros h d Hh He Hd Hcheck. unfold handleIncomingPacket. rewrite Hh.
    cbv zeta.
    destruct (Z.ltb_spec (remoteEpoch (state c)) (Epoch h)) as [?|_]; [lia|].
    cbn [state set_state replayDetector set_replayDetector].
    rewrite Hd, Hcheck. reflexivity.
Qed.

(** X14.  The connection ID is enforced on protected records.  For a
    record of an epoch other than zero that the connection has reached,
    with the cipher suite initialized: when a connection ID has been
    negotiated and the record is not of content type [tls12_cid], or when
    the connection ID of the record is not the local one, the record
    delivers nothing: the call returns neither alert nor handshake flag (at
    worst a run-time panic of the model of the suite), and the channel, the
    remote epoch, the remote address, the queue and the fragment buffer are
    as before; no sequence number is marked. *)
Theorem connection_id_enforced (c : Conn) (buf : bytes) (a : Addr)
    (enqueue stopped : bool) (h : Header) :
  Header_Unmarshal (receiveHeader c) buf = Ok h ->
  Epoch h <> 0 -> Epoch h <= remoteEpoch (state c) ->
  cipherSuiteReady c = true ->
  (0 < len (localConnectionID (state c)) /\
   ContentType h <> ContentTypeConnectionID) \/
  ConnectionID h <> localConnectionID (state c) ->
  fst (handleIncomingPacket c buf a enqueue stopped)
    = set_state c (set_replayDetector (state c) (growReplayDetectors c (Epoch h))) /\
  (snd (handleIncomingPacket c buf a enqueue stopped) = (false, None, None) \/
   snd (handleIncomingPacket c buf a enqueue stopped)
     = (false, None, Some runtimePanic)).
Proof.
  intros Hh He Hle Hready Hcid.
  unfold handleIncomingPacket. rewrite Hh. cbv zeta.
  destruct (Z.ltb_spec (remoteEpoch (state c)) (Epoch h)) as [?|_]; [lia|].
  cbn [state set_state replayDetector set_replayDetector].
  destruct (growReplayDetectors c (Epoch h) !! Z.to_nat (Epoch h)) as [d|];
    [|cbn [fst snd]; auto].
  destruct (replaydetector_Check d (SequenceNumber h)); cbn [negb fst snd]; [|auto].
  destruct (Z.eqb_spec (Epoch h) 0) as [?|_]; [contradiction|]. cbn [negb].
  unfold decryptRecord.
  change (cipherSuiteReady (set_state c _)) with (cipherSuiteReady c).
  rewrite Hready. cbn [negb state set_state set_replayDetector cipherSuite
                         localConnectionID].
  unfold cipherSuiteReady in Hready.
  destruct (cipherSuite (state c)) as [cs|]; [|discriminate].
  destruct Hcid as [[Hneg Hct]|Hne].
  - apply Z.ltb_lt in Hneg. rewrite Hneg.
    rewrite bool_decide_eq_false_2 by exact Hct. cbn [negb andb fst snd]. auto.
  - destruct ((0 <? len (localConnectionID (state c)))
              && negb (bool_decide (ContentType h = ContentTypeConnectionID)));
      [cbn [fst snd]; auto|].
    destruct (Decrypt cs _ buf) as [plain|]; [|cbn [fst snd]; auto].
    assert (Hneq : negb (bytes_eqb (localConnectionID (state c)) (ConnectionID h))
                   = true).
    { unfold bytes_eqb. rewrite bool_decide_eq_false_2 by congruence. reflexivity. }
    destruct (bool_decide (ContentType h = ContentTypeConnectionID)).
    + destruct (len plain <? Header_Size h); [cbn [fst snd]; auto|].
      destruct (InnerPlaintext_Unmarshal _) as [ip|e].
      * destruct (Header_Marshal _) as [raw|e]; cbn [fst snd].
        -- rewrite Hneq. cbn [fst snd]. auto.
        -- destruct e; cbn [fst snd]; auto.
      * destruct e; cbn [fst snd]; auto.
    + rewrite Hneq. cbn [fst snd]. auto.
Qed.

End WithPlatform.

Import ExamplePlatform Scenario.

(** On a connection that has negotiated a connection ID, a protected
    record of content type 23 delivers nothing. *)
Lemma connection_id_enforced_witness :
  fst (handleIncomingPacket cidConn forgedRecord 7 true false)
    = set_state cidConn
        (set_replayDetector (state cidConn)
           (growReplayDetectors cidConn (Epoch forgedHeaderCID))) /\
  (snd (handleIncomingPacket cidConn forgedRecord 7 true false)
     = (false, None, None) \/
   snd (handleIncomingPacket cidConn forgedRecord 7 true false)
     = (false, None, Some runtimePanic)).
Proof.
  apply (connection_id_enforced cidConn forgedRecord 7 true false forgedHeaderCID).
  - vm_compute. reflexivity.
  - vm_compute. discriminate.
  - vm_compute. discriminate.
  - reflexivity.
  - left. split; [vm_compute; reflexivity|vm_compute; discriminate].
Defined.

(** The record of "hi" a second time: the replay detector of epoch 1 has
    seen its sequence number, and the record is discarded; the channel keeps
    the one item of the first time. *)
Lemma silently_discarded_witness :
  snd (handleIncomingPacket peerAfterHi hiDatagram 9 true false)
    = (false, None, None) /\
  chan_items (decrypted (fst (handleIncomingPacket peerAfterHi hiDatagram 9 true false)))
    = [ItemBytes hi].
Proof.
  destruct (silently_discarded peerAfterHi hiDatagram 9 true false)
    as (_ & _ & Hreplay).
  rewrite (Hreplay hiReceivedHeader [0]).
  - split; [reflexivity|]. vm_compute. reflexivity.
  - vm_compute. reflexivity.
  - vm_compute. discriminate.
  - vm_compute. reflexivity.
  - vm_compute. reflexivity.
Defined.

End ReceiveInvariantFacts.

(* ------------------------------------------------------------------ *)
(** ** The receive path, content by content *)

Module ReceiveContentFacts.
Import protocol recordlayer dtls BytesFacts HeaderFacts Notions FrameNotions.
Local Open Scope Z_scope.

Section WithPlatform.
Context {platform : Platform}.

(** A record that is taken up reaches the fragment buffer. *)
Lemma takenUp_afterDecrypt (c : Conn) (buf : bytes) (a : Addr)
    (enqueue stopped : bool) (h : Header) (d : ReplayDetector) (plain : bytes) :
  takenUp c buf h d plain ->
  handleIncomingPacket c buf a enqueue stopped
  = afterDecrypt
      (set_state c (set_replayDetector (state c) (growReplayDetectors c (Epoch h))))
      h plain a enqueue stopped false.
Proof.
  intros (Hh & He & Hd & Hcheck & Hcid & Hct & Hplain).
  unfold handleIncomingPacket. rewrite Hh. cbv zeta.
  destruct (Z.ltb_spec (remoteEpoch (state c)) (Epoch h)) as [?|_]; [lia|].
  cbn [state set_state replayDetector set_replayDetector].
  rewrite Hd, Hcheck. cbn [negb].
  destruct (Z.eqb_spec (Epoch h) 0) as [H0|H0]; cbn [negb].
  - subst plain. reflexivity.
  - destruct Hplain as (cs & Hcs & Hinit & Hdec).
    unfold decryptRecord, cipherSuiteReady.
    cbn [state set_state cipherSuite set_replayDetector localConnectionID].
    rewrite Hcs, Hinit, Hcid. cbn [negb len length Z.ltb andb Z.of_nat Z.compare].
    change (decryptHeader
              (set_state c
                 (set_replayDetector (state c) (growReplayDetectors c (Epoch h)))) h)
      with (decryptHeader c h).
    rewrite Hdec. rewrite bool_decide_eq_false_2 by exact Hct.
    assert (Hc : ConnectionID h = []).
    { unfold Header_Unmarshal in Hh.
      destruct (len buf <? FixedHeaderSize); [discriminate|].
      destruct buf as [|ct [|major [|minor rest]]]; try discriminate.
      destruct (bool_decide (ct = ContentTypeConnectionID)) eqn:Ect.
      - exfalso.
        destruct (len (ct :: major :: minor :: rest) <? _); [discriminate|].
        injection Hh as <-. apply Hct. cbn [ContentType].
        apply bool_decide_eq_true_1 in Ect. exact Ect.
      - destruct (len (ct :: major :: minor :: rest) <? _); [discriminate|].
        injection Hh as <-. cbn [ConnectionID]. unfold receiveHeader.
        rewrite Hcid. reflexivity. }
    rewrite Hc. unfold bytes_eqb. rewrite bool_decide_eq_true_2 by reflexivity.
    reflexivity.
Qed.

Lemma afterDecrypt_dispatch (c : Conn) (h : Header) (plain : bytes) (a : Addr)
    (enqueue stopped originalCID : bool) (fb : fragmentBufferT) :
  fragmentBuffer_push (fragmentBuffer c) plain = (fb, Ok false) ->
  afterDecrypt c h plain a enqueue stopped originalCID
  = dispatchContent (set_fragmentBuffer c fb) h plain a enqueue stopped originalCID.
Proof.
  intros Hpush. unfold afterDecrypt. change ([] ++ plain) with plain.
  rewrite Hpush. reflexivity.
Qed.

Lemma markPacketAsValid_seen (c : Conn) (h : Header) (fb : fragmentBufferT)
    (d : ReplayDetector) :
  growReplayDetectors c (Epoch h) !! Z.to_nat (Epoch h) = Some d ->
  markPacketAsValid (seen c h fb) (Epoch h) (SequenceNumber h)
  = (set_state (seen c h fb)
       (set_replayDetector (state (seen c h fb))
          (<[Z.to_nat (Epoch h) := fst (replaydetector_accept d (SequenceNumber h))]>
             (growReplayDetectors c (Epoch h)))),
     snd (replaydetector_accept d (SequenceNumber h))).
Proof.
  intros Hd. unfold markPacketAsValid, seen.
  cbn [state set_state set_fragmentBuffer replayDetector set_replayDetector].
  rewrite Hd. destruct (replaydetector_accept d (SequenceNumber h)); reflexivity.
Qed.


(** Application data at epoch zero is refused: a record of epoch
    zero that is taken up and holds application data gets a fatal
    [unexpected_message] alert and the error [errApplicationDataEpochZero];
    its data does not reach the channel and its sequence number is not
    marked by the replay detector. *)
Theorem application_data_epoch_zero (c : Conn) (buf : bytes) (a : Addr)
    (enqueue stopped : bool) (h : Header) (d : ReplayDetector)
    (fb : fragmentBufferT) (r : RecordLayer) (data : bytes) :
  takenUp c buf h d buf ->
  Epoch h = 0 ->
  fragmentBuffer_push (fragmentBuffer c) buf = (fb, Ok false) ->
  RecordLayer_Unmarshal buf = Ok r ->
  Content_ r = ContentApplicationData data ->
  handleIncomingPacket c buf a enqueue stopped
  = (seen c h fb,
     (false, Some (mkAlert alert.Fatal alert.UnexpectedMessage),
      Some errApplicationDataEpochZero)) /\
  decrypted (seen c h fb) = decrypted c /\
  replayDetector (state (seen c h fb)) = growReplayDetectors c 0.
Proof.
  intros Htaken He Hpush Hr Hdata.
  rewrite (takenUp_afterDecrypt _ _ a enqueue stopped _ _ _ Htaken).
  rewrite (afterDecrypt_dispatch _ _ _ _ _ _ _ fb) by exact Hpush.
  unfold dispatchContent, seen. rewrite Hr, Hdata, He.
  change (0 =? 0) with true. cbv iota.
  split; [reflexivity|]. split; reflexivity.
Qed.

(** X16.  A ChangeCipherSpec record that is taken up returns neither alert
    nor error.  With no initialized cipher suite it is put in the queue of
    early packets, when the caller asks for it and the queue has room.
    With an initialized suite, a record of the current remote epoch moves
    the remote epoch to the next one and has its sequence number marked; a
    record of an earlier epoch changes neither the remote epoch nor the
    replay detector. *)
Theorem change_cipher_spec_received (c : Conn) (buf : bytes) (a : Addr)
    (enqueue stopped : bool) (h : Header) (d : ReplayDetector) (plain : bytes)
    (fb : fragmentBufferT) (r : RecordLayer) :
  takenUp c buf h d plain ->
  fragmentBuffer_push (fragmentBuffer c) plain = (fb, Ok false) ->
  RecordLayer_Unmarshal plain = Ok r ->
  Content_ r = ContentChangeCipherSpec ->
  remoteEpoch (state c) < 65535 ->
  snd (handleIncomingPacket c buf a enqueue stopped) = (false, None, None) /\
  (cipherSuiteReady c = false ->
   fst (handleIncomingPacket c buf a enqueue stopped)
   = (if enqueue
      then fst (enqueueEncryptedPackets (seen c h fb) (mkAddrPkt a plain))
      else seen c h fb)) /\
  (cipherSuiteReady c = true -> Epoch h = remoteEpoch (state c) ->
   remoteEpoch (state (fst (handleIncomingPacket c buf a enqueue stopped)))
     = remoteEpoch (state c) + 1 /\
   replayDetector (state (fst (handleIncomingPacket c buf a enqueue stopped)))
     = <[Z.to_nat (Epoch h) := fst (replaydetector_accept d (SequenceNumber h))]>
         (growReplayDetectors c (Epoch h))) /\
  (cipherSuiteReady c = true -> Epoch h < remoteEpoch (state c) ->
   fst (handleIncomingPacket c buf a enqueue stopped) = seen c h fb).
Proof.
  intros Htaken Hpush Hr Hccs Hmax.
  pose proof Htaken as (_ & Hrange & Hd & _).
  rewrite (takenUp_afterDecrypt _ _ a enqueue stopped _ _ _ Htaken).
  rewrite (afterDecrypt_dispatch _ _ _ _ _ _ _ fb) by exact Hpush.
  unfold dispatchContent. rewrite Hr, Hccs. fold (seen c h fb).
  change (cipherSuiteReady (seen c h fb)) with (cipherSuiteReady c).
  change (remoteEpoch (state (seen c h fb))) with (remoteEpoch (state c)).
  cbn [andb]. cbv zeta.
  assert (Hu : forall e, 0 <= e <= 65535 -> uint16 e = e).
  { intros e ?. unfold uint16. apply Z.mod_small. lia. }
  destruct (cipherSuiteReady c) eqn:Hready; cbn [negb].
  - rewrite (Hu (remoteEpoch (state c) + 1)), (Hu (Epoch h + 1)) by lia.
    destruct (Z.eqb_spec (remoteEpoch (state c) + 1) (Epoch h + 1)) as [Heq|Hne].
    + change (set_state (seen c h fb)
                (set_remoteEpoch (state (seen c h fb)) (Epoch h + 1)))
        with (seen (set_state c (set_remoteEpoch (state c) (Epoch h + 1))) h fb).
      rewrite (markPacketAsValid_seen _ _ _ d) by exact Hd.
      cbn [fst snd]. split; [reflexivity|]. split; [discriminate|].
      split; [|intros _ ?; lia].
      intros _ _. split; [cbn; lia|reflexivity].
    + cbn [fst snd]. split; [reflexivity|]. split; [discriminate|].
      split; [intros _ ?; lia|]. intros _ _. reflexivity.
  - unfold enqueueAndDiscard. destruct enqueue; cbn [fst snd];
      (split; [reflexivity|]); (split; [reflexivity|]);
      split; discriminate.
Qed.

(** An alert record that is taken up is returned to the caller as
    the error [alertError]; the reply is a warning [close_notify] when the
    alert received is a [close_notify], and no alert otherwise.  The
    sequence number is marked; nothing reaches the channel, and the remote
    epoch stays. *)
Theorem alert_received (c : Conn) (buf : bytes) (a : Addr)
    (enqueue stopped : bool) (h : Header) (d : ReplayDetector) (plain : bytes)
    (fb : fragmentBufferT) (r : RecordLayer) (content : Alert) :
  takenUp c buf h d plain ->
  fragmentBuffer_push (fragmentBuffer c) plain = (fb, Ok false) ->
  RecordLayer_Unmarshal plain = Ok r ->
  Content_ r = ContentAlert content ->
  snd (handleIncomingPacket c buf a enqueue stopped)
  = (false,
     (if alertDescription content =? alert.CloseNotify
      then Some (mkAlert alert.Warning alert.CloseNotify) else None),
     Some (alertError content)) /\
  replayDetector (state (fst (handleIncomingPacket c buf a enqueue stopped)))
    = <[Z.to_nat (Epoch h) := fst (replaydetector_accept d (SequenceNumber h))]>
        (growReplayDetectors c (Epoch h)) /\
  decrypted (fst (handleIncomingPacket c buf a enqueue stopped)) = decrypted c /\
  remoteEpoch (state (fst (handleIncomingPacket c buf a enqueue stopped)))
    = remoteEpoch (state c).
Proof.
  intros Htaken Hpush Hr Halert.
  pose proof Htaken as (_ & _ & Hd & _).
  rewrite (takenUp_afterDecrypt _ _ a enqueue stopped _ _ _ Htaken).
  rewrite (afterDecrypt_dispatch _ _ _ _ _ _ _ fb) by exact Hpush.
  unfold dispatchContent. rewrite Hr, Halert. fold (seen c h fb).
  rewrite (markPacketAsValid_seen _ _ _ _ Hd). cbn [fst snd].
  repeat split.
Qed.

Lemma cachePopped_cache (c1 c2 : Conn) (popped : list (bytes * Z)) :
  handshakeCache c1 = handshakeCache c2 ->
  isClient (state c1) = isClient (state c2) ->
  handshakeCache (cachePopped c1 popped) = handshakeCache (cachePopped c2 popped).
Proof.
  revert c1 c2. induction popped as [|[out epoch] rest IH]; intros c1 c2 Hc Hi;
    cbn [cachePopped]; [exact Hc|].
  destruct (handshakeHeader_Unmarshal out) as [header|]; [|apply IH; assumption].
  apply IH; cbn [handshakeCache set_handshakeCache state]; [|exact Hi].
  rewrite Hc, Hi. reflexivity.
Qed.

(** X17.  A record that the fragment buffer takes for a handshake fragment
    is reported as such, with neither alert nor error: its sequence number
    is marked, the fragment buffer is left as the pops leave it, and the
    complete messages it yields are pushed to the handshake cache; the
    channel, the remote epoch, the remote address and the queue of early
    packets stay.  A record the fragment buffer fails on is discarded
    without alert or error, its sequence number not marked. *)
Theorem handshake_fragment_received (c : Conn) (buf : bytes) (a : Addr)
    (enqueue stopped : bool) (h : Header) (d : ReplayDetector) (plain : bytes)
    (fb : fragmentBufferT) :
  takenUp c buf h d plain ->
  (fragmentBuffer_push (fragmentBuffer c) plain = (fb, Ok true) ->
   snd (handleIncomingPacket c buf a enqueue stopped) = (true, None, None) /\
   replayDetector (state (fst (handleIncomingPacket c buf a enqueue stopped)))
     = <[Z.to_nat (Epoch h) := fst (replaydetector_accept d (SequenceNumber h))]>
         (growReplayDetectors c (Epoch h)) /\
   fragmentBuffer (fst (handleIncomingPacket c buf a enqueue stopped))
     = fst (fragmentBuffer_popAll fb) /\
   handshakeCache (fst (handleIncomingPacket c buf a enqueue stopped))
     = handshakeCache (cachePopped c (snd (fragmentBuffer_popAll fb))) /\
   decrypted (fst (handleIncomingPacket c buf a enqueue stopped)) = decrypted c /\
   remoteEpoch (state (fst (handleIncomingPacket c buf a enqueue stopped)))
     = remoteEpoch (state c) /\
   rAddr (fst (handleIncomingPacket c buf a enqueue stopped)) = rAddr c /\
   encryptedPackets (fst (handleIncomingPacket c buf a enqueue stopped))
     = encryptedPackets c) /\
  (forall e, fragmentBuffer_push (fragmentBuffer c) plain = (fb, Err e) ->
   handleIncomingPacket c buf a enqueue stopped
   = (seen c h fb, (false, None, None))).
Proof.
  intros Htaken.
  pose proof Htaken as (_ & _ & Hd & _).
  rewrite (takenUp_afterDecrypt _ _ a enqueue stopped _ _ _ Htaken).
  unfold afterDecrypt. change ([] ++ plain) with plain.
  cbn [fragmentBuffer set_state]. split.
  - intros Hpush. rewrite Hpush. fold (seen c h fb).
    rewrite (markPacketAsValid_seen _ _ _ _ Hd).
    cbv beta iota zeta. cbn [fragmentBuffer set_state seen set_fragmentBuffer].
    destruct (fragmentBuffer_popAll fb) as [fb' popped] eqn:Hpop.
    cbn [fst snd].
    match goal with
    | |- context [cachePopped (set_fragmentBuffer ?x fb') popped] =>
        set (c1 := set_fragmentBuffer x fb')
    end.
    destruct (ReceiveInvariantFacts.cachePopped_kept c1 popped)
      as (_ & Hdec & Haddr & Hep & Hrd & Hfb).
    rewrite Hdec, Haddr, Hep, Hrd, Hfb, (ReceiveFacts.cachePopped_queue c1 popped).
    rewrite (cachePopped_cache c1 c popped) by reflexivity.
    repeat split.
  - intros e Hpush. rewrite Hpush. reflexivity.
Qed.

End WithPlatform.

Import ExamplePlatform Scenario.

Lemma hiDatagram_takenUp : takenUp peerConn hiDatagram hiReceivedHeader [] hiPlain.
Proof.
  unfold takenUp. split; [vm_compute; reflexivity|].
  split; [vm_compute; split; discriminate|].
  split; [reflexivity|]. split; [reflexivity|]. split; [reflexivity|].
  split; [vm_compute; discriminate|].
  exists peerSuite. split; [reflexivity|]. split; [reflexivity|].
  vm_compute. reflexivity.
Defined.

Lemma epoch_zero_takenUp (buf : bytes) (h : Header) :
  Header_Unmarshal zeroHeader buf = Ok h ->
  Epoch h = 0 ->
  ContentType h <> ContentTypeConnectionID ->
  takenUp exampleConn buf h [] buf.
Proof.
  intros Hh He Hct. unfold takenUp.
  split; [exact Hh|]. rewrite He.
  split; [vm_compute; split; discriminate|].
  split; [reflexivity|]. split; [reflexivity|]. split; [reflexivity|].
  split; [exact Hct|]. reflexivity.
Defined.


Lemma application_data_epoch_zero_witness :
  handleIncomingPacket exampleConn plainDataRecord 7 true false
  = (seen exampleConn plainDataHeader [],
     (false, Some (mkAlert alert.Fatal alert.UnexpectedMessage),
      Some errApplicationDataEpochZero)) /\
  decrypted (seen exampleConn plainDataHeader []) = decrypted exampleConn /\
  replayDetector (state (seen exampleConn plainDataHeader []))
    = growReplayDetectors exampleConn 0.
Proof.
  apply (application_data_epoch_zero exampleConn plainDataRecord 7 true false
           plainDataHeader [] []
           (mkRecordLayer plainDataHeader (ContentApplicationData hi)) hi).
  - apply epoch_zero_takenUp;
      [vm_compute; reflexivity | reflexivity | vm_compute; discriminate].
  - reflexivity.
  - vm_compute. reflexivity.
  - vm_compute. reflexivity.
  - reflexivity.
Defined.

(** A ChangeCipherSpec of the current remote epoch moves the remote epoch
    of [exampleConn] from 1 to 2. *)
Lemma change_cipher_spec_received_witness :
  snd (handleIncomingPacket exampleConn changeCipherSpecRecord 7 true false)
    = (false, None, None) /\
  remoteEpoch
    (state (fst (handleIncomingPacket exampleConn changeCipherSpecRecord 7 true false)))
    = 2.
Proof.
  assert (Ht : takenUp exampleConn changeCipherSpecRecord changeCipherSpecHeader []
                 changeCipherSpecRecord).
  { unfold takenUp. split; [vm_compute; reflexivity|].
    split; [vm_compute; split; discriminate|].
    split; [reflexivity|]. split; [reflexivity|]. split; [reflexivity|].
    split; [vm_compute; discriminate|].
    exists exampleSuite. split; [reflexivity|]. split; [reflexivity|].
    vm_compute. reflexivity. }
  destruct (change_cipher_spec_received exampleConn changeCipherSpecRecord 7 true
              false changeCipherSpecHeader [] changeCipherSpecRecord []
              (mkRecordLayer changeCipherSpecHeader ContentChangeCipherSpec) Ht)
    as (Hv & _ & Hstep & _);
    [vm_compute; reflexivity | vm_compute; reflexivity | reflexivity
    | vm_compute; reflexivity |].
  split; [exact Hv|].
  destruct (Hstep eq_refl eq_refl) as [He _]. exact He.
Defined.

Lemma alert_received_witness :
  snd (handleIncomingPacket exampleConn alertRecord 7 true false)
    = (false, Some (mkAlert alert.Warning alert.CloseNotify),
       Some (alertError (mkAlert alert.Warning alert.CloseNotify))) /\
  decrypted (fst (handleIncomingPacket exampleConn alertRecord 7 true false))
    = decrypted exampleConn.
Proof.
  destruct (alert_received exampleConn alertRecord 7 true false alertHeader []
              alertRecord []
              (mkRecordLayer alertHeader
                 (ContentAlert (mkAlert alert.Warning alert.CloseNotify)))
              (mkAlert alert.Warning alert.CloseNotify))
    as (Hv & _ & Hd & _).
  - apply epoch_zero_takenUp;
      [vm_compute; reflexivity | reflexivity | vm_compute; discriminate].
  - vm_compute. reflexivity.
  - vm_compute. reflexivity.
  - reflexivity.
  - split; [exact Hv|exact Hd].
Defined.

Lemma handshake_fragment_received_witness :
  snd (handleIncomingPacket exampleConn handshakeRecord 7 true false)
    = (true, None, None) /\
  decrypted (fst (handleIncomingPacket exampleConn handshakeRecord 7 true false))
    = decrypted exampleConn /\
  remoteEpoch (state (fst (handleIncomingPacket exampleConn handshakeRecord 7 true
                             false)))
    = remoteEpoch (state exampleConn).
Proof.
  destruct (handshake_fragment_received exampleConn handshakeRecord 7 true false
              handshakeRecordHeader [] handshakeRecord
              [(drop 13 handshakeRecord, 0)]) as [Hhs _].
  - apply epoch_zero_takenUp;
      [vm_compute; reflexivity | reflexivity | vm_compute; discriminate].
  - destruct Hhs as (Hv & _ & _ & _ & Hd & He & _); [vm_compute; reflexivity|].
    split; [exact Hv|]. split; [exact Hd|exact He].
Defined.

End ReceiveContentFacts.

(* ------------------------------------------------------------------ *)
(** ** The send path: records on the wire *)

Module SendRecordFacts.
Import protocol recordlayer dtls BytesFacts Notions FrameNotions SendFacts.
Local Open Scope Z_scope.

Section WithPlatform.
Context {platform : Platform}.

Lemma lookup_repeat_zero (n i : nat) (z : Z) : repeat 0 n !! i = Some z -> z = 0.
Proof.
  intros H. apply list_elem_of_lookup_2, list_elem_of_In in H.
  exact (repeat_spec _ _ _ H).
Qed.

Lemma growSequenceNumbers_lookup (l : list Z) (epoch : Z) (i : nat) :
  default 0 (growSequenceNumbers l epoch !! i) = default 0 (l !! i).
Proof.
  unfold growSequenceNumbers.
  destruct (Nat.lt_ge_cases i (length l)) as [Hin|Hout].
  - rewrite lookup_app_l by assumption. reflexivity.
  - rewrite lookup_app_r by assumption.
    rewrite (lookup_ge_None_2 l i) by assumption.
    destruct (repeat 0 _ !! (i - length l)%nat) as [z|] eqn:E; [|reflexivity].
    apply lookup_repeat_zero in E. subst z. reflexivity.
Qed.

(** The counter of an epoch is the entry of the list, zero past its end. *)
Lemma counter_alt (s : State) (epoch : Z) :
  0 <= epoch ->
  counter s epoch = default 0 (localSequenceNumber s !! Z.to_nat epoch).
Proof.
  intros He. unfold counter.
  pose proof (length_growSequenceNumbers (localSequenceNumber s) epoch He) as Hl.
  destruct (lookup_lt_is_Some_2 _ _ Hl) as [z Hz].
  rewrite (list_lookup_total_correct _ _ _ Hz).
  rewrite <- (growSequenceNumbers_lookup _ epoch), Hz. reflexivity.
Qed.

(** A draw leaves the counters of the other epochs as they were. *)
Lemma counter_other (s : State) (epoch epoch' : Z) :
  0 <= epoch -> 0 <= epoch' -> epoch' <> epoch ->
  counter (fst (nextSequenceNumber s epoch)) epoch' = counter s epoch'.
Proof.
  intros He He' Hne. rewrite !counter_alt by assumption.
  rewrite nextSequenceNumber_eq. cbn [fst localSequenceNumber set_localSequenceNumber].
  rewrite list_lookup_insert_ne by lia.
  apply growSequenceNumbers_lookup.
Qed.


(** One packet that is no handshake message, on a connection that wraps
    no connection ID: the record [processPacket] builds and what
    [writePackets] does with it. *)
Lemma writePackets_single (c : Conn) (content : Content) (encrypt : bool)
    (epoch : Z) (body hb datagram : bytes) :
  (forall h, content <> ContentHandshake h) ->
  remoteConnectionID (state c) = [] ->
  Content_Marshal content = Ok body ->
  drawn (counter (state c) epoch) <= MaxSequenceNumber ->
  Header_Marshal
    (mkHeader (Content_ContentType content) (uint16 (len body)) Version1_2
       epoch (drawn (counter (state c) epoch)) [])
    = Ok hb ->
  (if encrypt
   then exists cs,
          cipherSuite (state c) = Some cs /\
          Encrypt cs
            (mkRecordLayer
               (mkHeader (Content_ContentType content) (uint16 (len body))
                  Version1_2 epoch (drawn (counter (state c) epoch)) [])
               content)
            (hb ++ body) = Ok datagram
   else datagram = hb ++ body) ->
  writePackets c
    [mkPacket (mkRecordLayer (mkHeader x00 0 Version1_2 epoch 0 []) content)
       encrypt (0 <? len (remoteConnectionID (state c))) false]
  = (set_nextConn
       (set_state c (fst (nextSequenceNumber (state c) epoch)))
       (fst (WriteToContext (nextConn c) datagram (rAddr c))),
     snd (WriteToContext (nextConn c) datagram (rAddr c))).
Proof.
  intros Hcontent Hcid Hcm Hseq Hhb Henc.
  set (pkt := mkPacket _ _ _ _).
  assert (Hp : exists p', processPacket c pkt
               = (set_state c (fst (nextSequenceNumber (state c) epoch)), p',
                  Ok datagram)).
  { unfold processPacket, pkt. rewrite Hcid.
    change (0 <? len (@nil byte)) with false.
    cbn [record Header_ Epoch shouldWrapCID].
    rewrite nextSequenceNumber_eq.
    destruct (Z.ltb_spec MaxSequenceNumber (drawn (counter (state c) epoch)))
      as [?|_]; [lia|].
    unfold RecordLayer_Marshal.
    cbn [record Header_ Content_ set_Header set_SequenceNumber shouldWrapCID
         shouldEncrypt resetLocalSequenceNumber
         recordlayer.Version Epoch SequenceNumber ConnectionID ContentType
         ContentLen fst snd].
    rewrite Hcm, Hhb. unfold encryptIfNeeded.
    cbn [shouldEncrypt record state set_state cipherSuite set_localSequenceNumber].
    destruct encrypt.
    - destruct Henc as (cs & Hcs & Henc). rewrite Hcs, Henc. eauto.
    - subst datagram. eauto. }
  destruct Hp as (p' & Hp).
  unfold writePackets. cbn [processPackets].
  assert (Hc : Content_ (record pkt) = content) by reflexivity.
  rewrite Hc.
  assert (Hstep : processPackets c [pkt] [] =
                  (set_state c (fst (nextSequenceNumber (state c) epoch)),
                   Ok [datagram])).
  { cbn [processPackets]. rewrite Hc.
    destruct content as [al| |data|h];
      try (rewrite Hp; reflexivity).
    exfalso. exact (Hcontent h eq_refl). }
  cbn [processPackets] in Hstep. rewrite Hc in Hstep. rewrite Hstep.
  change (len [datagram] =? 0) with false. cbv iota.
  unfold compactRawPackets. change (len [datagram] =? 1) with true. cbv iota.
  cbn [writeDatagrams nextConn set_state rAddr].
  destruct (WriteToContext (nextConn c) datagram (rAddr c)) as [sock [err|]];
    reflexivity.
Qed.


(** X20.  A handshake message goes out as one record per fragment: when
    [processHandshakePacket] succeeds it returns as many records as
    [fragmentHandshake] makes fragments, at least one, and the counter of
    the epoch has advanced by that number, without passing the largest
    sequence number by more than one. *)
Theorem handshake_records (c c' : Conn) (p p' : packet) (h : handshake.Handshake)
    (fragments out : list bytes) :
  0 <= Epoch (Header_ (record p)) ->
  0 <= counter (state c) (Epoch (Header_ (record p))) < 18446744073709551616 ->
  fragmentHandshake c h = Ok fragments ->
  processHandshakePacket c p h = (c', p', Ok out) ->
  length out = length fragments /\
  (1 <= length out)%nat /\
  counter (state c') (Epoch (Header_ (record p)))
    = counter (state c) (Epoch (Header_ (record p))) + len fragments /\
  counter (state c) (Epoch (Header_ (record p))) + len fragments
    <= MaxSequenceNumber + 1.
Proof.
  intros He Hk Hf Hp.
  unfold processHandshakePacket in Hp. rewrite Hf in Hp.
  destruct (fragmentHandshake_nonempty _ _ _ Hf) as (fragment & rest & ->).
  apply processHandshakeFragments_counter in Hp.
  - cbn [state set_state] in Hp. rewrite counter_grown in Hp by exact He.
    destruct Hp as (Hc & Hb & Hl). cbn [length] in Hl.
    repeat split.
    + cbn [length]. lia.
    + lia.
    + exact Hc.
    + apply Hb. discriminate.
  - exact He.
  - cbn [state set_state]. rewrite counter_grown by exact He. exact Hk.
Qed.

(** *** Fragments of a handshake message *)

Lemma fragmentHeaders_lookup (h : handshake.Handshake) (chunks : list bytes)
    (offset : Z) (fragments : list bytes) :
  fragmentHeaders h chunks offset = Ok fragments ->
  forall (i : nat) (chunk : bytes),
    chunks !! i = Some chunk ->
    exists hdr,
      handshakeHeader_Marshal
        (handshake.mkHeader (handshake.Type_ (handshake.Header_ h))
           (handshake.Length (handshake.Header_ h))
           (handshake.MessageSequence (handshake.Header_ h))
           (uint32 (offset + len (concat (take i chunks))))
           (uint32 (len chunk))) = Ok hdr /\
      fragments !! i = Some (hdr ++ chunk).
Proof.
  revert offset fragments.
  induction chunks as [|c0 rest IH]; intros offset fragments Hf i chunk Hi;
    [discriminate|].
  cbn [fragmentHeaders] in Hf.
  destruct (handshakeHeader_Marshal _) as [hdr0|e] eqn:Hh; [|discriminate].
  cbn in Hf.
  destruct (fragmentHeaders h rest (offset + len c0)) as [others|e] eqn:Hr;
    [|discriminate].
  cbn in Hf. injection Hf as <-.
  destruct i as [|i].
  - cbn in Hi. injection Hi as <-. exists hdr0.
    cbn [take concat]. change (len (@nil byte)) with 0. rewrite Z.add_0_r.
    split; [exact Hh|reflexivity].
  - cbn in Hi. destruct (IH _ _ Hr i chunk Hi) as (hdr & Hm & Hl).
    exists hdr. cbn [take concat]. rewrite len_app, Z.add_assoc.
    split; [exact Hm|exact Hl].
Qed.

(** X21.  The fragments of a handshake message.  [fragmentHandshake] cuts
    the marshalled message with [splitBytes] and returns one fragment per
    piece, a single fragment of no content for a message with no piece.
    Each fragment is a handshake header followed by its piece; the header
    repeats the type, the length and the message sequence of the message,
    its fragment length is the length of the piece and its fragment offset
    the total length of the pieces before it (as 32-bit numbers). *)
Theorem fragmentHandshake_fragments (c : Conn) (h : handshake.Handshake)
    (content : bytes) (fragments : list bytes) :
  handshake.Message_Marshal (handshake.Message_ h) = Ok content ->
  fragmentHandshake c h = Ok fragments ->
  (splitBytes content (maximumTransmissionUnit c) = [] ->
   exists hdr,
     handshakeHeader_Marshal
       (handshake.mkHeader (handshake.Type_ (handshake.Header_ h))
          (handshake.Length (handshake.Header_ h))
          (handshake.MessageSequence (handshake.Header_ h)) 0 0) = Ok hdr /\
     fragments = [hdr]) /\
  (splitBytes content (maximumTransmissionUnit c) <> [] ->
   length fragments = length (splitBytes content (maximumTransmissionUnit c)) /\
   forall (i : nat) (piece : bytes),
     splitBytes content (maximumTransmissionUnit c) !! i = Some piece ->
     exists hdr,
       handshakeHeader_Marshal
         (handshake.mkHeader (handshake.Type_ (handshake.Header_ h))
            (handshake.Length (handshake.Header_ h))
            (handshake.MessageSequence (handshake.Header_ h))
            (uint32 (len (concat (take i (splitBytes content
                                            (maximumTransmissionUnit c))))))
            (uint32 (len piece))) = Ok hdr /\
       fragments !! i = Some (hdr ++ piece)).
Proof.
  intros Hm Hf. unfold fragmentHandshake in Hf. rewrite Hm in Hf. cbn in Hf.
  set (pieces := splitBytes content (maximumTransmissionUnit c)) in *.
  split.
  - intros Hnil. rewrite Hnil in Hf. change (len (@nil bytes) =? 0) with true in Hf.
    cbv iota in Hf.
    pose proof (fragmentHeaders_length _ _ _ _ Hf) as Hlen.
    destruct (fragmentHeaders_lookup _ _ _ _ Hf 0%nat [] eq_refl) as (hdr & Hh & Hl).
    exists hdr. split; [exact Hh|].
    destruct fragments as [|f [|? ?]]; try discriminate Hlen.
    cbn in Hl. rewrite app_nil_r in Hl. injection Hl as ->. reflexivity.
  - intros Hne.
    assert (Hz : (len pieces =? 0) = false).
    { apply Z.eqb_neq. destruct pieces; [contradiction|]. unfold len. cbn [length]. lia. }
    rewrite Hz in Hf. split.
    + exact (fragmentHeaders_length _ _ _ _ Hf).
    + intros i piece Hi.
      destruct (fragmentHeaders_lookup _ _ _ _ Hf i piece Hi) as (hdr & Hh & Hl).
      exists hdr. rewrite Z.add_0_l in Hh. split; assumption.
Qed.

(** *** What sending leaves alone *)

Lemma receiveSideKept_refl (c : Conn) : receiveSideKept c c.
Proof. unfold receiveSideKept. repeat split. Qed.

Lemma receiveSideKept_trans (c1 c2 c3 : Conn) :
  receiveSideKept c1 c2 -> receiveSideKept c2 c3 -> receiveSideKept c1 c3.
Proof.
  unfold receiveSideKept. intros H1 H2.
  repeat match goal with H : _ /\ _ |- _ => destruct H end.
  repeat split; congruence.
Qed.

Lemma receiveSideKept_set_state (c : Conn) (l : list Z) :
  receiveSideKept c (set_state c (set_localSequenceNumber (state c) l)).
Proof. unfold receiveSideKept. repeat split. Qed.

Lemma processPacket_receive_side (c : Conn) (p : packet) :
  receiveSideKept c (fst (fst (processPacket c p))).
Proof.
  rewrite processPacket_conn, nextSequenceNumber_eq. cbn [fst].
  apply receiveSideKept_set_state.
Qed.

Lemma processHandshakeFragments_receive_side (c : Conn) (p : packet) (epoch : Z)
    (fragments rawPackets : list bytes) :
  receiveSideKept c
    (fst (fst (processHandshakeFragments c p epoch fragments rawPackets))).
Proof.
  revert c p rawPackets.
  induction fragments as [|fragment rest IH]; intros c p rawPackets;
    cbn [processHandshakeFragments].
  - apply receiveSideKept_refl.
  - pose proof (processHandshakeFragment_conn c p epoch fragment) as Hc.
    destruct (processHandshakeFragment c p epoch fragment) as [[c1 p1] [raw|e]];
      cbn [fst] in Hc; subst c1.
    + eapply receiveSideKept_trans; [|apply IH].
      rewrite nextSequenceNumber_eq. cbn [fst]. apply receiveSideKept_set_state.
    + cbn [fst]. rewrite nextSequenceNumber_eq. cbn [fst].
      apply receiveSideKept_set_state.
Qed.

Lemma processHandshakePacket_receive_side (c : Conn) (p : packet)
    (h : handshake.Handshake) :
  receiveSideKept c (fst (fst (processHandshakePacket c p h))).
Proof.
  unfold processHandshakePacket.
  destruct (fragmentHandshake c h) as [fragments|e];
    [|apply receiveSideKept_refl].
  eapply receiveSideKept_trans; [|apply processHandshakeFragments_receive_side].
  apply receiveSideKept_set_state.
Qed.

Lemma processPackets_receive_side (c : Conn) (pkts : list packet)
    (rawPackets : list bytes) :
  receiveSideKept c (fst (processPackets c pkts rawPackets)).
Proof.
  revert c rawPackets. induction pkts as [|p rest IH]; intros c rawPackets;
    cbn [processPackets]; [apply receiveSideKept_refl|].
  assert (Hplain :
    receiveSideKept c
      (fst match processPacket c p with
           | (c0, _, Err err) => (c0, Err err)
           | (c0, _, Ok rawPacket) => processPackets c0 rest (rawPackets ++ [rawPacket])
           end)).
  { pose proof (processPacket_receive_side c p) as Hk.
    destruct (processPacket c p) as [[c1 p1] [raw|e]]; cbn [fst] in *;
      [|exact Hk].
    eapply receiveSideKept_trans; [exact Hk|apply IH]. }
  destruct (Content_ (record p)) as [al| |data|h]; try exact Hplain.
  destruct (RecordLayer_Marshal (record p)) as [r [handshakeRaw|e]];
    [|apply receiveSideKept_refl].
  match goal with
  | |- context [processHandshakePacket ?c1 ?p1 h] =>
      pose proof (processHandshakePacket_receive_side c1 p1 h) as Hk;
      destruct (processHandshakePacket c1 p1 h) as [[c2 p2] [raws|e]];
      cbn [fst] in *
  end.
  - eapply receiveSideKept_trans; [|apply IH].
    eapply receiveSideKept_trans; [|exact Hk].
    unfold receiveSideKept. repeat split.
  - eapply receiveSideKept_trans; [|exact Hk].
    unfold receiveSideKept. repeat split.
Qed.

Lemma writeDatagrams_receive_side (c : Conn) (datagrams : list bytes) :
  receiveSideKept c (fst (writeDatagrams c datagrams)) /\
  state (fst (writeDatagrams c datagrams)) = state c /\
  handshakeCache (fst (writeDatagrams c datagrams)) = handshakeCache c.
Proof.
  revert c. induction datagrams as [|d rest IH]; intros c; cbn [writeDatagrams].
  - split; [apply receiveSideKept_refl|]. split; reflexivity.
  - destruct (WriteToContext (nextConn c) d (rAddr c)) as [sock [err|]]; cbn [fst].
    + split; [unfold receiveSideKept; repeat split|]. split; reflexivity.
    + destruct (IH (set_nextConn c sock)) as (Hk & Hs & Hc).
      split; [|split].
      * eapply receiveSideKept_trans; [|exact Hk].
        unfold receiveSideKept. repeat split.
      * rewrite Hs. reflexivity.
      * rewrite Hc. reflexivity.
Qed.

(** X22.  Sending never touches the receive side: whatever the packets
    and whatever the outcome, [writePackets] leaves the channel of
    decrypted data, the queue of early packets, the fragment buffer, the
    replay detectors, the epochs, the cipher suite, the connection IDs, the
    remote address and the flags of the connection as they were; it changes
    the socket, the local sequence numbers and the handshake cache only. *)
Theorem writePackets_receive_side (c : Conn) (pkts : list packet) :
  receiveSideKept c (fst (writePackets c pkts)).
Proof.
  unfold writePackets.
  pose proof (processPackets_receive_side c pkts []) as Hk.
  destruct (processPackets c pkts []) as [c1 [rawPackets|e]]; cbn [fst] in *;
    [|exact Hk].
  destruct (len rawPackets =? 0); [exact Hk|].
  eapply receiveSideKept_trans; [exact Hk|apply writeDatagrams_receive_side].
Qed.

End WithPlatform.

Import ExamplePlatform Scenario.



(** A message of five bytes under an MTU of two bytes goes out as three
    records, with the sequence numbers 0, 1 and 2. *)
Lemma handshake_records_witness :
  length fiveBytesRecords = length fiveBytesFragments /\
  (1 <= length fiveBytesRecords)%nat /\
  counter (state (fst (fst (processHandshakePacket tinyConn fiveBytesPacket
                              fiveBytes)))) 0
    = counter (state tinyConn) 0 + len fiveBytesFragments.
Proof.
  destruct (handshake_records tinyConn
              (fst (fst (processHandshakePacket tinyConn fiveBytesPacket fiveBytes)))
              fiveBytesPacket
              (snd (fst (processHandshakePacket tinyConn fiveBytesPacket fiveBytes)))
              fiveBytes fiveBytesFragments fiveBytesRecords)
    as (H1 & H2 & H3 & _).
  - vm_compute. discriminate.
  - vm_compute. split; [discriminate|reflexivity].
  - vm_compute. reflexivity.
  - apply triple_eq. vm_compute. reflexivity.
  - split; [exact H1|]. split; [exact H2|exact H3].
Defined.

(** The second of the three fragments: offset 2, length 2, the bytes 3
    and 4. *)
Lemma fragmentHandshake_fragments_witness :
  length fiveBytesFragments = 3%nat /\
  exists hdr,
    handshakeHeader_Marshal (handshake.mkHeader x01 5 0 2 2) = Ok hdr /\
    fiveBytesFragments !! 1%nat = Some (hdr ++ [x03; x04]).
Proof.
  destruct (fragmentHandshake_fragments tinyConn fiveBytes
              [x01; x02; x03; x04; x05] fiveBytesFragments) as [_ H].
  - reflexivity.
  - vm_compute. reflexivity.
  - destruct H as [Hlen Hat]; [vm_compute; discriminate|].
    split; [exact Hlen|].
    exact (Hat 1%nat [x03; x04] eq_refl).
Defined.

End SendRecordFacts.

(* ------------------------------------------------------------------ *)
(** ** [Read]: order of delivery, and what a call returns *)

Module ReadOrderFacts.
Import protocol recordlayer dtls BytesFacts Notions FrameNotions ReadWriteFacts.
Local Open Scope Z_scope.

Section WithPlatform.
Context {platform : Platform}.

(** X23.  [Read] delivers the records in the order they entered the
    channel, one per call: on a connection whose handshake has completed
    and whose read deadline has not expired, with the records [vals] at the
    head of the channel, successive calls with buffers large enough for
    them return these records in order, each in the first bytes of its
    buffer, and leave in the channel what followed them. *)
Theorem Read_in_order (c : Conn) (vals bufs : list bytes) (rest : list chanItem) :
  isHandshakeCompletedSuccessfully c = true ->
  readDeadline c = false ->
  chan_items (decrypted c) = map ItemBytes vals ++ rest ->
  Forall2 (fun val p => len val <= len p) vals bufs ->
  snd (readAll c bufs) = zip_with delivered vals bufs /\
  chan_items (decrypted (fst (readAll c bufs))) = rest /\
  fst (readAll c bufs) = received c rest.
Proof.
  intros Hdone Hdl Hitems Hfit. revert c Hdone Hdl Hitems.
  induction Hfit as [|val p vals bufs Hle Hfit IH]; intros c Hdone Hdl Hitems.
  - cbn [readAll zip_with fst snd map app] in *.
    split; [reflexivity|]. split; [exact Hitems|].
    unfold received, set_decrypted. rewrite <- Hitems.
    destruct c as [? ? ? [items cl] ? ? ? ? ? ? ? ? ? ?]. reflexivity.
  - cbn [readAll map app] in *.
    rewrite (Read_fits c p val (map ItemBytes vals ++ rest)) by assumption.
    destruct (IH (received c (map ItemBytes vals ++ rest)))
      as (Hout & Hrest & Hc); try assumption; try reflexivity.
    destruct (readAll (received c (map ItemBytes vals ++ rest)) bufs)
      as [c' outcomes]. cbn [fst snd] in *.
    split; [|split].
    + cbn [zip_with]. rewrite Hout. reflexivity.
    + exact Hrest.
    + rewrite Hc. reflexivity.
Qed.

(** X24.  What a call of [Read] returns and changes.  The buffer keeps
    its length; the count returned is between zero and that length, and the
    bytes past it are those of the buffer before the call.  An error comes
    with a count of zero and the buffer untouched.  The connection changes
    in its channel only, which loses its first item or stays; a call that
    blocks changes nothing. *)
Theorem Read_outcome (c : Conn) (p : bytes) :
  match Read c p with
  | (c', Returned p' n err) =>
      len p' = len p /\ 0 <= n <= len p /\
      slice_from n p' = slice_from n p /\
      (err <> None -> n = 0 /\ p' = p) /\
      (c' = c \/
       exists item rest,
         chan_items (decrypted c) = item :: rest /\ c' = received c rest)
  | (c', Blocked) =>
      c' = c /\ chan_items (decrypted c) = [] /\ chan_closed (decrypted c) = false
  end.
Proof.
  pose proof (len_nonneg p) as Hp.
  unfold Read.
  destruct (negb (isHandshakeCompletedSuccessfully c)).
  { repeat split; auto; lia. }
  destruct (readDeadline c).
  { repeat split; auto; lia. }
  destruct (chan_items (decrypted c)) as [|[val|e] rest] eqn:Hitems.
  - destruct (chan_closed (decrypted c)); repeat split; auto; lia.
  - pose proof (len_nonneg val) as Hv.
    destruct (Z.ltb_spec (len p) (len val)) as [Hlt|Hge].
    + repeat split; eauto; lia.
    + rewrite copy_fits by exact Hge.
      assert (Hlv : (length val <= length p)%nat) by (unfold len in Hge; lia).
      split; [|split; [|split; [|split]]].
      * unfold len. rewrite length_app, length_drop. lia.
      * lia.
      * unfold slice_from, len. rewrite Nat2Z.id.
        rewrite drop_app_length. reflexivity.
      * intros H. contradiction.
      * right. eauto.
  - repeat split; eauto; lia.
Qed.

End WithPlatform.

Import ExamplePlatform.

(** Two calls on the connection that holds two records return them in
    order and empty the channel. *)
Lemma Read_in_order_witness :
  snd (readAll waitingConn [repeat x00 6; repeat x00 6])
    = [delivered [x01; x02; x03; x04] (repeat x00 6);
       delivered [x05; x06] (repeat x00 6)] /\
  chan_items (decrypted (fst (readAll waitingConn [repeat x00 6; repeat x00 6])))
    = [].
Proof.
  destruct (Read_in_order waitingConn [[x01; x02; x03; x04]; [x05; x06]]
              [repeat x00 6; repeat x00 6] [])
    as (Hout & Hrest & _); try reflexivity.
  - repeat constructor; vm_compute; discriminate.
  - split; [exact Hout|exact Hrest].
Defined.

End ReadOrderFacts.

(* ------------------------------------------------------------------ *)
(** ** Alerts, queued packets and closing *)

Module LifecycleFacts.
Import protocol recordlayer dtls lifecycle BytesFacts Notions FrameNotions.
Import SendFacts SendRecordFacts ReceiveInvariantFacts.
Local Open Scope Z_scope.

Section WithServices.
Context {platform : Platform} {services : Services}.

(** What [writePackets] leaves alone, as [notify] needs it. *)
Lemma writePackets_kept (c : Conn) (pkts : list packet) :
  receiveSideKept c (fst (writePackets c pkts)).
Proof.
  unfold writePackets.
  pose proof (processPackets_receive_side c pkts []) as Hk.
  destruct (processPackets c pkts []) as [c1 [rawPackets|e]]; cbn [fst] in *;
    [|exact Hk].
  destruct (len rawPackets =? 0); [exact Hk|].
  eapply receiveSideKept_trans; [exact Hk|apply writeDatagrams_receive_side].
Qed.

(** [notify] changes the connection by what [writePackets] changes, and
    the session store. *)
Lemma notify_kept (x : Connection) (level desc : Z) :
  receiveSideKept (conn x) (conn (fst (notify x level desc))) /\
  connectionClosedByUser (fst (notify x level desc)) = connectionClosedByUser x /\
  serverName (fst (notify x level desc)) = serverName x /\
  handshakerCancelled (fst (notify x level desc)) = handshakerCancelled x /\
  handshakeReaderCancelled (fst (notify x level desc)) = handshakeReaderCancelled x.
Proof.
  unfold notify.
  destruct ((level =? alert.Fatal) && (0 <? len (SessionID (state (conn x))))).
  - destruct (sessionStore x) as [ss|].
    + destruct (SessionStore_Del ss (sessionKey x)) as [ss' [err|]]; cbn [fst].
      * split; [apply receiveSideKept_refl|]. repeat split.
      * pose proof (writePackets_kept (conn x)
                      [alertPacket (conn x) level desc]) as Hk.
        cbn [conn set_sessionStore] in *.
        destruct (writePackets _ _) as [c err]. cbn [fst conn set_conn] in *.
        split; [exact Hk|]. repeat split.
    + pose proof (writePackets_kept (conn x)
                    [alertPacket (conn x) level desc]) as Hk.
      destruct (writePackets _ _) as [c err]. cbn [fst conn set_conn] in *.
      split; [exact Hk|]. repeat split.
  - pose proof (writePackets_kept (conn x)
                  [alertPacket (conn x) level desc]) as Hk.
    destruct (writePackets _ _) as [c err]. cbn [fst conn set_conn] in *.
    split; [exact Hk|]. repeat split.
Qed.

Lemma receiveSideKept_queue (c c' : Conn) :
  receiveSideKept c c' -> encryptedPackets c' = encryptedPackets c.
Proof. intros H. unfold receiveSideKept in H. tauto. Qed.

Lemma receiveSideKept_closed (c c' : Conn) :
  receiveSideKept c c' -> closed c' = closed c.
Proof. intros H. unfold receiveSideKept in H. tauto. Qed.

(** A record handled without leave to enqueue leaves the queue as it was,
    also when an alert is sent in answer. *)
Lemma handleRecord_queue (x : Connection) (buf : bytes) (a : Addr) (stopped : bool) :
  encryptedPackets (conn (fst (fst (handleRecord x buf a false stopped))))
  = encryptedPackets (conn x).
Proof.
  unfold handleRecord.
  pose proof (handleIncomingPacket_no_enqueue (conn x) buf a stopped) as Hq.
  destruct (handleIncomingPacket (conn x) buf a false stopped)
    as [c [[hs alert_] err]]. cbn [fst] in Hq.
  assert (Hn : forall level desc,
            encryptedPackets (conn (fst (notify (set_conn x c) level desc)))
            = encryptedPackets (conn x)).
  { intros level desc.
    rewrite (receiveSideKept_queue _ _ (proj1 (notify_kept (set_conn x c) level desc))).
    exact Hq. }
  destruct alert_ as [al|].
  - specialize (Hn (alertLevel al) (alertDescription al)).
    destruct (notify (set_conn x c) (alertLevel al) (alertDescription al))
      as [x' [alertErr|]]; cbn [fst] in Hn.
    + destruct (asAlertError _) as [e|]; [destruct (IsFatalOrCloseNotify e)|];
        exact Hn.
    + destruct (asAlertError _) as [e|]; [destruct (IsFatalOrCloseNotify e)|];
        exact Hn.
  - destruct (asAlertError _) as [e|]; [destruct (IsFatalOrCloseNotify e)|];
      exact Hq.
Qed.

Lemma handleQueued_queue (x : Connection) (pkts : list addrPkt)
    (stopped : nat -> bool) (i : nat) :
  encryptedPackets (conn (fst (handleQueued x pkts stopped i)))
  = encryptedPackets (conn x).
Proof.
  revert x i. induction pkts as [|p rest IH]; intros x i; cbn [handleQueued];
    [reflexivity|].
  pose proof (handleRecord_queue x (pkt_data p) (pkt_rAddr p) (stopped i)) as Hq.
  destruct (handleRecord x (pkt_data p) (pkt_rAddr p) false (stopped i))
    as [[x' hs] [err|]]; cbn [fst] in *; [exact Hq|].
  rewrite IH. exact Hq.
Qed.

(** X25.  [handleQueuedPackets] leaves the queue of early packets empty:
    it takes the packets out before it handles them, handles them without
    leave to enqueue, and neither the handling of a record nor the alert
    sent in answer puts a packet back, whether the call ends with an error
    or not.  With an empty queue it does nothing. *)
Theorem handleQueuedPackets_empties_queue (x : Connection) (stopped : nat -> bool) :
  encryptedPackets (conn (fst (handleQueuedPackets x stopped))) = [] /\
  (encryptedPackets (conn x) = [] ->
   conn (fst (handleQueuedPackets x stopped)) = conn x /\
   snd (handleQueuedPackets x stopped) = None).
Proof.
  unfold handleQueuedPackets. split.
  - rewrite handleQueued_queue. reflexivity.
  - intros Hq. rewrite Hq. cbn [handleQueued fst snd conn set_conn].
    split; [|reflexivity].
    rewrite <- Hq. destruct x as [c ? ? ? ? ?]. destruct c. reflexivity.
Qed.

(** X26.  What [close] leaves behind and returns.  After any call the
    connection is closed, both contexts are cancelled, and the flag
    [connectionClosedByUser] is set if it was or if the user called; so a
    [Write] on the connection returns [ErrConnClosed] and sends nothing.
    The call returns [ErrConnClosed] when the user had closed before, no
    error when the connection was closed otherwise, and the result of
    closing the socket in the remaining case; a call that follows a call of
    the user returns [ErrConnClosed]. *)
Theorem close_result (x : Connection) (byUser : bool) :
  closed (conn (fst (close x byUser))) = true /\
  handshakerCancelled (fst (close x byUser)) = true /\
  handshakeReaderCancelled (fst (close x byUser)) = true /\
  connectionClosedByUser (fst (close x byUser))
    = connectionClosedByUser x || byUser /\
  (forall p, Write (conn (fst (close x byUser))) p
             = (conn (fst (close x byUser)), (0, Some ErrConnClosed))) /\
  (connectionClosedByUser x = true ->
   snd (close x byUser) = Some ErrConnClosed) /\
  (connectionClosedByUser x = false -> closed (conn x) = true ->
   snd (close x byUser) = None) /\
  (connectionClosedByUser x = false -> closed (conn x) = false ->
   snd (close x byUser)
   = snd (PacketConn_Close
            (nextConn (conn (if isHandshakeCompletedSuccessfully (conn x) && byUser
                             then fst (notify x alert.Warning alert.CloseNotify)
                             else x))))) /\
  snd (close (fst (close x true)) byUser) = Some ErrConnClosed.
Proof.
  assert (Hgen : forall (x : Connection) (byUser : bool),
    closed (conn (fst (close x byUser))) = true /\
    handshakerCancelled (fst (close x byUser)) = true /\
    handshakeReaderCancelled (fst (close x byUser)) = true /\
    connectionClosedByUser (fst (close x byUser))
      = connectionClosedByUser x || byUser /\
    (connectionClosedByUser x = true ->
     snd (close x byUser) = Some ErrConnClosed) /\
    (connectionClosedByUser x = false -> closed (conn x) = true ->
     snd (close x byUser) = None) /\
    (connectionClosedByUser x = false -> closed (conn x) = false ->
     snd (close x byUser)
     = snd (PacketConn_Close
              (nextConn (conn (if isHandshakeCompletedSuccessfully (conn x) && byUser
                               then fst (notify x alert.Warning alert.CloseNotify)
                               else x)))))).
  { clear x byUser. intros x byUser. unfold close.
    set (x0 := mkConnection (conn x) (connectionClosedByUser x) (sessionStore x)
                 (serverName x) true true).
    change (conn x0) with (conn x).
    destruct (notify_kept x0 alert.Warning alert.CloseNotify)
      as (Hk & Hu & _ & Hhc & Hrc).
    pose proof (receiveSideKept_closed _ _ Hk) as Hcl.
    assert (Hsock : nextConn (conn (fst (notify x0 alert.Warning alert.CloseNotify)))
                    = nextConn (conn (fst (notify x alert.Warning alert.CloseNotify)))).
    { unfold notify. cbn [conn sessionStore x0].
      change (sessionKey x0) with (sessionKey x).
      destruct ((alert.Warning =? alert.Fatal) && _).
      - destruct (sessionStore x) as [ss|].
        + destruct (SessionStore_Del ss (sessionKey x)) as [ss' [err|]]; cbn [fst conn].
          * reflexivity.
          * cbn [conn set_sessionStore].
            destruct (writePackets _ _). reflexivity.
        + destruct (writePackets _ _). reflexivity.
      - destruct (writePackets _ _). reflexivity. }
    destruct (isHandshakeCompletedSuccessfully (conn x) && byUser) eqn:Hn.
    - rewrite Hu. cbn [connectionClosedByUser x0]. rewrite <- Hsock.
      set (x1 := fst (notify x0 alert.Warning alert.CloseNotify)) in *.
      cbn [isConnectionClosed] in *.
      destruct (connectionClosedByUser x) eqn:Hcu; destruct byUser;
        cbn [conn set_conn set_connectionClosedByUser set_closed closed orb
             handshakerCancelled handshakeReaderCancelled connectionClosedByUser
             fst snd];
        try (repeat split; auto; congruence).
      all: unfold isConnectionClosed; rewrite Hcl; cbn [conn x0];
        destruct (closed (conn x)) eqn:Hc;
        [|destruct (PacketConn_Close _) as [sock err]];
        cbn [conn set_conn set_connectionClosedByUser set_closed closed orb
             handshakerCancelled handshakeReaderCancelled connectionClosedByUser
             set_nextConn fst snd];
        repeat split; auto; congruence.
    - unfold isConnectionClosed. cbn [conn x0 connectionClosedByUser].
      destruct (connectionClosedByUser x) eqn:Hcu; destruct byUser;
        cbn [conn set_conn set_connectionClosedByUser set_closed closed orb
             handshakerCancelled handshakeReaderCancelled connectionClosedByUser
             fst snd x0];
        try (repeat split; auto; congruence).
      all: destruct (closed (conn x)) eqn:Hc;
        [|destruct (PacketConn_Close _) as [sock err]];
        cbn [conn set_conn set_connectionClosedByUser set_closed closed orb
             handshakerCancelled handshakeReaderCancelled connectionClosedByUser
             set_nextConn fst snd];
        repeat split; auto; congruence. }
  destruct (Hgen x byUser) as (H1 & H2 & H3 & H4 & H5 & H6 & H7).
  repeat split; try assumption.
  - intros p. apply ReadWriteFacts.Write_closed. exact H1.
  - destruct (Hgen (fst (close x true)) byUser) as (_ & _ & _ & _ & Hclosed & _).
    apply Hclosed. destruct (Hgen x true) as (_ & _ & _ & Hu & _).
    rewrite Hu. apply orb_true_r.
Qed.

(** X27.  [Close] on an established connection says goodbye first.  On
    a connection whose handshake has completed, that is not closed and
    wraps no connection ID, [Close] draws the next sequence number of the
    local epoch, hands the socket one datagram, the protected alert record
    of a warning [close_notify], then closes the socket and returns the
    result of closing it; the error the socket may report for the datagram
    is dropped. *)
Theorem Close_sends_close_notify (x : Connection) (cs : CipherSuite)
    (body hb datagram : bytes) :
  isHandshakeCompletedSuccessfully (conn x) = true ->
  connectionClosedByUser x = false ->
  closed (conn x) = false ->
  remoteConnectionID (state (conn x)) = [] ->
  cipherSuite (state (conn x)) = Some cs ->
  Content_Marshal (ContentAlert (mkAlert alert.Warning alert.CloseNotify)) = Ok body ->
  drawn (counter (state (conn x)) (localEpoch (state (conn x)))) <= MaxSequenceNumber ->
  Header_Marshal
    (mkHeader ContentTypeAlert (uint16 (len body)) Version1_2
       (localEpoch (state (conn x)))
       (drawn (counter (state (conn x)) (localEpoch (state (conn x))))) [])
    = Ok hb ->
  Encrypt cs
    (mkRecordLayer
       (mkHeader ContentTypeAlert (uint16 (len body)) Version1_2
          (localEpoch (state (conn x)))
          (drawn (counter (state (conn x)) (localEpoch (state (conn x))))) [])
       (ContentAlert (mkAlert alert.Warning alert.CloseNotify)))
    (hb ++ body) = Ok datagram ->
  nextConn (conn (fst (Close x)))
    = fst (PacketConn_Close
             (fst (WriteToContext (nextConn (conn x)) datagram (rAddr (conn x))))) /\
  snd (Close x)
    = snd (PacketConn_Close
             (fst (WriteToContext (nextConn (conn x)) datagram (rAddr (conn x))))) /\
  state (conn (fst (Close x)))
    = fst (nextSequenceNumber (state (conn x)) (localEpoch (state (conn x)))) /\
  closed (conn (fst (Close x))) = true.
Proof.
  intros Hdone Hu Hcl Hcid Hcs Hcm Hseq Hhb Henc.
  unfold Close, close.
  set (x0 := mkConnection (conn x) (connectionClosedByUser x) (sessionStore x)
               (serverName x) true true).
  change (conn x0) with (conn x).
  unfold isHandshakeCompletedSuccessfully in *. rewrite Hdone. cbn [andb].
  assert (Hn : notify x0 alert.Warning alert.CloseNotify
               = (set_conn x0
                    (set_nextConn
                       (set_state (conn x)
                          (fst (nextSequenceNumber (state (conn x))
                                  (localEpoch (state (conn x))))))
                       (fst (WriteToContext (nextConn (conn x)) datagram
                               (rAddr (conn x))))),
                  snd (WriteToContext (nextConn (conn x)) datagram (rAddr (conn x))))).
  { unfold notify.
    change (alert.Warning =? alert.Fatal) with false. cbn [andb].
    change (conn x0) with (conn x). unfold alertPacket.
    unfold isHandshakeCompletedSuccessfully. rewrite Hdone.
    rewrite (writePackets_single (conn x)
               (ContentAlert (mkAlert alert.Warning alert.CloseNotify)) true
               (localEpoch (state (conn x))) body hb datagram); try assumption.
    - reflexivity.
    - discriminate.
    - exists cs. split; assumption. }
  rewrite Hn. subst x0. unfold isConnectionClosed.
  cbn [fst conn set_conn closed set_nextConn set_state set_connectionClosedByUser
       set_closed connectionClosedByUser sessionStore serverName
       handshakerCancelled handshakeReaderCancelled nextConn].
  rewrite Hu, Hcl.
  destruct (PacketConn_Close _) as [sock err].
  cbn [fst snd conn set_conn nextConn set_nextConn state set_closed closed
       set_state].
  repeat split.
Qed.

(** X28.  A fatal alert and the stored session.  For a connection with a
    session ID and a session store, [notify] of a fatal alert deletes the
    stored session under the session key before it sends anything; when
    the store fails, [notify] returns the error of the store and sends no
    alert, the connection being left as it was.  An alert that is not fatal
    leaves the store alone. *)
Theorem notify_fatal_session (x : Connection) (desc : Z) (ss : SessionStore) :
  0 < len (SessionID (state (conn x))) ->
  sessionStore x = Some ss ->
  (forall err,
     snd (SessionStore_Del ss (sessionKey x)) = Some err ->
     notify x alert.Fatal desc
     = (set_sessionStore x (Some (fst (SessionStore_Del ss (sessionKey x)))),
        Some err)) /\
  (snd (SessionStore_Del ss (sessionKey x)) = None ->
   sessionStore (fst (notify x alert.Fatal desc))
     = Some (fst (SessionStore_Del ss (sessionKey x))) /\
   conn (fst (notify x alert.Fatal desc))
     = fst (writePackets (conn x) [alertPacket (conn x) alert.Fatal desc]) /\
   snd (notify x alert.Fatal desc)
     = snd (writePackets (conn x) [alertPacket (conn x) alert.Fatal desc])) /\
  (forall level, level <> alert.Fatal ->
     sessionStore (fst (notify x level desc)) = Some ss).
Proof.
  intros Hsid Hss. apply Z.ltb_lt in Hsid.
  split; [|split].
  - intros err Hdel. unfold notify.
    change (alert.Fatal =? alert.Fatal) with true. rewrite Hsid, Hss. cbn [andb].
    destruct (SessionStore_Del ss (sessionKey x)) as [ss' e]. cbn [snd fst] in *.
    subst e. reflexivity.
  - intros Hdel. unfold notify.
    change (alert.Fatal =? alert.Fatal) with true. rewrite Hsid, Hss. cbn [andb].
    destruct (SessionStore_Del ss (sessionKey x)) as [ss' e]. cbn [snd fst] in *.
    subst e. cbn [conn set_sessionStore].
    destruct (writePackets _ _) as [c err]. repeat split.
  - intros level Hl. unfold notify.
    destruct (Z.eqb_spec level alert.Fatal) as [?|_]; [contradiction|].
    cbn [andb]. destruct (writePackets _ _) as [c err]. exact Hss.
Qed.

Lemma handleRecords_app (x : Connection) (pre post : list bytes) (a : Addr)
    (stopped : nat -> bool) (i : nat) (hasHandshake : bool) :
  handleRecords x (pre ++ post) a stopped i hasHandshake
  = match handleRecords x pre a stopped i hasHandshake with
    | (x', Ok hs) => handleRecords x' post a stopped (i + length pre) hs
    | (x', Err err) => (x', Err err)
    end.
Proof.
  revert x i hasHandshake.
  induction pre as [|p pre IH]; intros x i hasHandshake; cbn [app handleRecords length].
  - rewrite Nat.add_0_r. reflexivity.
  - destruct (handleRecord x p a true (stopped i)) as [[x' hs] [err|]];
      [reflexivity|].
    rewrite IH. replace (S i + length pre)%nat with (i + S (length pre))%nat by lia.
    reflexivity.
Qed.

(** X29.  The first error ends the datagram.  [readAndBuffer] handles the
    records of the datagram it reads in order; when the records [pre] are
    handled without error and the next record ends with an error, the call
    returns that error with the connection as that record left it, and the
    records after it are not handled, whatever they are.  An error of the
    socket or of the split into records is returned with no record handled. *)
Theorem readAndBuffer_first_error (x : Connection) (stopped : nat -> bool) :
  (forall sock err,
     ReadFromContext (nextConn (conn x)) = (sock, Err err) ->
     readAndBuffer x stopped
     = (set_conn x (set_nextConn (conn x) sock), Err err)) /\
  (forall sock b a err,
     ReadFromContext (nextConn (conn x)) = (sock, Ok (b, a)) ->
     ContentAwareUnpackDatagram b (len (localConnectionID (state (conn x))))
       = Err err ->
     readAndBuffer x stopped
     = (set_conn x (set_nextConn (conn x) sock), Err err)) /\
  (forall sock b a pre p post x1 hs x2 hs2 err,
     ReadFromContext (nextConn (conn x)) = (sock, Ok (b, a)) ->
     ContentAwareUnpackDatagram b (len (localConnectionID (state (conn x))))
       = Ok (pre ++ p :: post) ->
     handleRecords (set_conn x (set_nextConn (conn x) sock)) pre a stopped 0 false
       = (x1, Ok hs) ->
     handleRecord x1 p a true (stopped (length pre)) = (x2, hs2, Some err) ->
     readAndBuffer x stopped = (x2, Err err)).
Proof.
  split; [|split].
  - intros sock err Hr. unfold readAndBuffer. rewrite Hr. reflexivity.
  - intros sock b a err Hr Hu. unfold readAndBuffer. rewrite Hr.
    cbn [conn set_conn state set_nextConn]. rewrite Hu. reflexivity.
  - intros sock b a pre p post x1 hs x2 hs2 err Hr Hu Hpre Hp.
    unfold readAndBuffer. rewrite Hr.
    cbn [conn set_conn state set_nextConn]. rewrite Hu.
    rewrite handleRecords_app, Hpre. cbn [handleRecords Nat.add].
    rewrite Hp. reflexivity.
Qed.

End WithServices.

Import ExamplePlatform Scenario.

(** [Close] on the example connection writes the [close_notify] datagram
    and returns no error. *)
Lemma Close_sends_close_notify_witness :
  nextConn (conn (fst (Close exampleConnection))) = [(closeNotifyDatagram, 7)] /\
  snd (Close exampleConnection) = None /\
  closed (conn (fst (Close exampleConnection))) = true.
Proof.
  destruct (Close_sends_close_notify exampleConnection exampleSuite [x01; x00]
              closeNotifyHeaderBytes closeNotifyDatagram)
    as (Hsock & Herr & _ & Hclosed); try reflexivity.
  - vm_compute. discriminate.
  - split; [exact Hsock|]. split; [exact Herr|exact Hclosed].
Defined.

(** The store does not hold the session of the connection: the fatal alert
    is not sent. *)
Lemma notify_fatal_session_witness :
  notify sessionConnection alert.Fatal 40
  = (set_sessionStore sessionConnection
       (Some (fst (SessionStore_Del [[x09]] (sessionKey sessionConnection)))),
     Some (otherError 1)).
Proof.
  destruct (notify_fatal_session sessionConnection 40 [[x09]]) as (Hfail & _).
  - vm_compute. reflexivity.
  - reflexivity.
  - apply Hfail. reflexivity.
Defined.

(** A datagram of three records: the first delivers "hi", the second is a
    [close_notify] alert, which ends the call with its error, and the third
    is not handled. *)
Lemma readAndBuffer_first_error_witness :
  snd (readAndBuffer readingConnection (fun _ => false))
    = Err (alertError (mkAlert alert.Warning alert.CloseNotify)) /\
  chan_items (decrypted (conn (fst (readAndBuffer readingConnection (fun _ => false)))))
    = [ItemBytes hi].
Proof.
  destruct (readAndBuffer_first_error readingConnection (fun _ => false))
    as (_ & _ & Hfirst).
  rewrite (Hfirst [] threeRecords 7 [hiDatagram] alertRecord [plainDataRecord]
             (fst (handleRecords
                     (set_conn readingConnection
                        (set_nextConn (conn readingConnection) []))
                     [hiDatagram] 7 (fun _ => false) 0 false))
             false
             (fst (fst (handleRecord
                          (fst (handleRecords
                                  (set_conn readingConnection
                                     (set_nextConn (conn readingConnection) []))
                                  [hiDatagram] 7 (fun _ => false) 0 false))
                          alertRecord 7 true false)))
             (snd (fst (handleRecord
                          (fst (handleRecords
                                  (set_conn readingConnection
                                     (set_nextConn (conn readingConnection) []))
                                  [hiDatagram] 7 (fun _ => false) 0 false))
                          alertRecord 7 true false)))
             (alertError (mkAlert alert.Warning alert.CloseNotify))).
  - split; [reflexivity|]. vm_compute. reflexivity.
  - reflexivity.
  - vm_compute. reflexivity.
  - apply injective_projections; [reflexivity|]. vm_compute. reflexivity.
  - apply SendFacts.triple_eq. vm_compute. reflexivity.
Defined.

End LifecycleFacts.

(* ------------------------------------------------------------------ *)
(** ** From [Write] on one side to [Read] on the other *)

Module LoopbackFacts.
Import protocol recordlayer dtls BytesFacts Notions FrameNotions.
Import SendFacts SendRecordFacts ReceiveContentFacts.
Local Open Scope Z_scope.

Section WithPlatform.
Context {platform : Platform}.


End WithPlatform.

Import ExamplePlatform Scenario.


End LoopbackFacts.
